(** * quark: grading engine -- verification of the specification

    Shallow embedding of the parts of
      - runner/runner.go            (Grade with its run loop and its
                                     validation loop, NewRunResult,
                                     parseOutputOnlyFile, worseVerdict,
                                     sliceIndex, min)
      - runner/validator.go         (scanTokens, scanNumericTokens, CalculateScore)
      - grader/v1compat/input.go    (Verify, getStoredHash, getStoredLength,
                                     Persist, Delete, Transmit,
                                     CreateArchiveFromGit)
      - cmd/omegaup-grader/frontend_handler.go (broadcastRun)
    that the specification's testable properties talk about, and of the
    functions around them.

    Conventions.
      - A Go [string] or [[]byte] is a Rocq [string] (a sequence of bytes).
      - A Go [int] used as an index or length is a [Z]; loop counters that
        only count up from 0 are [nat].
      - A Go [float64] is an IEEE-754 binary64 value, [spec_float] with
        precision 53 and maximal exponent 1024.
      - A Go [*big.Rat] is a canonical rational [Qc].
      - A run-time panic is [None] in an [option]; a Go [error] return is
        the [Err] constructor of [result]. *)

From Stdlib Require Import ZArith List String Ascii Bool Lia.
From Stdlib Require Import QArith Qcanon Permutation.
From Stdlib Require Import Floats.SpecFloat.
Import ListNotations.

Open Scope string_scope.
Open Scope Z_scope.

(* ================================================================== *)
(** * Part I: definitions                                              *)
(* ================================================================== *)

(** ** Go run-time notions shared by all packages *)

Module Go.

(** Go's [error] values that the modelled code produces or forwards. *)
Inductive error : Type :=
| ErrUnexpectedEOF                (* io.ErrUnexpectedEOF *)
| ErrorString (msg : string)      (* errors.New(msg) *)
| ErrNotExist (path : string)     (* *os.PathError from os.Stat / os.Open *)
| ErrSyntax (input : string)      (* *strconv.NumError, strconv.ErrSyntax *)
| ErrRange (input : string)       (* *strconv.NumError, strconv.ErrRange *)
| ErrUnsupportedValue             (* *json.UnsupportedValueError *)
| ErrExternal (what : string).    (* an error of a collaborator *)

Inductive result (A : Type) : Type :=
| Ok (a : A)
| Err (e : error).
Arguments Ok {A} a.
Arguments Err {A} e.

Definition bind {A B} (r : result A) (k : A -> result B) : result B :=
  match r with
  | Ok a => k a
  | Err e => Err e
  end.


(** [len(s)] of a slice. *)
Definition len {A} (s : list A) : Z := Z.of_nat (List.length s).

(** [s[i]] on a slice; [None] is the panic "index out of range". *)
Definition index {A} (s : list A) (i : Z) : option A :=
  if i <? 0 then None else nth_error s (Z.to_nat i).

(** [s[n:]] on a string. *)
Fixpoint drop (n : nat) (s : string) : string :=
  match n, s with
  | O, _ => s
  | S _, EmptyString => EmptyString
  | S n', String _ s' => drop n' s'
  end.

(** The numeric value of a byte. *)
Definition byte (c : ascii) : Z := Z.of_N (N_of_ascii c).

(** The string that holds one line feed. *)
Definition newline : string := String "010" EmptyString.

End Go.

Import Go.
Notation "x <- r ;; k" := (Go.bind r (fun x => k))
  (at level 61, r at next level, right associativity).

(** ** float64 *)

Module Float64.

Definition float64 : Type := spec_float.

Definition prec : Z := 53.
Definition emax : Z := 1024.

Definition add : float64 -> float64 -> float64 := SFadd prec emax.
Definition sub : float64 -> float64 -> float64 := SFsub prec emax.
Definition mul : float64 -> float64 -> float64 := SFmul prec emax.
Definition div : float64 -> float64 -> float64 := SFdiv prec emax.
Definition abs : float64 -> float64 := SFabs.

(** Go's comparison operators on float64: every comparison with a NaN
    is false, except [!=], which is true. *)
Definition eqb : float64 -> float64 -> bool := SFeqb.
Definition leb : float64 -> float64 -> bool := SFleb.
Definition ltb : float64 -> float64 -> bool := SFltb.

Definition isNaN (x : float64) : bool :=
  match x with S754_nan => true | _ => false end.
Definition isInf (x : float64) : bool :=
  match x with S754_infinity _ => true | _ => false end.

(** The float64 nearest to the integer [z] (conversion of an integer
    constant). *)
Definition ofZ (z : Z) : float64 :=
  match z with
  | Z0 => S754_zero false
  | _ => binary_normalize prec emax z 0 false
  end.

(** The float64 nearest to [n / d], for [d > 0]: the value of a decimal
    literal such as [1e-6], and of the method Float64 of big.Rat. *)
Definition ofRatio (n : Z) (d : positive) : float64 :=
  match n with
  | Z0 => S754_zero false
  | Zpos p => div (S754_finite false p 0) (S754_finite false d 0)
  | Zneg p => div (S754_finite true p 0) (S754_finite false d 0)
  end.

Definition zero : float64 := S754_zero false.
Definition one : float64 := ofZ 1.

(** The exact rational value of a finite float64. *)
Definition toQ (x : float64) : option Q :=
  match x with
  | S754_zero _ => Some 0%Q
  | S754_finite s m e =>
      let v := match e with
               | Zneg k => (Zpos m # Pos.pow 2 k)%Q
               | _ => inject_Z (Zpos m * 2 ^ e)
               end in
      Some (if s then Qopp v else v)
  | _ => None
  end.

(** [math.Max] and [math.Min], with the special cases of package math. *)
Definition signbit (x : float64) : bool :=
  match x with
  | S754_zero s | S754_infinity s | S754_finite s _ _ => s
  | S754_nan => false
  end.

Definition Max (x y : float64) : float64 :=
  if orb (SFeqb x (S754_infinity false)) (SFeqb y (S754_infinity false))
  then S754_infinity false
  else if orb (isNaN x) (isNaN y) then S754_nan
  else if andb (SFeqb x zero) (SFeqb x y)
       then (if signbit x then y else x)
  else if SFltb y x then x else y.

Definition Min (x y : float64) : float64 :=
  if orb (SFeqb x (S754_infinity true)) (SFeqb y (S754_infinity true))
  then S754_infinity true
  else if orb (isNaN x) (isNaN y) then S754_nan
  else if andb (SFeqb x zero) (SFeqb x y)
       then (if signbit x then x else y)
  else if SFltb x y then x else y.

End Float64.

(** ** big.Rat *)

Module Rat.

Abbreviation Rat := Qc.

Definition zero : Rat := Q2Qc 0.
Definition one : Rat := Q2Qc 1.          (* big.NewRat(1, 1) *)

Definition Add (x y : Rat) : Rat := (x + y)%Qc.
Definition Mul (x y : Rat) : Rat := (x * y)%Qc.

(** [z.Quo(x, y)]; [None] is the panic "division by zero". *)
Definition Quo (x y : Rat) : option Rat :=
  if Qc_eq_dec y zero then None else Some (x / y)%Qc.

(** [x.Cmp(y)]: -1, 0 or +1. *)
Definition Cmp (x y : Rat) : Z :=
  match (x ?= y)%Qc with
  | Lt => -1
  | Eq => 0
  | Gt => 1
  end.

(** [base.RationalToFloat], that is the method Float64 of big.Rat: the
    nearest float64. *)
Definition RationalToFloat (r : Rat) : Float64.float64 :=
  Float64.ofRatio (Qnum (this r)) (Qden (this r)).

End Rat.

(** ** package common (declarations used by the modelled code) *)

Module common.

(** Modelled from the spec: [common.VerdictList] is declared in package
    common, which is not among the sources.  The specification orders the
    verdict domain best to worst as
    AC < PA < WA < OK < TLE < MLE < OLE < RTE < CE < JE and says that the
    combinator [worse] "operates over an explicitly ordered list" and
    returns the greater of its arguments; [worseVerdict] returns the
    entry with the smaller index, so the list holds the worst verdict
    first. *)
Definition VerdictList : list string :=
  ["JE"; "CE"; "RTE"; "OLE"; "MLE"; "TLE"; "OK"; "WA"; "PA"; "AC"].

(** The specification's order, best to worst, as it is written there. *)
Definition verdictOrder : list string :=
  ["AC"; "PA"; "WA"; "OK"; "TLE"; "MLE"; "OLE"; "RTE"; "CE"; "JE"].

(** The rank of a verdict in the specification's order (0 is best);
    verdicts outside the domain get rank 10. *)
Fixpoint rankIn (l : list string) (v : string) : nat :=
  match l with
  | [] => O
  | x :: l' => if String.eqb x v then O else S (rankIn l' v)
  end.

Definition rank (v : string) : nat := rankIn verdictOrder v.

(** [a] is at most as bad as [b]. *)
Definition verdict_le (a b : string) : Prop := (rank a <= rank b)%nat.

End common.

(** ** runner/runner.go: verdict merging *)

Module runner.

(** [sliceIndex]: the first [i] in [0, limit) with [predicate(i)], or
    -1.  [sliceIndexFrom n i] is the loop with [n] iterations left and
    the counter at [i]. *)
Fixpoint sliceIndexFrom (n : nat) (i : Z) (predicate : Z -> bool) : Z :=
  match n with
  | O => -1
  | S n' => if predicate i then i else sliceIndexFrom n' (i + 1) predicate
  end.

Definition sliceIndex (limit : Z) (predicate : Z -> bool) : Z :=
  sliceIndexFrom (Z.to_nat limit) 0 predicate.

Definition min (a b : Z) : Z := if a <? b then a else b.

Section WorseVerdict.

(** common.VerdictList *)
Variable VerdictList : list string.

(** The closure [func(i int) bool { return common.VerdictList[i] == a }];
    [sliceIndex] calls it only with [0 <= i < len(VerdictList)]. *)
Definition isVerdict (a : string) (i : Z) : bool :=
  match index VerdictList i with
  | Some v => String.eqb v a
  | None => false
  end.

Definition worseVerdict (a b : string) : option string :=
  let idxA := sliceIndex (len VerdictList) (isVerdict a) in
  let idxB := sliceIndex (len VerdictList) (isVerdict b) in
  index VerdictList (min idxA idxB).

(** The index that [worseVerdict] computes for an argument. *)
Definition idx (a : string) : Z :=
  sliceIndex (len VerdictList) (isVerdict a).

End WorseVerdict.

(** A call of [worseVerdict] on the outcome of another call. *)
Definition andThen (r : option string) (k : string -> option string)
  : option string :=
  match r with
  | Some v => k v
  | None => None
  end.

End runner.

(** ** runner/runner.go: Grade *)

Module RunMetadata.
(** The fields of [RunMetadata] that Grade reads and writes. *)
Record t : Type := mk {
  Verdict : string;
  ExitStatus : Z;
  Time : Float64.float64;
  WallTime : Float64.float64;
  Memory : Z;                       (* base.Byte, an int64 *)
  Signal : option string            (* *string *)
}.

Definition withVerdict (m : t) (v : string) : t :=
  mk v (ExitStatus m) (Time m) (WallTime m) (Memory m) (Signal m).

(** [RunMetadata{Verdict: v}]: every other field has its zero value. *)
Definition ofVerdict (v : string) : t :=
  mk v 0 Float64.zero Float64.zero 0 None.
End RunMetadata.

Module CaseSettings.
Record t : Type := mk {
  Name : string;
  Weight : Rat.Rat                  (* *big.Rat *)
}.
End CaseSettings.

Module GroupSettings.
Record t : Type := mk {
  Name : string;
  Cases : list CaseSettings.t
}.
End GroupSettings.

Module RunResult.
(** The fields of [RunResult] that the end of Grade reads and writes. *)
Record t : Type := mk {
  Verdict : string;
  Score : Rat.Rat;
  ContestScore : Rat.Rat;
  MaxScore : Rat.Rat;
  Time : Float64.float64;
  WallTime : Float64.float64;
  Memory : Z
}.
End RunResult.

Module Grade.

Import runner.

(** *** Weight normalisation (runner.go, lines 471-482) *)

(** The value of [totalWeightFactor] after the two nested loops: the sum
    of all case weights, accumulated in declaration order from 0. *)
Definition totalWeight (cases : list GroupSettings.t) : Rat.Rat :=
  fold_left
    (fun acc group =>
       fold_left (fun acc caseData => Rat.Add acc (CaseSettings.Weight caseData))
                 (GroupSettings.Cases group) acc)
    cases Rat.zero.

(** [totalWeightFactor] after the conditional.  [None] would be the
    panic of [Quo] on a zero divisor. *)
Definition totalWeightFactor (cases : list GroupSettings.t) : option Rat.Rat :=
  let total := totalWeight cases in
  if Rat.Cmp total Rat.zero <=? 0
  then Some Rat.one
  else Rat.Quo Rat.one total.

(** [new(big.Rat).Mul(caseData.Weight, totalWeightFactor)], the
    normalised weight of a case. *)
Definition caseWeight (caseData : CaseSettings.t) (factor : Rat.Rat) : Rat.Rat :=
  Rat.Mul (CaseSettings.Weight caseData) factor.

(** [CaseResult.MaxScore]. *)
Definition caseMaxScore (maxScore : Rat.Rat) (caseData : CaseSettings.t)
                        (factor : Rat.Rat) : Rat.Rat :=
  Rat.Mul maxScore (caseWeight caseData factor).

(** The normalised weights of all cases, group by group, in declaration
    order. *)
Definition caseWeights (cases : list GroupSettings.t) (factor : Rat.Rat)
  : list (list Rat.Rat) :=
  map (fun group => map (fun caseData => caseWeight caseData factor)
                        (GroupSettings.Cases group))
      cases.

(** The sum over all groups of the sum of the weights of their cases. *)
Definition sumWeights (ws : list (list Rat.Rat)) : Rat.Rat :=
  fold_right (fun group acc => Rat.Add (fold_right Rat.Add Rat.zero group) acc)
             Rat.zero ws.

Definition rawWeights (cases : list GroupSettings.t) : list (list Rat.Rat) :=
  map (fun group => map CaseSettings.Weight (GroupSettings.Cases group)) cases.

(** The normalisation as the specification words it: with W the sum of
    the raw weights, "if W <= 0 the assembler substitutes W <- 1 and each
    case weight <- 1"; the normalised weight of a case is its weight over
    W. *)
Definition specNormalisedWeights (cases : list GroupSettings.t)
  : list (list Rat.Rat) :=
  let W := sumWeights (rawWeights cases) in
  if Rat.Cmp W Rat.zero <=? 0
  then map (map (fun _ => (Rat.one / Rat.one)%Qc)) (rawWeights cases)
  else map (map (fun w => (w / W)%Qc)) (rawWeights cases).

(** *** Collecting the results of the binaries of one case
        (runner.go, lines 963-1038) *)

Inductive binaryType : Type :=
| binaryProblemsetter
| binaryContestant
| binaryValidator.

Record intermediateRunResult : Type := {
  name : string;
  runMeta : RunMetadata.t;
  binType : binaryType;
  generatedFiles : list string
}.

(** [m[k] = v] on a Go map kept as an association list. *)
Fixpoint mapSet {V} (k : string) (v : V) (m : list (string * V))
  : list (string * V) :=
  match m with
  | [] => [(k, v)]
  | (k', v') :: m' =>
      if String.eqb k' k then (k, v) :: m' else (k', v') :: mapSet k v m'
  end.

(** int64 wrap-around. *)
Definition wrap64 (z : Z) : Z := (z + 2 ^ 63) mod 2 ^ 64 - 2 ^ 63.

(** base.MaxBytes *)
Definition MaxBytes (a b : Z) : Z := if a <? b then b else a.

(** The variables the channel loop updates. *)
Record collected : Type := {
  parentMetadata : option RunMetadata.t;
  chosenMetadata : RunMetadata.t;
  chosenMetadataEmpty : bool;
  finalVerdict : string;
  totalTime : Float64.float64;
  totalWallTime : Float64.float64;
  totalMemory : Z;
  allGeneratedFiles : list string;
  individualMeta : list (string * RunMetadata.t)
}.

Definition collectInit (files : list string) : collected :=
  {| parentMetadata := None;
     chosenMetadata := RunMetadata.ofVerdict "OK";
     chosenMetadataEmpty := true;
     finalVerdict := "OK";
     totalTime := Float64.zero;
     totalWallTime := Float64.zero;
     totalMemory := 0;
     allGeneratedFiles := files;
     individualMeta := [] |}.

Section Collect.

Variable VerdictList : list string.
Variable regularBinaryCount : Z.

(** One iteration of [for i := 0; i < regularBinaryCount; i++], on the
    value [r] received from [metaChan]. *)
Definition collectStep (st : collected) (r : intermediateRunResult)
  : option collected :=
  let files := (allGeneratedFiles st ++ generatedFiles r)%list in
  let individual :=
    if negb (regularBinaryCount =? 1)
    then mapSet (name r) (runMeta r) (individualMeta st)
    else individualMeta st in
  match binType r with
  | binaryProblemsetter =>
      Some {| parentMetadata := Some (runMeta r);
              chosenMetadata := chosenMetadata st;
              chosenMetadataEmpty := chosenMetadataEmpty st;
              finalVerdict := finalVerdict st;
              totalTime := totalTime st;
              totalWallTime := totalWallTime st;
              totalMemory := totalMemory st;
              allGeneratedFiles := files;
              individualMeta := individual |}
  | _ =>
      let take :=
        andb (negb (String.eqb (RunMetadata.Verdict (runMeta r)) "OK"))
             (chosenMetadataEmpty st) in
      match worseVerdict VerdictList (finalVerdict st)
                         (RunMetadata.Verdict (runMeta r)) with
      | None => None
      | Some v =>
          Some {| parentMetadata := parentMetadata st;
                  chosenMetadata :=
                    if take then runMeta r else chosenMetadata st;
                  chosenMetadataEmpty :=
                    if take then false else chosenMetadataEmpty st;
                  finalVerdict := v;
                  totalTime :=
                    Float64.add (totalTime st) (RunMetadata.Time (runMeta r));
                  totalWallTime :=
                    Float64.Max (totalWallTime st)
                                (RunMetadata.WallTime (runMeta r));
                  totalMemory :=
                    wrap64 (totalMemory st
                            + MaxBytes (totalMemory st)
                                       (RunMetadata.Memory (runMeta r)));
                  allGeneratedFiles := files;
                  individualMeta := individual |}
      end
  end.

(** The whole loop, on the results in the order in which the channel
    delivers them. *)
Fixpoint collect (st : collected) (rs : list intermediateRunResult)
  : option collected :=
  match rs with
  | [] => Some st
  | r :: rs' =>
      match collectStep st r with
      | None => None
      | Some st' => collect st' rs'
      end
  end.

(** Lines 1002-1005: the merged metadata of the contestant binaries. *)
Definition merged (st : collected) : RunMetadata.t :=
  RunMetadata.mk (finalVerdict st)
                 (RunMetadata.ExitStatus (chosenMetadata st))
                 (totalTime st) (totalWallTime st) (totalMemory st)
                 (RunMetadata.Signal (chosenMetadata st)).

(** Lines 1013-1035: the verdict taken from the problemsetter's
    metadata. *)
Definition parentVerdict (parent : RunMetadata.t) : string :=
  if String.eqb (RunMetadata.Verdict parent) "OLE" then "OLE"
  else if String.eqb (RunMetadata.Verdict parent) "TLE" then "TLE"
  else if RunMetadata.ExitStatus parent =? 239 then "RTE"
  else if RunMetadata.ExitStatus parent =? 240 then "RTE"
  else if RunMetadata.ExitStatus parent =? 241 then "RTE"
  else if RunMetadata.ExitStatus parent =? 242 then "RTE"
  else match RunMetadata.Signal parent with
       | Some s => if String.eqb s "SIGPIPE" then "RTE" else "JE"
       | None => "JE"
       end.

(** Lines 1007-1038: [runMeta] of the case. *)
Definition reconcile (st : collected) : RunMetadata.t :=
  let chosen := merged st in
  match parentMetadata st with
  | Some parent =>
      if andb (negb (String.eqb (RunMetadata.Verdict parent) "OK"))
              (String.eqb (RunMetadata.Verdict chosen) "OK")
      then RunMetadata.withVerdict chosen (parentVerdict parent)
      else chosen
  | None => chosen
  end.

(** [runMeta] of a case run through the sandbox, from the results in
    arrival order; [None] is a panic of [worseVerdict]. *)
Definition caseRunMeta (files : list string)
                       (rs : list intermediateRunResult)
  : option RunMetadata.t :=
  match collect (collectInit files) rs with
  | None => None
  | Some st => Some (reconcile st)
  end.

End Collect.

(** A result of a contestant binary that ran to the verdict OK. *)
Definition contestantOK (r : intermediateRunResult) : Prop :=
  binType r <> binaryProblemsetter
  /\ RunMetadata.Verdict (runMeta r) = "OK".

(** *** The end of Grade (runner.go, lines 1226-1235) *)

Definition finish (runResult : RunResult.t) : RunResult.t :=
  let r :=
    if andb (String.eqb (RunResult.Verdict runResult) "PA")
            (Rat.Cmp (RunResult.Score runResult) Rat.zero =? 0)
    then RunResult.mk "WA"
                      (RunResult.Score runResult)
                      (RunResult.ContestScore runResult)
                      (RunResult.MaxScore runResult)
                      (RunResult.Time runResult)
                      (RunResult.WallTime runResult)
                      (RunResult.Memory runResult)
    else if String.eqb (RunResult.Verdict runResult) "OK"
    then RunResult.mk "AC"
                      Rat.one
                      (RunResult.ContestScore runResult)
                      (RunResult.MaxScore runResult)
                      (RunResult.Time runResult)
                      (RunResult.WallTime runResult)
                      (RunResult.Memory runResult)
    else runResult in
  RunResult.mk (RunResult.Verdict r)
               (RunResult.Score r)
               (Rat.Mul (RunResult.MaxScore r) (RunResult.Score r))
               (RunResult.MaxScore r)
               (RunResult.Time r)
               (RunResult.WallTime r)
               (RunResult.Memory r).

End Grade.

(** ** Library functions of Go that the scanners are built from *)

Module utf8.

Definition RuneError : Z := 65533.    (* U+FFFD *)

(** [utf8.DecodeRune]: the first rune of [p] and its width in bytes.
    An empty [p] gives [(RuneError, 0)], an invalid or truncated
    encoding [(RuneError, 1)]. *)
Definition DecodeRune (p : string) : Z * nat :=
  match p with
  | EmptyString => (RuneError, O)
  | String c0 t0 =>
      let p0 := Go.byte c0 in
      if p0 <? 128 then (p0, 1%nat)
      else if orb (p0 <? 194) (244 <? p0) then (RuneError, 1%nat)
      else
        let lo := if p0 =? 224 then 160 else if p0 =? 240 then 144 else 128 in
        let hi := if p0 =? 237 then 159 else if p0 =? 244 then 143 else 191 in
        match t0 with
        | EmptyString => (RuneError, 1%nat)
        | String c1 t1 =>
            let b1 := Go.byte c1 in
            if orb (b1 <? lo) (hi <? b1) then (RuneError, 1%nat)
            else if p0 <? 224 then
              (Z.lor (Z.shiftl (Z.land p0 31) 6) (Z.land b1 63), 2%nat)
            else
              match t1 with
              | EmptyString => (RuneError, 1%nat)
              | String c2 t2 =>
                  let b2 := Go.byte c2 in
                  if orb (b2 <? 128) (191 <? b2) then (RuneError, 1%nat)
                  else if p0 <? 240 then
                    (Z.lor (Z.shiftl (Z.land p0 15) 12)
                           (Z.lor (Z.shiftl (Z.land b1 63) 6) (Z.land b2 63)),
                     3%nat)
                  else
                    match t2 with
                    | EmptyString => (RuneError, 1%nat)
                    | String c3 _ =>
                        let b3 := Go.byte c3 in
                        if orb (b3 <? 128) (191 <? b3) then (RuneError, 1%nat)
                        else
                          (Z.lor (Z.shiftl (Z.land p0 7) 18)
                             (Z.lor (Z.shiftl (Z.land b1 63) 12)
                                (Z.lor (Z.shiftl (Z.land b2 63) 6)
                                       (Z.land b3 63))),
                           4%nat)
                    end
              end
        end
  end.

End utf8.

Module unicode.

(** [unicode.IsSpace]: the code points with the White_Space property. *)
Definition IsSpace (r : Z) : bool :=
  orb (andb (9 <=? r) (r <=? 13))                (* \t \n \v \f \r *)
 (orb (r =? 32)
 (orb (r =? 133)                                 (* U+0085 NEL *)
 (orb (r =? 160)                                 (* U+00A0 NBSP *)
 (orb (r =? 5760)                                (* U+1680 *)
 (orb (andb (8192 <=? r) (r <=? 8202))           (* U+2000 .. U+200A *)
 (orb (r =? 8232)                                (* U+2028 *)
 (orb (r =? 8233)                                (* U+2029 *)
 (orb (r =? 8239)                                (* U+202F *)
 (orb (r =? 8287)                                (* U+205F *)
      (r =? 12288)))))))))).                     (* U+3000 *)

End unicode.

Module bufio.

(** A split function: from the unread data and the end-of-input flag to
    the number of bytes to advance and the token, if there is one. *)
Definition SplitFunc : Type := string -> bool -> nat * option string.

(** The first loop of [scanTokens] and [ScanWords]:
    [for width := 0; start < len(data); start += width], leaving at the
    first rune that is not a separator.  [fuel] bounds the number of
    iterations; every iteration advances by at least one byte. *)
Fixpoint skipSeparators (fuel : nat) (isSep : Z -> bool) (data : string)
                        (start : nat) : nat :=
  match fuel with
  | O => start
  | S fuel' =>
      if (start <? String.length data)%nat
      then let '(r, width) := utf8.DecodeRune (Go.drop start data) in
           if isSep r
           then skipSeparators fuel' isSep data (start + width)%nat
           else start
      else start
  end.

(** The second loop: [for width, i := 0, start; i < len(data); i += width],
    returning [(i, width)] at the first separator. *)
Fixpoint findSeparator (fuel : nat) (isSep : Z -> bool) (data : string)
                       (i : nat) : option (nat * nat) :=
  match fuel with
  | O => None
  | S fuel' =>
      if (i <? String.length data)%nat
      then let '(r, width) := utf8.DecodeRune (Go.drop i data) in
           if isSep r
           then Some (i, width)
           else findSeparator fuel' isSep data (i + width)%nat
      else None
  end.

(** The body shared by [bufio.ScanWords], [scanTokens] and
    [scanNumericTokens], which differ in the separator test only. *)
Definition scanRunes (isSep : Z -> bool) : SplitFunc :=
  fun data atEOF =>
    let n := String.length data in
    let start := skipSeparators n isSep data O in
    match findSeparator n isSep data start with
    | Some (i, width) =>
        ((i + width)%nat, Some (substring start (i - start) data))
    | None =>
        if andb atEOF (start <? n)%nat
        then (n, Some (Go.drop start data))
        else (start, None)
    end.

Definition ScanWords : SplitFunc := scanRunes unicode.IsSpace.

(** [bytes.IndexByte(data, c)] as the offset from the head, if any. *)
Fixpoint IndexByte (data : string) (c : ascii) : option nat :=
  match data with
  | EmptyString => None
  | String d data' =>
      if Ascii.eqb d c then Some O
      else match IndexByte data' c with
           | Some i => Some (S i)
           | None => None
           end
  end.

(** [dropCR]: drop one terminal carriage return. *)
Fixpoint dropCR (data : string) : string :=
  match data with
  | EmptyString => EmptyString
  | String c EmptyString =>
      if Ascii.eqb c "013"%char then EmptyString else data
  | String c data' => String c (dropCR data')
  end.

Definition ScanLines : SplitFunc :=
  fun data atEOF =>
    if andb atEOF (String.length data =? 0)%nat then (O, None)
    else match IndexByte data "010"%char with
         | Some i => (S i, Some (dropCR (substring O i data)))
         | None =>
             if atEOF then (String.length data, Some (dropCR data))
             else (O, None)
         end.

(** A Scanner over a reader that delivers [buf] and then end of input.
    The split function sees all the unread input at once; the limit of
    bufio.MaxScanTokenSize (64 KiB) on one token is not modelled. *)
Record Scanner : Type := {
  split : SplitFunc;
  buf : string;                 (* the input not yet consumed *)
  token : string                (* what Text() returns *)
}.

Definition NewScanner (input : string) (f : SplitFunc) : Scanner :=
  {| split := f; buf := input; token := EmptyString |}.

(** [Scan]: whether there is a next token, and the scanner after the
    call.  After end of input the token is empty. *)
Definition Scan (s : Scanner) : bool * Scanner :=
  match split s (buf s) true with
  | (advance, Some tok) =>
      (true, {| split := split s; buf := Go.drop advance (buf s); token := tok |})
  | (_, None) =>
      (false, {| split := split s; buf := EmptyString; token := EmptyString |})
  end.

Definition Text (s : Scanner) : string := token s.

(** All the tokens a scanner yields until [Scan] returns false. *)
Fixpoint tokensFrom (fuel : nat) (s : Scanner) : list string :=
  match fuel with
  | O => []
  | S fuel' =>
      match Scan s with
      | (true, s') => Text s' :: tokensFrom fuel' s'
      | (false, _) => []
      end
  end.

Definition tokens (f : SplitFunc) (input : string) : list string :=
  tokensFrom (String.length input) (NewScanner input f).

(** A scanner whose split function is one of the rune scanners. *)
Definition overRunes (s : Scanner) : Prop :=
  exists isSep, split s = scanRunes isSep.

End bufio.

(** ** runner/validator.go *)

Module validator.

Import Float64.

Definition isSpace (r : Z) : bool :=
  orb (unicode.IsSpace r) (andb (28 <=? r) (r <=? 31)).

Definition scanTokens : bufio.SplitFunc := bufio.scanRunes isSpace.

Definition isNumericRune (r : Z) : bool :=
  orb (r =? 46) (orb (r =? 45) (andb (48 <=? r) (r <=? 57))).

Definition scanNumericTokens : bufio.SplitFunc :=
  bufio.scanRunes (fun r => negb (isNumericRune r)).

Record ValidatorSettings : Type := {
  Name : string;
  Tolerance : option float64        (* *float64 *)
}.

(** What a call can come to: a return, a run-time panic, or, for the
    model of a loop, the end of the fuel. *)
Inductive exec (A : Type) : Type :=
| Returned (a : A)
| Panicked
| OutOfFuel.
Arguments Returned {A} a.
Arguments Panicked {A}.
Arguments OutOfFuel {A}.

Section WithStrconv.

(** [strconv.ParseFloat(s, 64)]: the value and the error, if any. *)
Variable ParseFloat : string -> float64 * option Go.error.
(** [strings.EqualFold] *)
Variable EqualFold : string -> string -> bool.

Definition token (a b : string) : bool := String.eqb a b.

Definition tokenCaseless (a b : string) : bool := EqualFold a b.

Definition tokenNumeric (a b : string) (tolerance : float64) : bool :=
  let '(af, erra) := ParseFloat a in
  let '(bf, errb) := ParseFloat b in
  match erra, errb with
  | None, None => leb (abs (sub af bf)) (mul (abs af) tolerance)
  | Some _, Some _ => true
  | _, _ => false
  end.

(** The [switch settings.Name] in the loop: the new value of [correct],
    or the error of the default branch. *)
Definition compareTokens (settings : ValidatorSettings)
                         (expected contestant : string)
  : exec (Go.result bool) :=
  if String.eqb (Name settings) "token"
  then Returned (Go.Ok (token expected contestant))
  else if String.eqb (Name settings) "token-caseless"
  then Returned (Go.Ok (tokenCaseless expected contestant))
  else if String.eqb (Name settings) "token-numeric"
  then match Tolerance settings with
       | Some tolerance =>
           Returned (Go.Ok (tokenNumeric expected contestant tolerance))
       | None => Panicked            (* nil pointer dereference *)
       end
  else Returned (Go.Err (Go.ErrorString "Unknown validator")).

(** [for correct { ... }], entered with [correct = true]; the result is
    the pair that CalculateScore returns. *)
Fixpoint scoreLoop (fuel : nat) (settings : ValidatorSettings)
                   (contestantScanner expectedScanner : bufio.Scanner)
  : exec (float64 * option Go.error) :=
  match fuel with
  | O => OutOfFuel
  | S fuel' =>
      let '(expectedNext, expectedScanner') := bufio.Scan expectedScanner in
      let '(contestantNext, contestantScanner') := bufio.Scan contestantScanner in
      let correct := Bool.eqb expectedNext contestantNext in
      if negb expectedNext
      then (* break *)
        Returned (if correct then one else zero, None)
      else
        match compareTokens settings (bufio.Text expectedScanner')
                                     (bufio.Text contestantScanner') with
        | Returned (Go.Ok true) =>
            scoreLoop fuel' settings contestantScanner' expectedScanner'
        | Returned (Go.Ok false) => Returned (zero, None)
        | Returned (Go.Err e) => Returned (zero, Some e)
        | Panicked => Panicked
        | OutOfFuel => OutOfFuel
        end
  end.

Definition CalculateScore (settings : ValidatorSettings)
                          (contestantOutput expectedOutput : string)
  : exec (float64 * option Go.error) :=
  let scanFunc :=
    if String.eqb (Name settings) "token-numeric"
    then scanNumericTokens else scanTokens in
  let contestantScanner := bufio.NewScanner contestantOutput scanFunc in
  if orb (String.eqb (Name settings) "literal")
         (String.eqb (Name settings) "custom")
  then
    match bufio.Scan contestantScanner with
    | (false, _) => Returned (zero, Some Go.ErrUnexpectedEOF)
    | (true, s) =>
        let '(value, err) := ParseFloat (bufio.Text s) in
        Returned (Max zero (Min one value), err)
    end
  else
    let expectedScanner := bufio.NewScanner expectedOutput scanFunc in
    scoreLoop (S (String.length expectedOutput)) settings
              contestantScanner expectedScanner.

(** The comparison of the policy that the settings name, for the three
    token policies (and a tolerance that is set). *)
Definition matcher (settings : ValidatorSettings)
  : option (string -> string -> bool) :=
  if String.eqb (Name settings) "token" then Some token
  else if String.eqb (Name settings) "token-caseless" then Some tokenCaseless
  else if String.eqb (Name settings) "token-numeric"
  then match Tolerance settings with
       | Some tolerance => Some (fun a b => tokenNumeric a b tolerance)
       | None => None
       end
  else None.

End WithStrconv.

(** The split function that CalculateScore chooses. *)
Definition scanFuncOf (settings : ValidatorSettings) : bufio.SplitFunc :=
  if String.eqb (Name settings) "token-numeric"
  then scanNumericTokens else scanTokens.

(** The specification's score condition: every pair of corresponding
    tokens matches and both streams end at the same step. *)
Fixpoint streamsMatch (matches : string -> string -> bool)
                      (expected contestant : list string) : bool :=
  match expected, contestant with
  | [], [] => true
  | e :: es, c :: cs => andb (matches e c) (streamsMatch matches es cs)
  | _, _ => false
  end.

(** The condition that the loop computes: once the contestant stream has
    ended, the expected tokens that remain are compared with the empty
    text. *)
Fixpoint loopMatch (matches : string -> string -> bool)
                   (expected contestant : list string) : bool :=
  match expected with
  | [] => match contestant with [] => true | _ :: _ => false end
  | e :: es =>
      andb (matches e (hd EmptyString contestant))
           (loopMatch matches es (tl contestant))
  end.

(** [strconv.ParseFloat(s, 64)] on the strings that [scanNumericTokens]
    produces, which consist of the bytes [0-9], [.] and [-] only: an
    optional sign, digits with at most one [.], at least one digit.  Such a string has no exponent, no base prefix and no
    underscore, and is neither an infinity nor a NaN.  Every other string
    is reported as a syntax error here. *)
Fixpoint readDigits (s : string) (sawDot : bool) (mant : Z) (frac : nat)
                    (digits : nat) : option (Z * nat * nat) :=
  match s with
  | EmptyString => Some (mant, frac, digits)
  | String c s' =>
      let b := Go.byte c in
      if andb (48 <=? b) (b <=? 57)
      then readDigits s' sawDot (10 * mant + (b - 48))
                      (if sawDot then S frac else frac) (S digits)
      else if andb (b =? 46) (negb sawDot)
      then readDigits s' true mant frac digits
      else None
  end.

Definition pow10 (n : nat) : positive := Nat.iter n (Pos.mul 10) 1%positive.

Definition ParseFloat (s : string) : float64 * option Go.error :=
  let '(neg, body) :=
    match s with
    | String "-"%char s' => (true, s')
    | String "+"%char s' => (false, s')
    | _ => (false, s)
    end in
  match readDigits body false 0 O O with
  | Some (mant, frac, S _) =>
      let v := if mant =? 0 then S754_zero neg
               else ofRatio (if neg then - mant else mant) (pow10 frac) in
      if isInf v then (v, Some (Go.ErrRange s)) else (v, None)
  | _ => (zero, Some (Go.ErrSyntax s))
  end.

End validator.

(** ** Library functions of Go used by grader/v1compat/input.go *)

Module strconv.

(** [strconv.ParseUint(s, 10, 64)], digit by digit: the value and the
    error.  A range error is reported with the maximal value. *)
Definition maxUint64 : Z := 2 ^ 64 - 1.

Fixpoint parseUintLoop (s0 s : string) (n : Z) : Z * option Go.error :=
  match s with
  | EmptyString => (n, None)
  | String c s' =>
      let b := Go.byte c in
      if andb (48 <=? b) (b <=? 57)
      then
        if maxUint64 / 10 + 1 <=? n
        then (maxUint64, Some (Go.ErrRange s0))
        else
          let n1 := n * 10 + (b - 48) in
          if maxUint64 <? n1
          then (maxUint64, Some (Go.ErrRange s0))
          else parseUintLoop s0 s' n1
      else (0, Some (Go.ErrSyntax s0))
  end.

Definition ParseUint (s : string) : Z * option Go.error :=
  match s with
  | EmptyString => (0, Some (Go.ErrSyntax s))
  | _ => parseUintLoop s s 0
  end.

(** [strconv.ParseInt(s, 10, 64)] *)
Definition ParseInt (s : string) : Go.result Z :=
  match s with
  | EmptyString => Go.Err (Go.ErrSyntax s)
  | String c s' =>
      let '(neg, body) :=
        if Ascii.eqb c "+"%char then (false, s')
        else if Ascii.eqb c "-"%char then (true, s')
        else (false, s) in
      match ParseUint body with
      | (_, Some (Go.ErrSyntax _)) => Go.Err (Go.ErrSyntax s)
      | (un, _) =>
          let cutoff := 2 ^ 63 in
          if andb (negb neg) (cutoff <=? un) then Go.Err (Go.ErrRange s)
          else if andb neg (cutoff <? un) then Go.Err (Go.ErrRange s)
          else Go.Ok (if neg then - un else un)
      end
  end.

(** The decimal digit [d], for [0 <= d < 10]. *)
Definition digit (d : Z) : ascii := ascii_of_N (Z.to_N (48 + d)).

(** The digits of [n] in front of [acc], least significant digit first,
    as [strconv.FormatUint(n, 10)] produces them; a uint64 has at most 20
    digits. *)
Fixpoint formatUintLoop (fuel : nat) (n : Z) (acc : string) : string :=
  match fuel with
  | O => acc
  | S fuel' =>
      if n <? 10 then String (digit n) acc
      else formatUintLoop fuel' (n / 10) (String (digit (n mod 10)) acc)
  end.

Definition FormatUint (n : Z) : string := formatUintLoop 20 n EmptyString.

(** [strconv.FormatInt(i, 10)], which is also what the verb [%d] of
    package fmt prints for an int64. *)
Definition FormatInt (i : Z) : string :=
  if i <? 0 then String "-" (FormatUint (- i)) else FormatUint i.

End strconv.

Module sha1.

(** Modelled from the spec: [common.Sha1sum] is declared in package
    common, which is not among the sources; the specification says that
    the sidecar records "the hex SHA-1 of the archive bytes".  This is
    SHA-1 as FIPS 180-4 defines it, on 32-bit words kept in [Z]. *)

Definition w32 (x : Z) : Z := x mod 2 ^ 32.
Definition rotl (n x : Z) : Z :=
  Z.lor (w32 (Z.shiftl x n)) (Z.shiftr x (32 - n)).
Definition not32 (x : Z) : Z := Z.lxor x (2 ^ 32 - 1).

Fixpoint bytesOf (s : string) : list Z :=
  match s with
  | EmptyString => []
  | String c s' => Go.byte c :: bytesOf s'
  end.

(** The big-endian bytes of [x], [n] of them. *)
Fixpoint bigEndian (n : nat) (x : Z) : list Z :=
  match n with
  | O => []
  | S n' => (Z.shiftr x (8 * Z.of_nat n')) mod 256 :: bigEndian n' x
  end.

Definition pad (msg : list Z) : list Z :=
  let l := Z.of_nat (List.length msg) in
  let zeros := Z.to_nat ((55 - l) mod 64) in
  (msg ++ 128 :: repeat 0 zeros ++ bigEndian 8 (8 * l))%list.

Fixpoint wordsOf (n : nat) (bytes : list Z) : list Z :=
  match n, bytes with
  | S n', b0 :: b1 :: b2 :: b3 :: rest =>
      (b0 * 2 ^ 24 + b1 * 2 ^ 16 + b2 * 2 ^ 8 + b3) :: wordsOf n' rest
  | _, _ => []
  end.

(** The message schedule, kept newest first. *)
Fixpoint expand (n : nat) (rw : list Z) : list Z :=
  match n with
  | O => rw
  | S n' =>
      let w := rotl 1 (Z.lxor (nth 2 rw 0)
                      (Z.lxor (nth 7 rw 0)
                      (Z.lxor (nth 13 rw 0) (nth 15 rw 0)))) in
      expand n' (w :: rw)
  end.

Definition schedule (block : list Z) : list Z :=
  rev (expand 64 (rev (wordsOf 16 block))).

Definition state : Type := (Z * Z * Z * Z * Z)%type.

Definition round (t : Z) (st : state) (w : Z) : state :=
  let '(a, b, c, d, e) := st in
  let '(f, k) :=
    if t <? 20 then (Z.lor (Z.land b c) (Z.land (not32 b) d), 1518500249)
    else if t <? 40 then (Z.lxor b (Z.lxor c d), 1859775393)
    else if t <? 60 then
      (Z.lor (Z.land b c) (Z.lor (Z.land b d) (Z.land c d)), 2400959708)
    else (Z.lxor b (Z.lxor c d), 3395469782) in
  (w32 (rotl 5 a + f + e + k + w), a, rotl 30 b, c, d).

Fixpoint rounds (t : Z) (st : state) (ws : list Z) : state :=
  match ws with
  | [] => st
  | w :: ws' => rounds (t + 1) (round t st w) ws'
  end.

Definition compress (h : state) (block : list Z) : state :=
  let '(h0, h1, h2, h3, h4) := h in
  let '(a, b, c, d, e) := rounds 0 h (schedule block) in
  (w32 (h0 + a), w32 (h1 + b), w32 (h2 + c), w32 (h3 + d), w32 (h4 + e)).

Fixpoint blocks (n : nat) (h : state) (bytes : list Z) : state :=
  match n with
  | O => h
  | S n' => blocks n' (compress h (firstn 64 bytes)) (skipn 64 bytes)
  end.

Definition init : state :=
  (1732584193, 4023233417, 2562383102, 271733878, 3285377520).

(** The 20 bytes of the digest. *)
Definition Sum (data : string) : list Z :=
  let padded := pad (bytesOf data) in
  let '(h0, h1, h2, h3, h4) :=
    blocks (List.length padded / 64) init padded in
  (bigEndian 4 h0 ++ bigEndian 4 h1 ++ bigEndian 4 h2
     ++ bigEndian 4 h3 ++ bigEndian 4 h4)%list.

End sha1.

Module fmt.

Definition hexDigit (d : Z) : ascii :=
  ascii_of_N (Z.to_N (if d <? 10 then 48 + d else 87 + d)).

(** [fmt.Sprintf("%0x", bytes)]: two lower-case hexadecimal digits per
    byte. *)
Fixpoint hex (bytes : list Z) : string :=
  match bytes with
  | [] => EmptyString
  | b :: bytes' =>
      String (hexDigit (b / 16)) (String (hexDigit (b mod 16)) (hex bytes'))
  end.

End fmt.

(** ** grader/v1compat/input.go *)

Module v1compat.

Import Float64.

(** The files of the cache directory: the contents of each path that
    exists. *)
Definition FileSystem : Type := string -> option string.

Record graderBaseInput : Type := {
  archivePath : string;
  storedHash : string;
  uncompressedSize : Z;
  committed : option Z       (* the size handed to BaseInput.Commit *)
}.

Definition open (fs : FileSystem) (path : string) : Go.result string :=
  match fs path with
  | Some contents => Go.Ok contents
  | None => Go.Err (Go.ErrNotExist path)
  end.

(** In the two readers below [scanner.Err()] is nil when [Scan] returns
    false: the model has no read errors and no over-long tokens, so the
    error is [io.ErrUnexpectedEOF]. *)
Definition getStoredHash (fs : FileSystem) (input : graderBaseInput)
  : Go.result string :=
  hashFd <- open fs (archivePath input ++ ".sha1") ;;
  let scanner := bufio.NewScanner hashFd bufio.ScanWords in
  match bufio.Scan scanner with
  | (false, _) => Go.Err Go.ErrUnexpectedEOF
  | (true, scanner') => Go.Ok (bufio.Text scanner')
  end.

Definition getStoredLength (fs : FileSystem) (input : graderBaseInput)
  : Go.result Z :=
  lenFd <- open fs (archivePath input ++ ".len") ;;
  let scanner := bufio.NewScanner lenFd bufio.ScanLines in
  match bufio.Scan scanner with
  | (false, _) => Go.Err Go.ErrUnexpectedEOF
  | (true, scanner') => strconv.ParseInt (bufio.Text scanner')
  end.

(** [os.Stat(path)] and [stat.Size()]. *)
Definition statSize (fs : FileSystem) (path : string) : Go.result Z :=
  contents <- open fs path ;;
  Go.Ok (Z.of_nat (String.length contents)).

(** [common.Sha1sum(path)] *)
Definition Sha1sum (fs : FileSystem) (path : string) : Go.result (list Z) :=
  contents <- open fs path ;;
  Go.Ok (sha1.Sum contents).

(** [Verify]: the error, or the input as the method leaves it. *)
Definition Verify (fs : FileSystem) (input : graderBaseInput)
  : Go.result graderBaseInput :=
  size <- statSize fs (archivePath input) ;;
  hash <- Sha1sum fs (archivePath input) ;;
  storedHash' <- getStoredHash fs input ;;
  if negb (String.eqb storedHash' (fmt.hex hash))
  then Go.Err (Go.ErrorString "Hash verification failed")
  else
    uncompressedSize' <- getStoredLength fs input ;;
    Go.Ok {| archivePath := archivePath input;
             storedHash := storedHash';
             uncompressedSize := uncompressedSize';
             committed := Some size |}.

(** A cache directory with one archive (the gzip stream of an empty
    input), its .sha1 sidecar as Persist writes it, and a .len sidecar
    with the contents [lenSidecar]. *)
Definition exampleArchive : string :=
  string_of_list_ascii
    (map ascii_of_nat
         [31; 139; 8; 0; 0; 0; 0; 0; 0; 3; 3; 0; 0; 0; 0; 0; 0; 0; 0; 0]%nat).

Definition exampleInput : graderBaseInput :=
  {| archivePath := "cache/ab/cdef.tar.gz";
     storedHash := EmptyString;
     uncompressedSize := 0;
     committed := None |}.

Definition exampleCache (lenSidecar : string) : FileSystem :=
  fun path =>
    if String.eqb path "cache/ab/cdef.tar.gz" then Some exampleArchive
    else if String.eqb path "cache/ab/cdef.tar.gz.sha1"
    then Some (fmt.hex (sha1.Sum exampleArchive) ++ " *cdef.tar.gz" ++ Go.newline)
    else if String.eqb path "cache/ab/cdef.tar.gz.len" then Some lenSidecar
    else None.

(** *** Settings, as this version of the archive builder has them *)

Module CaseSettings.
Record t : Type := mk {
  Name : string;
  Weight : float64
}.
End CaseSettings.

Module GroupSettings.
Record t : Type := mk {
  Cases : list CaseSettings.t;
  Name : string;
  Weight : float64
}.
End GroupSettings.

Module ValidatorSettings.
Record t : Type := mk {
  Name : string;
  Tolerance : option float64;      (* *float64 *)
  Lang : option string             (* *string *)
}.
End ValidatorSettings.

(** The descriptor the interactive generator prints, as decoded JSON;
    its contents play no part here. *)
Definition InteractiveSettings : Type := string.

Module ProblemSettings.
Record t : Type := mk {
  Cases : list GroupSettings.t;
  Validator : ValidatorSettings.t;
  Interactive : option InteractiveSettings
}.
End ProblemSettings.

(** Lines 243-246. *)
Definition defaultTolerance : float64 := ofRatio 1 1000000.   (* 1e-6 *)

Definition setTolerance (settings : ProblemSettings.t) : ProblemSettings.t :=
  let v := ProblemSettings.Validator settings in
  if String.eqb (ValidatorSettings.Name v) "token-numeric"
  then ProblemSettings.mk
         (ProblemSettings.Cases settings)
         (ValidatorSettings.mk (ValidatorSettings.Name v)
                               (Some defaultTolerance)
                               (ValidatorSettings.Lang v))
         (ProblemSettings.Interactive settings)
  else settings.

(** What the walk over the tree (lines 282-442) leaves behind. *)
Record walked : Type := {
  walkErr : option Go.error;
  walkedSize : Z;                                  (* uncompressedSize *)
  rawCaseWeights : list (string * float64);        (* in iteration order *)
  libinteractiveIdlContents : option string;
  libinteractiveModuleName : string;
  libinteractiveParentLang : string;
  validatorLang : option string     (* set when validator.<ext> is met *)
}.

(** [strings.SplitN(caseName, ".", 2)[0]] *)
Fixpoint groupNameOf (caseName : string) : string :=
  match caseName with
  | EmptyString => EmptyString
  | String c rest =>
      if Ascii.eqb c "."%char then EmptyString
      else String c (groupNameOf rest)
  end.

(** Go maps with string keys, as association lists. *)
Fixpoint mapGet {V} (m : list (string * V)) (k : string) : option V :=
  match m with
  | [] => None
  | (k', v) :: m' => if String.eqb k' k then Some v else mapGet m' k
  end.

Fixpoint mapSet {V} (k : string) (v : V) (m : list (string * V))
  : list (string * V) :=
  match m with
  | [] => [(k, v)]
  | (k', v') :: m' =>
      if String.eqb k' k then (k, v) :: m' else (k', v') :: mapSet k v m'
  end.

(** Lines 447-450: [totalWeight], summed in the order in which the map
    is ranged over. *)
Definition totalWeight (raw : list (string * float64)) : float64 :=
  fold_left (fun acc kv => add acc (snd kv)) raw zero.

(** Lines 451-465: one iteration, on the maps [cases] and
    [groupWeights]. *)
Definition addCase (total : float64)
                   (st : list (string * list CaseSettings.t)
                         * list (string * float64))
                   (kv : string * float64)
  : list (string * list CaseSettings.t) * list (string * float64) :=
  let '(cases, groupWeights) := st in
  let '(caseName, weight) := kv in
  let groupName := groupNameOf caseName in
  let old := match mapGet groupWeights groupName with
             | Some w => w
             | None => zero
             end in
  let groupWeights' := mapSet groupName (add old (div weight total)) groupWeights in
  let oldCases := match mapGet cases groupName with
                  | Some cs => cs
                  | None => []
                  end in
  let cases' :=
    mapSet groupName
           (oldCases ++ [CaseSettings.mk caseName (div weight total)])%list
           cases in
  (cases', groupWeights').

(** [sort.Sort] by name, as an insertion sort; the names sorted here are
    the keys of a map, hence distinct, so the order of the outcome does
    not depend on the sorting algorithm. *)
Fixpoint insertBy {A} (key : A -> string) (x : A) (l : list A) : list A :=
  match l with
  | [] => [x]
  | y :: l' =>
      if String.ltb (key y) (key x) then y :: insertBy key x l'
      else x :: l
  end.

Definition sortBy {A} (key : A -> string) (l : list A) : list A :=
  fold_right (insertBy key) [] l.

(** Lines 444-475: [settings.Cases].  [rangeTotal] and [rangeCases] are
    the contents of [rawCaseWeights] in the orders of the two loops that
    range over it. *)
Definition buildCases (rangeTotal rangeCases : list (string * float64))
  : list GroupSettings.t :=
  let total := totalWeight rangeTotal in
  let '(cases, groupWeights) := fold_left (addCase total) rangeCases ([], []) in
  sortBy GroupSettings.Name
    (map (fun entry =>
            GroupSettings.mk
              (sortBy CaseSettings.Name (snd entry))
              (fst entry)
              (match mapGet groupWeights (fst entry) with
               | Some w => w
               | None => zero
               end))
         cases).

(** The float64 sum of the group weights, in the order of
    [settings.Cases]. *)
Definition groupWeightSum (cases : list GroupSettings.t) : float64 :=
  fold_left (fun acc group => add acc (GroupSettings.Weight group)) cases zero.

(** The exact sum of the normalised case weights; [None] when one of them
    is not a finite number. *)
Definition exactWeightSum (cases : list GroupSettings.t) : option Q :=
  fold_left
    (fun acc caseData =>
       match acc, toQ (CaseSettings.Weight caseData) with
       | Some q, Some w => Some (Qred (q + w))
       | _, _ => None
       end)
    (flat_map GroupSettings.Cases cases) (Some 0%Q).

(** Ten cases of one group, none of them in a testplan: the walk gives
    each the weight 1.0. *)
Definition tenEqualCases : list (string * float64) :=
  map (fun n => ("g." ++ n, one))
      ["0"; "1"; "2"; "3"; "4"; "5"; "6"; "7"; "8"; "9"].

(** Settings for the validator token-numeric that come with a tolerance
    of 1e-3, and a walk over a tree with the one case [a]. *)
Definition settingsWithTolerance : ProblemSettings.t :=
  ProblemSettings.mk
    []
    (ValidatorSettings.mk "token-numeric" (Some (ofRatio 1 1000)) None)
    None.

Definition walkOfOneCase : walked :=
  {| walkErr := None;
     walkedSize := 4;
     rawCaseWeights := [("a", one)];
     libinteractiveIdlContents := None;
     libinteractiveModuleName := EmptyString;
     libinteractiveParentLang := EmptyString;
     validatorLang := None |}.

(** [CreateArchiveFromGit], from
    - [loaded], what [loader.Load(problemName)] returns;
    - [opened], the first error met while opening the repository, the
      tree, the object database and the archive file, if any;
    - [walk], what the walk over the tree leaves behind, and
      [rangeCases], its [rawCaseWeights] in the order of the second loop
      over it;
    - [described], what [getLibinteractiveSettings] returns when it is
      called;
    - [marshaled], what [json.MarshalIndent] returns for the settings;
    - [written], the error of writing settings.json to the archive, if
      any.
    The result is the pair of the settings and the uncompressed size. *)
Definition CreateArchiveFromGit
           (loaded : Go.result ProblemSettings.t)
           (opened : option Go.error)
           (walk : walked)
           (rangeCases : list (string * float64))
           (described : Go.result InteractiveSettings)
           (marshaled : Go.result string)
           (written : option Go.error)
  : Go.result (ProblemSettings.t * Z) :=
  settings <- loaded ;;
  let settings := setTolerance settings in
  match opened with
  | Some err => Go.Err err
  | None =>
  match walkErr walk with
  | Some err => Go.Err err
  | None =>
      let validator := ProblemSettings.Validator settings in
      let validator :=
        match validatorLang walk with
        | Some lang =>
            ValidatorSettings.mk (ValidatorSettings.Name validator)
                                 (ValidatorSettings.Tolerance validator)
                                 (Some lang)
        | None => validator
        end in
      let cases := buildCases (rawCaseWeights walk) rangeCases in
      interactive <-
        match libinteractiveIdlContents walk with
        | Some idl =>
            if negb (String.eqb (libinteractiveParentLang walk) EmptyString)
            then i <- described ;; Go.Ok (Some i)
            else Go.Ok (ProblemSettings.Interactive settings)
        | None => Go.Ok (ProblemSettings.Interactive settings)
        end ;;
      let settings := ProblemSettings.mk cases validator interactive in
      settingsBlob <- marshaled ;;
      match written with
      | Some err => Go.Err err
      | None =>
          Go.Ok (settings,
                 walkedSize walk + Z.of_nat (String.length settingsBlob))
      end
  end
  end.

End v1compat.

(** ** cmd/omegaup-grader/frontend_handler.go *)

Module frontend.

Import Float64.





                                     (* handed to broadcast; return nil *)



End frontend.

(** ** Helpers for statements about texts *)

Module strings.

(** Whether every byte of [s] satisfies [p]. *)
Fixpoint allBytes (p : ascii -> bool) (s : string) : bool :=
  match s with
  | EmptyString => true
  | String c s' => andb (p c) (allBytes p s')
  end.



(** [strings.HasSuffix] *)
Definition HasSuffix (s suffix : string) : bool :=
  andb (String.length suffix <=? String.length s)%nat
       (String.eqb (Go.drop (String.length s - String.length suffix) s) suffix).

(** [strings.HasPrefix] *)
Definition HasPrefix (s prefix : string) : bool := String.prefix prefix s.

(** [strings.LastIndex(s, substr)]: the index of the last instance of
    [substr] in [s], or -1.  [lastIndexFrom] scans [s] from offset [i]. *)
Fixpoint lastIndexFrom (substr s : string) (i : Z) : Z :=
  match s with
  | EmptyString => if String.prefix substr EmptyString then i else -1
  | String _ s' =>
      let later := lastIndexFrom substr s' (i + 1) in
      if 0 <=? later then later
      else if String.prefix substr s then i else -1
  end.

Definition LastIndex (s substr : string) : Z := lastIndexFrom substr s 0.

(** [strings.Contains] *)
Fixpoint Contains (s substr : string) : bool :=
  orb (String.prefix substr s)
      match s with
      | EmptyString => false
      | String _ s' => Contains s' substr
      end.

End strings.

(** ** runner/runner.go: output-only submissions *)

Module outputonly.

Record outputOnlyFile : Type := {
  contents : string;
  ole : bool
}.

(** An entry of the ZIP archive: the name and the uncompressed size of its
    header, and [opened], what [f.Open()] followed by [io.Copy] gives:
    the contents, or the error of either call. *)
Record zipFile : Type := {
  Name : string;
  UncompressedSize64 : Z;             (* uint64 *)
  opened : Go.result string
}.

(** The keys of [expectedFileNames], in declaration order. *)
Definition expectedFileNames (cases : list GroupSettings.t) : list string :=
  flat_map (fun groupSettings =>
              map (fun caseSettings => CaseSettings.Name caseSettings ++ ".out")
                  (GroupSettings.Cases groupSettings))
           cases.

(** Lines 331-334: the name without its intermediate directories. *)
Definition baseName (name : string) : string :=
  let idx := strings.LastIndex name "/" in
  if negb (idx =? -1) then Go.drop (Z.to_nat (idx + 1)) name else name.

(** [uint64(x)] of an int64. *)
Definition uint64 (x : Z) : Z := x mod 2 ^ 64.

(** One iteration of [for _, f := range z.File]. *)
Definition addFile (expected : list string) (outputLimit : Z)
                   (result : list (string * outputOnlyFile)) (f : zipFile)
  : list (string * outputOnlyFile) :=
  if negb (strings.HasSuffix (Name f) ".out") then result
  else
    let fileName := baseName (Name f) in
    if negb (existsb (String.eqb fileName) expected) then result
    else if uint64 outputLimit <? UncompressedSize64 f
    then Grade.mapSet fileName {| contents := EmptyString; ole := true |} result
    else match opened f with
         | Go.Err _ => result
         | Go.Ok text =>
             Grade.mapSet fileName {| contents := text; ole := false |} result
         end.

(** [parseOutputOnlyFile], from [data], the submission;
    [decoded], [None] when [data] is not a data URL and otherwise what
    [zip.NewReader] gives for the decoded data, the entries of the archive
    or an error; the cases of the settings and [settings.Limits.OutputLimit]. *)
Definition parseOutputOnlyFile (data : string)
                               (decoded : option (Go.result (list zipFile)))
                               (cases : list GroupSettings.t)
                               (outputLimit : Z)
  : list (string * outputOnlyFile) * option Go.error :=
  match decoded with
  | None => ([("Main.out", {| contents := data; ole := false |})], None)
  | Some (Go.Err err) => ([], Some err)
  | Some (Go.Ok files) =>
      (fold_left (addFile (expectedFileNames cases) outputLimit) files [],
       None)
  end.

(** [m[k]] on a map kept as an association list. *)
Fixpoint mapGet {V} (m : list (string * V)) (k : string) : option V :=
  match m with
  | [] => None
  | (k', v) :: m' => if String.eqb k' k then Some v else mapGet m' k
  end.

(** What the loop over the archive keeps of the result: every key is an
    expected file name, and an entry marked as over the limit is empty. *)
Definition wellFormed (expected : list string)
                      (result : list (string * outputOnlyFile)) : Prop :=
  forall k v, In (k, v) result ->
              In k expected /\ (ole v = true -> contents v = EmptyString).

End outputonly.

(** ** runner/runner.go: the run loop and the validation loop of Grade *)

Module CaseResult.
Record t : Type := mk {
  Name : string;
  Verdict : string;
  Score : Rat.Rat;
  ContestScore : Rat.Rat;
  MaxScore : Rat.Rat;
  Meta : RunMetadata.t;
  IndividualMeta : list (string * RunMetadata.t)
}.
End CaseResult.

Module GroupResult.
Record t : Type := mk {
  Group : string;
  Score : Rat.Rat;
  ContestScore : Rat.Rat;
  MaxScore : Rat.Rat;
  Cases : list CaseResult.t
}.
End GroupResult.

Module GradeLoops.

Import runner Grade.

Section Loops.

(** common.VerdictList *)
Variable VerdictList : list string.
(** [len(binaries)] before the validator is appended *)
Variable regularBinaryCount : Z.
(** [settings.Limits.OverallWallTimeLimit.Seconds()] *)
Variable overallWallTimeLimit : Float64.float64.
(** [run.Language] *)
Variable language : string.
Variable outputOnlyFiles : list (string * outputonly.outputOnlyFile).
(** What [metaChan] delivers for a case, in the order of arrival. *)
Variable arrivals : string -> list intermediateRunResult.
Variable totalWeightFactor : Rat.Rat.
(** The method [Weight()] of a group of the settings. *)
Variable groupWeight : GroupSettings.t -> Rat.Rat.

(** *** The run loop (lines 796-1071) *)

(** Lines 802-1039: [runMeta], [individualMeta] and [generatedFiles] of
    one case.  [None] is a panic of [worseVerdict]. *)
Definition execute (runResult : RunResult.t) (generatedFiles : list string)
                   (caseData : CaseSettings.t)
  : option (RunMetadata.t * list (string * RunMetadata.t) * list string) :=
  if Float64.ltb overallWallTimeLimit (RunResult.WallTime runResult)
  then Some (RunMetadata.ofVerdict "TLE", [], generatedFiles)
  else if String.eqb language "cat"
  then
    let outName := CaseSettings.Name caseData ++ ".out" in
    let errName := CaseSettings.Name caseData ++ ".err" in
    let metaName := CaseSettings.Name caseData ++ ".meta" in
    let runMeta :=
      match outputonly.mapGet outputOnlyFiles outName with
      | Some file =>
          if outputonly.ole file then RunMetadata.ofVerdict "OLE"
          else RunMetadata.ofVerdict "OK"
      | None => RunMetadata.ofVerdict "RTE"
      end in
    Some (runMeta, [], (generatedFiles ++ [outName; errName; metaName])%list)
  else
    match collect VerdictList regularBinaryCount (collectInit generatedFiles)
                  (arrivals (CaseSettings.Name caseData)) with
    | None => None
    | Some st => Some (reconcile st, individualMeta st, allGeneratedFiles st)
    end.

(** The body of the inner loop: the run result, the generated files and
    [caseResults[j]]. *)
Definition runCase (runResult : RunResult.t) (generatedFiles : list string)
                   (caseData : CaseSettings.t)
  : option (RunResult.t * list string * CaseResult.t) :=
  match execute runResult generatedFiles caseData with
  | None => None
  | Some (runMeta, individual, generatedFiles') =>
      match worseVerdict VerdictList (RunResult.Verdict runResult)
                         (RunMetadata.Verdict runMeta) with
      | None => None
      | Some verdict =>
          Some (RunResult.mk
                  verdict
                  (RunResult.Score runResult)
                  (RunResult.ContestScore runResult)
                  (RunResult.MaxScore runResult)
                  (Float64.add (RunResult.Time runResult)
                               (RunMetadata.Time runMeta))
                  (Float64.add (RunResult.WallTime runResult)
                               (RunMetadata.WallTime runMeta))
                  (MaxBytes (RunResult.Memory runResult)
                            (RunMetadata.Memory runMeta)),
                generatedFiles',
                CaseResult.mk
                  (CaseSettings.Name caseData)
                  (RunMetadata.Verdict runMeta)
                  Rat.zero
                  Rat.zero
                  (caseMaxScore (RunResult.MaxScore runResult) caseData
                                totalWeightFactor)
                  runMeta
                  individual)
      end
  end.

Fixpoint runCases (runResult : RunResult.t) (generatedFiles : list string)
                  (cases : list CaseSettings.t)
  : option (RunResult.t * list string * list CaseResult.t) :=
  match cases with
  | [] => Some (runResult, generatedFiles, [])
  | caseData :: cases' =>
      match runCase runResult generatedFiles caseData with
      | None => None
      | Some (runResult', generatedFiles', caseResult) =>
          match runCases runResult' generatedFiles' cases' with
          | None => None
          | Some (runResult'', generatedFiles'', caseResults) =>
              Some (runResult'', generatedFiles'', caseResult :: caseResults)
          end
      end
  end.

Fixpoint runGroups (runResult : RunResult.t) (generatedFiles : list string)
                   (groups : list GroupSettings.t)
  : option (RunResult.t * list string * list GroupResult.t) :=
  match groups with
  | [] => Some (runResult, generatedFiles, [])
  | group :: groups' =>
      match runCases runResult generatedFiles (GroupSettings.Cases group) with
      | None => None
      | Some (runResult', generatedFiles', caseResults) =>
          let groupResult :=
            GroupResult.mk
              (GroupSettings.Name group)
              Rat.zero
              Rat.zero
              (Rat.Mul (RunResult.MaxScore runResult)
                       (Rat.Mul (groupWeight group) totalWeightFactor))
              caseResults in
          match runGroups runResult' generatedFiles' groups' with
          | None => None
          | Some (runResult'', generatedFiles'', groupResults) =>
              Some (runResult'', generatedFiles'', groupResult :: groupResults)
          end
      end
  end.

(** Lines 796-1071: [runResult.Verdict = "OK"], then the two loops. *)
Definition runLoop (runResult : RunResult.t) (generatedFiles : list string)
                   (groups : list GroupSettings.t)
  : option (RunResult.t * list string * list GroupResult.t) :=
  runGroups (RunResult.mk "OK"
                          (RunResult.Score runResult)
                          (RunResult.ContestScore runResult)
                          (RunResult.MaxScore runResult)
                          (RunResult.Time runResult)
                          (RunResult.WallTime runResult)
                          (RunResult.Memory runResult))
            generatedFiles groups.

(** *** The validation loop (lines 1074-1222) *)

(** What the validation of one case meets: the metadata of the run of the
    custom validator, whether the contestant's and the expected output
    could both be opened, and the score that CalculateScore returns. *)
Record validation : Type := {
  validateMeta : RunMetadata.t;
  opened : bool;
  runScore : Rat.Rat
}.

(** [settings.Validator.Name] *)
Variable validatorName : string.
Variable validated : string -> validation.
(** [runResult.MaxScore], which the loop does not change *)
Variable maxScore : Rat.Rat.

(** The variables that the loop over the cases of a group updates:
    [runResult.Verdict], [score], [correct] and [generatedFiles]. *)
Definition groupState : Type := (string * Rat.Rat * bool * list string)%type.

(** The body of the loop over the cases of a group, on [caseResults], the
    entry of the case in [groupResults[i].Cases]. *)
Definition validateCase (st : groupState) (caseData : CaseSettings.t)
                        (caseResults : CaseResult.t)
  : option (groupState * CaseResult.t) :=
  let '(verdict, score, correct, generatedFiles) := st in
  if negb (String.eqb (CaseResult.Verdict caseResults) "OK")
  then Some ((verdict, score, false, generatedFiles), caseResults)
  else
    let name := CaseSettings.Name caseData in
    let v := validated name in
    let custom := String.eqb validatorName "custom" in
    let individual :=
      if custom
      then mapSet "validator" (validateMeta v)
                  (CaseResult.IndividualMeta caseResults)
      else CaseResult.IndividualMeta caseResults in
    let generatedFiles' :=
      if custom
      then (generatedFiles ++ [("validator/" ++ name ++ ".out")%string;
                               ("validator/" ++ name ++ ".err")%string;
                               ("validator/" ++ name ++ ".meta")%string])%list
      else generatedFiles in
    if negb (opened v)
    then (* continue *)
      Some ((verdict, score, correct, generatedFiles'),
            CaseResult.mk (CaseResult.Name caseResults)
                          (CaseResult.Verdict caseResults)
                          (CaseResult.Score caseResults)
                          (CaseResult.ContestScore caseResults)
                          (CaseResult.MaxScore caseResults)
                          (CaseResult.Meta caseResults)
                          individual)
    else
      let weight := caseWeight caseData totalWeightFactor in
      let caseScore := Rat.Add (CaseResult.Score caseResults) (runScore v) in
      let contestScore := Rat.Mul (Rat.Mul maxScore weight) caseScore in
      let score' := Rat.Add score (Rat.Mul (runScore v) weight) in
      let result verdict' :=
        CaseResult.mk (CaseResult.Name caseResults)
                      verdict'
                      caseScore
                      contestScore
                      (CaseResult.MaxScore caseResults)
                      (CaseResult.Meta caseResults)
                      individual in
      if Rat.Cmp (runScore v) Rat.one =? 0
      then Some ((verdict, score', correct, generatedFiles'), result "AC")
      else
        match worseVerdict VerdictList verdict "PA" with
        | None => None
        | Some verdict' =>
            if Rat.Cmp (runScore v) Rat.zero =? 0
            then Some ((verdict', score', false, generatedFiles'), result "WA")
            else Some ((verdict', score', correct, generatedFiles'), result "PA")
        end.

(** The loop over the cases of a group; [None] is a panic, of
    [worseVerdict] or of the access to a case result that is not there. *)
Fixpoint validateCases (st : groupState) (cases : list CaseSettings.t)
                       (caseResults : list CaseResult.t)
  : option (groupState * list CaseResult.t) :=
  match cases with
  | [] => Some (st, caseResults)
  | caseData :: cases' =>
      match caseResults with
      | [] => None
      | r :: rs =>
          match validateCase st caseData r with
          | None => None
          | Some (st', r') =>
              match validateCases st' cases' rs with
              | None => None
              | Some (st'', rs') => Some (st'', r' :: rs')
              end
          end
      end
  end.

(** The variables that the loop over the groups updates:
    [runResult.Verdict], [runResult.Score] and [generatedFiles]. *)
Definition runState : Type := (string * Rat.Rat * list string)%type.

(** The body of the loop over the groups. *)
Definition validateGroup (st : runState) (group : GroupSettings.t)
                         (groupResult : GroupResult.t)
  : option (runState * GroupResult.t) :=
  let '(verdict, runScoreSum, generatedFiles) := st in
  match validateCases (verdict, Rat.zero, true, generatedFiles)
                      (GroupSettings.Cases group)
                      (GroupResult.Cases groupResult) with
  | None => None
  | Some ((verdict', score, correct, generatedFiles'), caseResults) =>
      if correct
      then Some ((verdict', Rat.Add runScoreSum score, generatedFiles'),
                 GroupResult.mk (GroupResult.Group groupResult)
                                (Rat.Add (GroupResult.Score groupResult) score)
                                (Rat.Mul maxScore score)
                                (GroupResult.MaxScore groupResult)
                                caseResults)
      else Some ((verdict', runScoreSum, generatedFiles'),
                 GroupResult.mk (GroupResult.Group groupResult)
                                (GroupResult.Score groupResult)
                                (GroupResult.ContestScore groupResult)
                                (GroupResult.MaxScore groupResult)
                                caseResults)
  end.

Fixpoint validateGroups (st : runState) (groups : list GroupSettings.t)
                        (groupResults : list GroupResult.t)
  : option (runState * list GroupResult.t) :=
  match groups with
  | [] => Some (st, groupResults)
  | group :: groups' =>
      match groupResults with
      | [] => None
      | g :: gs =>
          match validateGroup st group g with
          | None => None
          | Some (st', g') =>
              match validateGroups st' groups' gs with
              | None => None
              | Some (st'', gs') => Some (st'', g' :: gs')
              end
          end
      end
  end.

End Loops.

(** Lines 1074-1235: the validation loop on the results of the run loop,
    and the end of Grade.  The result is the final run result with its
    groups and the generated files. *)
Definition validateAndFinish
           (VerdictList : list string) (totalWeightFactor : Rat.Rat)
           (validatorName : string) (validated : string -> validation)
           (runResult : RunResult.t) (generatedFiles : list string)
           (groups : list GroupSettings.t) (groupResults : list GroupResult.t)
  : option (RunResult.t * list GroupResult.t * list string) :=
  match validateGroups VerdictList totalWeightFactor validatorName validated
                       (RunResult.MaxScore runResult)
                       (RunResult.Verdict runResult,
                        RunResult.Score runResult, generatedFiles)
                       groups groupResults with
  | None => None
  | Some ((verdict, score, generatedFiles'), groupResults') =>
      Some (finish (RunResult.mk verdict score
                                 (RunResult.ContestScore runResult)
                                 (RunResult.MaxScore runResult)
                                 (RunResult.Time runResult)
                                 (RunResult.WallTime runResult)
                                 (RunResult.Memory runResult)),
            groupResults', generatedFiles')
  end.

(** [NewRunResult] (lines 156-163). *)
Definition NewRunResult (verdict : string) (maxScore : Rat.Rat) : RunResult.t :=
  RunResult.mk verdict Rat.zero Rat.zero maxScore Float64.zero Float64.zero 0.

(** Lines 796-1235: the run loop, then the validation loop and the end of
    Grade on what the run loop leaves. *)
Definition runAndValidate
           (VerdictList : list string) (regularBinaryCount : Z)
           (overallWallTimeLimit : Float64.float64) (language : string)
           (outputOnlyFiles : list (string * outputonly.outputOnlyFile))
           (arrivals : string -> list intermediateRunResult)
           (totalWeightFactor : Rat.Rat)
           (groupWeight : GroupSettings.t -> Rat.Rat)
           (validatorName : string) (validated : string -> validation)
           (runResult : RunResult.t) (generatedFiles : list string)
           (groups : list GroupSettings.t)
  : option (RunResult.t * list GroupResult.t * list string) :=
  match runLoop VerdictList regularBinaryCount overallWallTimeLimit language
                outputOnlyFiles arrivals totalWeightFactor groupWeight
                runResult generatedFiles groups with
  | None => None
  | Some (runResult', generatedFiles', groupResults) =>
      validateAndFinish VerdictList totalWeightFactor validatorName validated
                        runResult' generatedFiles' groups groupResults
  end.

(** The sum of the scores of the groups. *)
Definition groupScoreSum (groupResults : list GroupResult.t) : Rat.Rat :=
  fold_right (fun g acc => Rat.Add (GroupResult.Score g) acc) Rat.zero
             groupResults.

(** The sum of the maximal scores of all cases. *)
Definition caseMaxScoreSum (groupResults : list GroupResult.t) : Rat.Rat :=
  fold_right
    (fun g acc =>
       Rat.Add (fold_right (fun c acc' => Rat.Add (CaseResult.MaxScore c) acc')
                           Rat.zero (GroupResult.Cases g))
               acc)
    Rat.zero groupResults.

End GradeLoops.

(** ** Library functions that Persist and Transmit call *)

Module path.

(** The loop of [path.Base] that strips the trailing slashes. *)
Fixpoint stripSlashes (p : string) : string :=
  match p with
  | EmptyString => EmptyString
  | String c p' =>
      match stripSlashes p' with
      | EmptyString =>
          if Ascii.eqb c "/"%char then EmptyString else String c EmptyString
      | rest => String c rest
      end
  end.

(** [path.Base]: the last element of the path. *)
Definition Base (p : string) : string :=
  if String.eqb p EmptyString then "."
  else
    let p := stripSlashes p in
    let i := strings.LastIndex p "/" in
    let p := if 0 <=? i then Go.drop (Z.to_nat (i + 1)) p else p in
    if String.eqb p EmptyString then "/" else p.

End path.

(** ** grader/v1compat/input.go: Persist, Delete and Transmit *)

Module graderInput.

Import v1compat.

(** The cache directory is a map from paths to contents: it has no
    directories, and creating, writing, renaming and removing a file do
    not fail except where a file that is needed does not exist. *)

(** [os.Create(path)] followed by writing [contents]. *)
Definition writeFile (fs : FileSystem) (path contents : string) : FileSystem :=
  fun p => if String.eqb p path then Some contents else fs p.

(** [os.Remove(path)]: the directory without the file, and the error when
    there is no such file. *)
Definition remove (fs : FileSystem) (path : string)
  : FileSystem * option Go.error :=
  (fun p => if String.eqb p path then None else fs p,
   match fs path with
   | Some _ => None
   | None => Some (Go.ErrNotExist path)
   end).

(** [os.Rename(oldpath, newpath)] *)
Definition rename (fs : FileSystem) (oldpath newpath : string)
  : Go.result FileSystem :=
  match fs oldpath with
  | None => Go.Err (Go.ErrNotExist oldpath)
  | Some contents =>
      Go.Ok (fun p => if String.eqb p newpath then Some contents
                      else if String.eqb p oldpath then None
                      else fs p)
  end.

(** [Persist], from the cache directory, the input, and the two things
    that [CreateArchiveFromGit] leaves: [archive], the contents of the
    temporary file, if it was created, and [created], the settings and the
    uncompressed size that it returns, or its error.  The result is the
    cache directory after the deferred [os.Remove(tmpPath)], and the
    error, or the input and the settings as the method leaves them. *)
Definition Persist (fs : FileSystem) (input : graderBaseInput)
                   (archive : option string)
                   (created : Go.result (ProblemSettings.t * Z))
  : FileSystem * Go.result (graderBaseInput * ProblemSettings.t) :=
  let tmpPath := archivePath input ++ ".tmp" in
  let fs := match archive with
            | Some contents => writeFile fs tmpPath contents
            | None => fs
            end in
  match created with
  | Go.Err err => (fst (remove fs tmpPath), Go.Err err)
  | Go.Ok (settings, uncompressedSize') =>
      match statSize fs tmpPath with
      | Go.Err err => (fst (remove fs tmpPath), Go.Err err)
      | Go.Ok size =>
          match Sha1sum fs tmpPath with
          | Go.Err err => (fst (remove fs tmpPath), Go.Err err)
          | Go.Ok hash =>
              let fs :=
                writeFile fs (archivePath input ++ ".sha1")
                          (fmt.hex hash ++ " *" ++ path.Base (archivePath input)
                           ++ Go.newline) in
              let fs :=
                writeFile fs (archivePath input ++ ".len")
                          (strconv.FormatInt uncompressedSize' ++ Go.newline) in
              match rename fs tmpPath (archivePath input) with
              | Go.Err err => (fst (remove fs tmpPath), Go.Err err)
              | Go.Ok fs =>
                  (fst (remove fs tmpPath),
                   Go.Ok ({| archivePath := archivePath input;
                             storedHash := fmt.hex hash;
                             uncompressedSize := uncompressedSize';
                             committed := Some size |},
                          settings))
              end
          end
      end
  end.

(** [Delete]: the cache directory after the four calls of [os.Remove],
    and the error of the last one. *)
Definition Delete (fs : FileSystem) (input : graderBaseInput)
  : FileSystem * option Go.error :=
  let fs := fst (remove fs (archivePath input ++ ".tmp")) in
  let fs := fst (remove fs (archivePath input ++ ".sha1")) in
  let fs := fst (remove fs (archivePath input ++ ".len")) in
  remove fs (archivePath input).

(** What [Transmit] writes to the [http.ResponseWriter]. *)
Record response : Type := {
  ContentType : string;
  ContentSHA1 : string;
  XContentUncompressedSize : string;
  status : Z;
  body : string
}.

(** [Transmit]; the copy of the file to the response does not fail. *)
Definition Transmit (fs : FileSystem) (input : graderBaseInput)
  : Go.result response :=
  fd <- open fs (archivePath input) ;;
  Go.Ok {| ContentType := "application/x-gzip";
           ContentSHA1 := storedHash input;
           XContentUncompressedSize :=
             strconv.FormatInt (uncompressedSize input);
           status := 200;
           body := fd |}.

End graderInput.

(* ================================================================== *)
(** * Part II: properties                                              *)
(* ================================================================== *)

(** ** Verdict merging *)

Section SliceIndex.

Import runner.

Lemma sliceIndexFrom_spec (p : Z -> bool) :
  forall n i,
    (sliceIndexFrom n i p = -1 /\
     forall j, i <= j < i + Z.of_nat n -> p j = false)
    \/ (i <= sliceIndexFrom n i p < i + Z.of_nat n /\
        p (sliceIndexFrom n i p) = true /\
        forall j, i <= j < sliceIndexFrom n i p -> p j = false).
Proof.
  induction n as [|n IH]; intros i; simpl.
  - left. split; [reflexivity | intros j Hj; lia].
  - destruct (p i) eqn:Hp.
    + right. split; [lia|]. split; [assumption|]. intros j Hj; lia.
    + destruct (IH (i + 1)) as [[E H] | [R [T H]]].
      * left. split; [assumption|].
        intros j Hj. destruct (Z.eq_dec j i) as [->|]; [assumption|].
        apply H; lia.
      * right. split; [lia|]. split; [assumption|].
        intros j Hj. destruct (Z.eq_dec j i) as [->|]; [assumption|].
        apply H; lia.
Qed.

Variable L : list string.

Lemma index_Some_In (i : Z) (v : string) : index L i = Some v -> In v L.
Proof.
  unfold index. destruct (i <? 0); [discriminate|].
  apply nth_error_In.
Qed.

Lemma index_in_range (i : Z) :
  0 <= i < len L -> exists v, index L i = Some v.
Proof.
  unfold index, len. intros H.
  destruct (Z.ltb_spec i 0); [lia|].
  destruct (nth_error L (Z.to_nat i)) eqn:E; [eauto|].
  apply nth_error_None in E. lia.
Qed.

Lemma In_index (v : string) :
  In v L -> exists i, 0 <= i < len L /\ index L i = Some v.
Proof.
  intros H. apply In_nth_error in H. destruct H as [n Hn].
  exists (Z.of_nat n). unfold index, len.
  assert (n < List.length L)%nat
    by (apply nth_error_Some; congruence).
  split; [lia|].
  destruct (Z.ltb_spec (Z.of_nat n) 0); [lia|].
  now rewrite Nat2Z.id.
Qed.

Lemma isVerdict_true (a : string) (i : Z) :
  isVerdict L a i = true <-> index L i = Some a.
Proof.
  unfold isVerdict. destruct (index L i) as [v|].
  - rewrite String.eqb_eq. split; congruence.
  - split; discriminate.
Qed.

Local Abbreviation idx := (runner.idx L).

Lemma idx_member (a : string) :
  In a L -> 0 <= idx a < len L /\ index L (idx a) = Some a.
Proof.
  intros H. unfold idx, sliceIndex.
  destruct (sliceIndexFrom_spec (isVerdict L a) (Z.to_nat (len L)) 0)
    as [[_ Hall] | [R [T _]]].
  - destruct (In_index a H) as [i [Hi Ei]].
    apply isVerdict_true in Ei. rewrite Hall in Ei; [discriminate|].
    unfold len in *. lia.
  - split; [unfold len in *; lia|]. now apply isVerdict_true.
Qed.

Lemma idx_nonmember (a : string) : ~ In a L -> idx a = -1.
Proof.
  intros H. unfold idx, sliceIndex.
  destruct (sliceIndexFrom_spec (isVerdict L a) (Z.to_nat (len L)) 0)
    as [[E _] | [_ [T _]]]; [assumption|].
  apply isVerdict_true, index_Some_In in T. contradiction.
Qed.

Lemma idx_minus_one (a : string) : idx a = -1 <-> ~ In a L.
Proof.
  split; [|apply idx_nonmember].
  intros E H. apply idx_member in H. lia.
Qed.

Lemma idx_inj (a b : string) : In a L -> In b L -> idx a = idx b -> a = b.
Proof.
  intros Ha Hb E.
  destruct (idx_member a Ha) as [_ Ea], (idx_member b Hb) as [_ Eb].
  congruence.
Qed.

Lemma worseVerdict_idx (a b : string) :
  worseVerdict L a b = index L (if idx a <? idx b then idx a else idx b).
Proof. reflexivity. Qed.

(** On members the result is the argument with the smaller index. *)
Lemma worseVerdict_members (a b : string) :
  In a L -> In b L ->
  worseVerdict L a b = Some (if idx a <? idx b then a else b).
Proof.
  intros Ha Hb. rewrite worseVerdict_idx.
  destruct (idx a <? idx b).
  - apply idx_member, Ha.
  - apply idx_member, Hb.
Qed.

Lemma worseVerdict_In (a b v : string) :
  worseVerdict L a b = Some v -> In v L.
Proof. rewrite worseVerdict_idx. apply index_Some_In. Qed.

Lemma idx_lower_bound (a : string) : -1 <= idx a.
Proof.
  destruct (in_dec string_dec a L) as [Ha|Ha].
  - apply idx_member in Ha. lia.
  - rewrite (idx_nonmember a Ha). lia.
Qed.

(** The index at which [worseVerdict] reads the list is -1 exactly when
    an argument is not in the list. *)
Lemma min_idx_minus_one (a b : string) :
  min (idx a) (idx b) = -1 <-> ~ (In a L /\ In b L).
Proof.
  pose proof (idx_lower_bound a). pose proof (idx_lower_bound b).
  pose proof (idx_minus_one a) as Ha. pose proof (idx_minus_one b) as Hb.
  unfold min. destruct (Z.ltb_spec (idx a) (idx b)); split.
  - intros E [Ia Ib]. apply Ha in E. contradiction.
  - intros N. destruct (in_dec string_dec a L) as [Ia|Ia]; [|now apply Ha].
    destruct (in_dec string_dec b L) as [Ib|Ib]; [tauto|].
    apply Hb in Ib. lia.
  - intros E [Ia Ib]. apply Hb in E. contradiction.
  - intros N. destruct (in_dec string_dec b L) as [Ib|Ib]; [|now apply Hb].
    destruct (in_dec string_dec a L) as [Ia|Ia]; [tauto|].
    apply Ha in Ia. lia.
Qed.

Lemma worseVerdict_panics (a b : string) :
  worseVerdict L a b = None <-> ~ (In a L /\ In b L).
Proof.
  split.
  - intros E [Ha Hb]. rewrite (worseVerdict_members a b Ha Hb) in E.
    discriminate.
  - intros H. apply min_idx_minus_one in H.
    unfold worseVerdict. fold (idx a). fold (idx b). rewrite H. reflexivity.
Qed.

Lemma worseVerdict_comm (a b : string) :
  In a L -> In b L -> worseVerdict L a b = worseVerdict L b a.
Proof.
  intros Ha Hb.
  rewrite (worseVerdict_members a b Ha Hb), (worseVerdict_members b a Hb Ha).
  destruct (Z.ltb_spec (idx a) (idx b)), (Z.ltb_spec (idx b) (idx a));
    try reflexivity; try lia.
  f_equal. symmetry. apply idx_inj; [assumption..|lia].
Qed.

Lemma worseVerdict_idem (a : string) :
  In a L -> worseVerdict L a a = Some a.
Proof.
  intros Ha. rewrite (worseVerdict_members a a Ha Ha).
  now destruct (idx a <? idx a).
Qed.

Lemma worseVerdict_assoc (a b c : string) :
  In a L -> In b L -> In c L ->
  andThen (worseVerdict L a b) (fun ab => worseVerdict L ab c)
  = andThen (worseVerdict L b c) (fun bc => worseVerdict L a bc).
Proof.
  intros Ha Hb Hc.
  rewrite (worseVerdict_members a b Ha Hb), (worseVerdict_members b c Hb Hc).
  simpl.
  destruct (Z.ltb_spec (idx a) (idx b)), (Z.ltb_spec (idx b) (idx c));
    rewrite ?(worseVerdict_members a c Ha Hc),
            ?(worseVerdict_members b c Hb Hc),
            ?(worseVerdict_members a b Ha Hb);
    destruct (Z.ltb_spec (idx a) (idx c));
    destruct (Z.ltb_spec (idx a) (idx b));
    destruct (Z.ltb_spec (idx b) (idx c));
    try reflexivity; try lia.
Qed.

End SliceIndex.

Section VerdictOrder.

Import runner common.

Local Abbreviation worse := (worseVerdict VerdictList).

(** In the list modelled from the specification, the index of a verdict
    mirrors its rank. *)
Lemma rank_idx (a : string) :
  In a VerdictList -> Z.of_nat (rank a) = 9 - idx VerdictList a.
Proof.
  intros H.
  repeat (destruct H as [<- | H]; [reflexivity|]).
  destruct H.
Qed.

Lemma worse_is_greater (a b : string) :
  In a VerdictList -> In b VerdictList ->
  worse a b = Some (if (rank a <=? rank b)%nat then b else a).
Proof.
  intros Ha Hb. rewrite (worseVerdict_members _ a b Ha Hb).
  pose proof (rank_idx a Ha). pose proof (rank_idx b Hb).
  destruct (Z.ltb_spec (idx VerdictList a) (idx VerdictList b)),
           (Nat.leb_spec (rank a) (rank b)); try reflexivity; lia.
Qed.

Lemma worse_monotone (a b c : string) :
  In a VerdictList -> In b VerdictList -> In c VerdictList ->
  verdict_le a b ->
  exists x y, worse a c = Some x /\ worse b c = Some y /\ verdict_le x y.
Proof.
  intros Ha Hb Hc Hle. unfold verdict_le in *.
  rewrite (worse_is_greater a c Ha Hc), (worse_is_greater b c Hb Hc).
  do 2 eexists. split; [reflexivity|]. split; [reflexivity|].
  destruct (Nat.leb_spec (rank a) (rank c)),
           (Nat.leb_spec (rank b) (rank c)); lia.
Qed.

Lemma worse_JE (a : string) : In a VerdictList -> worse a "JE" = Some "JE".
Proof.
  intros Ha.
  assert (In "JE" VerdictList) as Hj by (simpl; auto).
  rewrite (worse_is_greater a "JE" Ha Hj).
  pose proof (rank_idx a Ha).
  pose proof (idx_member VerdictList a Ha) as [Hr _].
  change (rank "JE") with 9%nat.
  destruct (Nat.leb_spec (rank a) 9); [reflexivity | lia].
Qed.

End VerdictOrder.

(** C7.  On the verdict list, [worseVerdict] is commutative, associative
    and idempotent; it returns the greater of its two arguments in the
    order AC < PA < WA < OK < TLE < MLE < OLE < RTE < CE < JE, is monotone
    along that order, and merging any verdict with JE gives JE. *)
Theorem C7_worseVerdict_laws (a b c : string) :
  In a common.VerdictList ->
  In b common.VerdictList ->
  In c common.VerdictList ->
  let worse := runner.worseVerdict common.VerdictList in
  worse a b = worse b a
  /\ runner.andThen (worse a b) (fun ab => worse ab c)
     = runner.andThen (worse b c) (fun bc => worse a bc)
  /\ worse a a = Some a
  /\ worse a b = Some (if (common.rank a <=? common.rank b)%nat then b else a)
  /\ (common.verdict_le a b ->
      exists x y, worse a c = Some x /\ worse b c = Some y
                  /\ common.verdict_le x y)
  /\ worse a "JE" = Some "JE".
Proof.
  intros Ha Hb Hc worse. subst worse.
  split; [now apply worseVerdict_comm|].
  split; [now apply worseVerdict_assoc|].
  split; [now apply worseVerdict_idem|].
  split; [now apply worse_is_greater|].
  split; [now apply worse_monotone|].
  now apply worse_JE.
Qed.

Lemma C7_worseVerdict_laws_witness :
  runner.worseVerdict common.VerdictList "PA" "TLE"
  = runner.worseVerdict common.VerdictList "TLE" "PA"
  /\ runner.worseVerdict common.VerdictList "PA" "TLE" = Some "TLE".
Proof.
  assert (In "PA" common.VerdictList) as Ha by (simpl; tauto).
  assert (In "TLE" common.VerdictList) as Hb by (simpl; tauto).
  assert (In "OK" common.VerdictList) as Hc by (simpl; tauto).
  destruct (C7_worseVerdict_laws "PA" "TLE" "OK" Ha Hb Hc)
    as [Hcomm [_ [_ [Hgreater _]]]].
  split; [exact Hcomm | exact Hgreater].
Defined.

(** C9.  [worseVerdict] is partial: for an argument that is not in the
    verdict list [sliceIndex] returns -1, the smaller index is then -1,
    and the access to the list at that index is out of range; the call
    returns exactly when both arguments are in the list.  This holds
    whatever the list is. *)
Theorem C9_worseVerdict_partial (VerdictList : list string) (a b : string) :
  (runner.sliceIndex (len VerdictList) (runner.isVerdict VerdictList a) = -1
   <-> ~ In a VerdictList)
  /\ (runner.min (runner.idx VerdictList a) (runner.idx VerdictList b) = -1
      <-> ~ (In a VerdictList /\ In b VerdictList))
  /\ (runner.worseVerdict VerdictList a b = None
      <-> ~ (In a VerdictList /\ In b VerdictList))
  /\ ((exists v, runner.worseVerdict VerdictList a b = Some v)
      <-> In a VerdictList /\ In b VerdictList).
Proof.
  split; [apply (idx_minus_one VerdictList)|].
  split; [apply min_idx_minus_one|].
  split; [apply worseVerdict_panics|].
  split.
  - intros [v E].
    destruct (in_dec string_dec a VerdictList) as [Ha|Ha];
      destruct (in_dec string_dec b VerdictList) as [Hb|Hb]; auto;
      exfalso;
      assert (runner.worseVerdict VerdictList a b = None) as N
        by (apply worseVerdict_panics; tauto);
      congruence.
  - intros [Ha Hb]. eexists. now apply worseVerdict_members.
Qed.

(** A misspelled and an empty verdict string, on the list of the
    specification. *)
Example worseVerdict_misspelled :
  runner.worseVerdict common.VerdictList "OK" "TLE " = None
  /\ runner.worseVerdict common.VerdictList EmptyString "JE" = None.
Proof. split; reflexivity. Qed.

(** ** Interactive verdict reconciliation *)

Section Reconciliation.

Import Grade.

Variable VerdictList : list string.
Variable regularBinaryCount : Z.
Hypothesis OK_listed : In "OK" VerdictList.

Lemma collectStep_contestantOK (st : collected) (r : intermediateRunResult) :
  contestantOK r -> finalVerdict st = "OK" ->
  exists st', collectStep VerdictList regularBinaryCount st r = Some st'
              /\ finalVerdict st' = "OK"
              /\ parentMetadata st' = parentMetadata st.
Proof.
  intros [Hty Hv] Hf. unfold collectStep. rewrite Hf, Hv.
  rewrite (worseVerdict_idem VerdictList "OK" OK_listed).
  destruct (binType r); [contradiction | |]; eexists; repeat split.
Qed.

Lemma collect_contestantsOK (rs : list intermediateRunResult) :
  Forall contestantOK rs ->
  forall st, finalVerdict st = "OK" ->
  exists st', collect VerdictList regularBinaryCount st rs = Some st'
              /\ finalVerdict st' = "OK"
              /\ parentMetadata st' = parentMetadata st.
Proof.
  induction 1 as [|r rs Hr _ IH]; intros st Hf; simpl.
  - eauto.
  - destruct (collectStep_contestantOK st r Hr Hf) as [st1 [E [Hf1 Hp1]]].
    rewrite E. destruct (IH st1 Hf1) as [st2 [E2 [Hf2 Hp2]]].
    exists st2. repeat split; congruence.
Qed.

Lemma collect_app (rs1 rs2 : list intermediateRunResult) :
  forall st,
    collect VerdictList regularBinaryCount st (rs1 ++ rs2)
    = match collect VerdictList regularBinaryCount st rs1 with
      | Some st' => collect VerdictList regularBinaryCount st' rs2
      | None => None
      end.
Proof.
  induction rs1 as [|r rs1 IH]; intros st; simpl; [reflexivity|].
  destruct (collectStep VerdictList regularBinaryCount st r); auto.
Qed.

(** The case verdict when every contestant is OK and the problemsetter
    is not: the verdict read off the problemsetter's metadata. *)
Lemma caseRunMeta_parent_failed
      (files : list string) (before after : list intermediateRunResult)
      (parent : intermediateRunResult) :
  Forall contestantOK before -> Forall contestantOK after ->
  binType parent = binaryProblemsetter ->
  RunMetadata.Verdict (runMeta parent) <> "OK" ->
  exists m,
    caseRunMeta VerdictList regularBinaryCount files
                (before ++ parent :: after) = Some m
    /\ RunMetadata.Verdict m = parentVerdict (runMeta parent).
Proof.
  intros Hb Ha Hty Hv. unfold caseRunMeta. rewrite collect_app.
  destruct (collect_contestantsOK before Hb (collectInit files) eq_refl)
    as [st1 [E1 [Hf1 _]]].
  rewrite E1. simpl. unfold collectStep at 1. rewrite Hty.
  match goal with
  | |- context [collect _ _ ?s after] => set (st2 := s)
  end.
  destruct (collect_contestantsOK after Ha st2 Hf1) as [st3 [E3 [Hf3 Hp3]]].
  rewrite E3. eexists. split; [reflexivity|].
  unfold reconcile. rewrite Hp3. simpl.
  rewrite Hf3. simpl.
  apply String.eqb_neq in Hv. rewrite Hv. reflexivity.
Qed.

End Reconciliation.

(** C6.  In a case where every contestant binary's verdict is OK and the
    problemsetter's is not, the case verdict follows the problemsetter's
    metadata: verdict OLE gives OLE; verdict TLE gives TLE; otherwise an
    exit status 239, 240, 241 or 242 gives RTE; otherwise the signal
    SIGPIPE gives RTE; anything else gives JE.  The results may arrive in
    any order ([before] and [after] the problemsetter's). *)
Theorem C6_interactive_reconciliation
        (VerdictList : list string) (regularBinaryCount : Z)
        (files : list string)
        (before after : list Grade.intermediateRunResult)
        (parent : Grade.intermediateRunResult) :
  In "OK" VerdictList ->
  Forall Grade.contestantOK before -> Forall Grade.contestantOK after ->
  Grade.binType parent = Grade.binaryProblemsetter ->
  RunMetadata.Verdict (Grade.runMeta parent) <> "OK" ->
  let p := Grade.runMeta parent in
  let exits := [239; 240; 241; 242] in
  exists m,
    Grade.caseRunMeta VerdictList regularBinaryCount files
                      (before ++ parent :: after) = Some m
    /\ (RunMetadata.Verdict p = "OLE" -> RunMetadata.Verdict m = "OLE")
    /\ (RunMetadata.Verdict p = "TLE" -> RunMetadata.Verdict m = "TLE")
    /\ (RunMetadata.Verdict p <> "OLE" -> RunMetadata.Verdict p <> "TLE" ->
        In (RunMetadata.ExitStatus p) exits ->
        RunMetadata.Verdict m = "RTE")
    /\ (RunMetadata.Verdict p <> "OLE" -> RunMetadata.Verdict p <> "TLE" ->
        ~ In (RunMetadata.ExitStatus p) exits ->
        RunMetadata.Signal p = Some "SIGPIPE" ->
        RunMetadata.Verdict m = "RTE")
    /\ (RunMetadata.Verdict p <> "OLE" -> RunMetadata.Verdict p <> "TLE" ->
        ~ In (RunMetadata.ExitStatus p) exits ->
        RunMetadata.Signal p <> Some "SIGPIPE" ->
        RunMetadata.Verdict m = "JE").
Proof.
  intros HOK Hb Ha Hty Hv p exits.
  destruct (caseRunMeta_parent_failed VerdictList regularBinaryCount HOK
              files before after parent Hb Ha Hty Hv) as [m [E Hm]].
  exists m. split; [exact E|]. rewrite Hm. fold p. unfold Grade.parentVerdict.
  repeat split.
  - intros ->. reflexivity.
  - intros ->. reflexivity.
  - intros H1 H2 Hin.
    apply String.eqb_neq in H1, H2. rewrite H1, H2.
    simpl in Hin.
    destruct Hin as [<-|[<-|[<-|[<-|[]]]]]; reflexivity.
  - intros H1 H2 Hin Hs.
    apply String.eqb_neq in H1, H2. rewrite H1, H2, Hs.
    repeat (destruct (_ =? _)%Z; [reflexivity|]). reflexivity.
  - intros H1 H2 Hin Hs.
    apply String.eqb_neq in H1, H2. rewrite H1, H2.
    simpl in Hin.
    destruct (Z.eqb_spec (RunMetadata.ExitStatus p) 239);
      [exfalso; apply Hin; intuition congruence|].
    destruct (Z.eqb_spec (RunMetadata.ExitStatus p) 240);
      [exfalso; apply Hin; intuition congruence|].
    destruct (Z.eqb_spec (RunMetadata.ExitStatus p) 241);
      [exfalso; apply Hin; intuition congruence|].
    destruct (Z.eqb_spec (RunMetadata.ExitStatus p) 242);
      [exfalso; apply Hin; intuition congruence|].
    destruct (RunMetadata.Signal p) as [s|]; [|reflexivity].
    destruct (String.eqb_spec s "SIGPIPE"); [congruence | reflexivity].
Qed.

Lemma C6_interactive_reconciliation_witness :
  let contestant :=
    {| Grade.name := "sumas";
       Grade.runMeta := RunMetadata.ofVerdict "OK";
       Grade.binType := Grade.binaryContestant;
       Grade.generatedFiles := [] |} in
  let parent :=
    {| Grade.name := "Main";
       Grade.runMeta :=
         RunMetadata.mk "RTE" 0 Float64.zero Float64.zero 0 (Some "SIGPIPE");
       Grade.binType := Grade.binaryProblemsetter;
       Grade.generatedFiles := [] |} in
  exists m,
    Grade.caseRunMeta common.VerdictList 2 []
                      ([contestant] ++ parent :: []) = Some m
    /\ RunMetadata.Verdict m = "RTE".
Proof.
  intros contestant parent.
  assert (In "OK" common.VerdictList) as HOK by (simpl; tauto).
  assert (Forall Grade.contestantOK [contestant]) as Hb.
  { constructor; [|constructor]. split; [discriminate | reflexivity]. }
  assert (Forall Grade.contestantOK []) as Ha by constructor.
  assert (RunMetadata.Verdict (Grade.runMeta parent) <> "OK") as Hv
    by discriminate.
  destruct (C6_interactive_reconciliation common.VerdictList 2 []
              [contestant] [] parent HOK Hb Ha eq_refl Hv)
    as [m [E [_ [_ [_ [Hpipe _]]]]]].
  exists m. split; [exact E|].
  apply Hpipe; try discriminate; try reflexivity.
  simpl. intros [H|[H|[H|[H|[]]]]]; discriminate.
Defined.

(** ** The end of Grade *)

Lemma Cmp_zero (x y : Rat.Rat) : (Rat.Cmp x y =? 0) = true <-> x = y.
Proof.
  unfold Rat.Cmp. rewrite Qceq_alt.
  destruct (x ?= y)%Qc; simpl; split; congruence.
Qed.

(** C8.  At the end of Grade: a run verdict PA with a total score of 0
    becomes WA; a run verdict OK becomes AC and the score becomes 1; in
    every other case verdict and score stay; and in every case the
    contest score is the maximal score times the final score. *)
Theorem C8_final_verdict_and_score (runResult : RunResult.t) :
  let final := Grade.finish runResult in
  (RunResult.Verdict runResult = "PA" ->
   RunResult.Score runResult = Rat.zero ->
   RunResult.Verdict final = "WA"
   /\ RunResult.Score final = RunResult.Score runResult)
  /\ (RunResult.Verdict runResult = "OK" ->
      RunResult.Verdict final = "AC" /\ RunResult.Score final = Rat.one)
  /\ (~ (RunResult.Verdict runResult = "PA"
         /\ RunResult.Score runResult = Rat.zero) ->
      RunResult.Verdict runResult <> "OK" ->
      RunResult.Verdict final = RunResult.Verdict runResult
      /\ RunResult.Score final = RunResult.Score runResult)
  /\ RunResult.MaxScore final = RunResult.MaxScore runResult
  /\ RunResult.ContestScore final
     = Rat.Mul (RunResult.MaxScore runResult) (RunResult.Score final).
Proof.
  intros final. subst final. unfold Grade.finish.
  destruct (String.eqb_spec (RunResult.Verdict runResult) "PA") as [EPA|NPA];
    destruct (Rat.Cmp (RunResult.Score runResult) Rat.zero =? 0) eqn:EC;
    destruct (String.eqb_spec (RunResult.Verdict runResult) "OK") as [EOK|NOK];
    simpl.
  all: try (apply Cmp_zero in EC).
  all: try (assert (RunResult.Score runResult <> Rat.zero) as NZ
              by (intros Z0; apply Cmp_zero in Z0; congruence)).
  all: repeat split; intros; try congruence; try tauto.
Qed.

(** ** Weight normalisation in Grade *)

Section GradeWeights.

Import Grade.
Open Scope Qc_scope.

Lemma fold_right_Add_scaled (factor : Rat.Rat) (l : list CaseSettings.t) :
  fold_right Rat.Add Rat.zero
             (map (fun c => caseWeight c factor) l)
  = fold_right Rat.Add Rat.zero (map CaseSettings.Weight l) * factor.
Proof.
  induction l as [|c l IH]; cbn [fold_right map].
  - unfold Rat.zero. ring.
  - rewrite IH.
    generalize (fold_right Rat.Add Rat.zero (map CaseSettings.Weight l)).
    intros s. unfold caseWeight, Rat.Mul, Rat.Add. ring.
Qed.

Lemma fold_left_Add (l : list CaseSettings.t) :
  forall acc,
    fold_left (fun acc caseData => Rat.Add acc (CaseSettings.Weight caseData))
              l acc
    = acc + fold_right Rat.Add Rat.zero (map CaseSettings.Weight l).
Proof.
  induction l as [|c l IH]; intros acc; cbn [fold_left fold_right map].
  - unfold Rat.zero. ring.
  - rewrite IH.
    generalize (fold_right Rat.Add Rat.zero (map CaseSettings.Weight l)).
    intros s. unfold Rat.Add. ring.
Qed.

Lemma totalWeight_from (cases : list GroupSettings.t) :
  forall acc,
    fold_left
      (fun acc group =>
         fold_left (fun acc caseData => Rat.Add acc (CaseSettings.Weight caseData))
                   (GroupSettings.Cases group) acc)
      cases acc
    = acc + sumWeights (rawWeights cases).
Proof.
  unfold sumWeights, rawWeights.
  induction cases as [|g cases IH]; intros acc;
    cbn [fold_left fold_right map].
  - unfold Rat.zero. ring.
  - rewrite IH, fold_left_Add.
    match goal with
    | |- context [?a + fold_right ?f Rat.zero ?l = _] =>
        generalize (fold_right f Rat.zero l)
    end.
    generalize (fold_right Rat.Add Rat.zero
                  (map CaseSettings.Weight (GroupSettings.Cases g))).
    intros s t. unfold Rat.Add. ring.
Qed.

Lemma totalWeight_sum (cases : list GroupSettings.t) :
  totalWeight cases = sumWeights (rawWeights cases).
Proof.
  unfold totalWeight. rewrite totalWeight_from. unfold Rat.zero. ring.
Qed.

Lemma sumWeights_scaled (cases : list GroupSettings.t) (factor : Rat.Rat) :
  sumWeights (caseWeights cases factor)
  = sumWeights (rawWeights cases) * factor.
Proof.
  unfold sumWeights, caseWeights, rawWeights.
  induction cases as [|g cases IH]; cbn [fold_right map].
  - unfold Rat.zero. ring.
  - rewrite IH, fold_right_Add_scaled.
    match goal with
    | |- Rat.Add (?a * factor) (?b * factor) = _ =>
        generalize a; generalize b
    end.
    intros s t. unfold Rat.Add. ring.
Qed.

Lemma Cmp_le_zero (x : Rat.Rat) :
  (Rat.Cmp x Rat.zero <=? 0)%Z = true <-> x <= Rat.zero.
Proof.
  unfold Rat.Cmp.
  destruct (x ?= Rat.zero) eqn:E; simpl.
  - apply Qceq_alt in E. subst. split; [intros _; apply Qcle_refl | reflexivity].
  - apply Qclt_alt in E. split; [intros _; now apply Qclt_le_weak | reflexivity].
  - apply Qcgt_alt in E. split; [discriminate|].
    intros H. exfalso. apply (Qclt_not_le _ _ E H).
Qed.

(** The factor in full: 1 for a total that is not positive, and the
    inverse of the total otherwise; the division always has a positive
    divisor. *)
Lemma totalWeightFactor_value (cases : list GroupSettings.t) :
  totalWeightFactor cases
  = Some (if (Rat.Cmp (totalWeight cases) Rat.zero <=? 0)%Z
          then Rat.one
          else Rat.one / totalWeight cases).
Proof.
  unfold totalWeightFactor.
  destruct (Rat.Cmp (totalWeight cases) Rat.zero <=? 0)%Z eqn:E;
    [reflexivity|].
  unfold Rat.Quo.
  destruct (Qc_eq_dec (totalWeight cases) Rat.zero) as [Z0|NZ];
    [|reflexivity].
  exfalso. rewrite Z0 in E. discriminate E.
Qed.

End GradeWeights.

(** C1 (amended).  Whenever the raw case weights have a positive sum W,
    the per-case weight factors that Grade computes, weight(c) * (1 / W)
    in exact rational arithmetic, sum to exactly 1 over all groups. *)
Theorem C1_Grade_weights_sum_to_one (cases : list GroupSettings.t) :
  (Rat.zero < Grade.totalWeight cases)%Qc ->
  exists factor,
    Grade.totalWeightFactor cases = Some factor
    /\ Grade.sumWeights (Grade.caseWeights cases factor) = Rat.one.
Proof.
  intros Hpos. rewrite totalWeightFactor_value.
  destruct (Rat.Cmp (Grade.totalWeight cases) Rat.zero <=? 0) eqn:E.
  - apply Cmp_le_zero in E. exfalso. apply (Qclt_not_le _ _ Hpos E).
  - eexists. split; [reflexivity|].
    rewrite sumWeights_scaled, <- totalWeight_sum.
    unfold Rat.one. field.
    intros Z0. rewrite Z0 in Hpos. apply (Qclt_not_le _ _ Hpos), Qcle_refl.
Qed.

Lemma C1_Grade_weights_sum_to_one_witness :
  let cases :=
    [GroupSettings.mk "a" [CaseSettings.mk "a.1" (Q2Qc (1 # 3));
                           CaseSettings.mk "a.2" (Q2Qc (1 # 3))];
     GroupSettings.mk "b" [CaseSettings.mk "b" (Q2Qc (1 # 3))]] in
  exists factor,
    Grade.totalWeightFactor cases = Some factor
    /\ Grade.sumWeights (Grade.caseWeights cases factor) = Rat.one.
Proof.
  intros cases.
  apply (C1_Grade_weights_sum_to_one cases).
  reflexivity.
Defined.

(** C1, as stated, fails for CreateArchiveFromGit, which normalises in
    float64: for ten cases of weight 1.0 in one group the total is 10, each
    normalised weight is the float64 nearest to 0.1, the weight of the
    group, their float64 sum, is 0.9999999999999999, and their exact sum
    is not 1 either. *)
Lemma C1_counterexample :
  let raw := v1compat.tenEqualCases in
  let cases := v1compat.buildCases raw raw in
  Float64.ltb Float64.zero (v1compat.totalWeight raw) = true
  /\ Float64.eqb (v1compat.groupWeightSum cases) Float64.one = false
  /\ exists q, v1compat.exactWeightSum cases = Some q
               /\ Qeq_bool q 1 = false.
Proof.
  intros raw cases. split; [reflexivity|]. split; [reflexivity|].
  eexists. split; vm_compute; reflexivity.
Qed.

(** C5 (amended).  In Grade, when the total W of the raw case weights is
    not positive, the normalisation factor is 1 and every case keeps its
    raw weight as its normalised weight; and whatever the weights are, the
    factor is computed without a division by a total that is not
    positive. *)
Theorem C5_Grade_nonpositive_total (cases : list GroupSettings.t) :
  ((Grade.totalWeight cases <= Rat.zero)%Qc ->
   Grade.totalWeightFactor cases = Some Rat.one
   /\ Grade.caseWeights cases Rat.one = Grade.rawWeights cases)
  /\ Grade.totalWeightFactor cases
     = Some (if Rat.Cmp (Grade.totalWeight cases) Rat.zero <=? 0
             then Rat.one
             else (Rat.one / Grade.totalWeight cases)%Qc)
  /\ ((Rat.zero < Grade.totalWeight cases)%Qc ->
      Rat.Quo Rat.one (Grade.totalWeight cases)
      = Some (Rat.one / Grade.totalWeight cases)%Qc).
Proof.
  split; [|split].
  - intros Hle. rewrite totalWeightFactor_value.
    apply Cmp_le_zero in Hle. rewrite Hle. split; [reflexivity|].
    unfold Grade.caseWeights, Grade.rawWeights, Grade.caseWeight, Rat.Mul.
    apply map_ext. intros g. apply map_ext. intros c.
    unfold Rat.one. ring.
  - apply totalWeightFactor_value.
  - intros Hpos. unfold Rat.Quo.
    destruct (Qc_eq_dec (Grade.totalWeight cases) Rat.zero) as [Z0|NZ];
      [|reflexivity].
    exfalso. rewrite Z0 in Hpos. apply (Qclt_not_le _ _ Hpos), Qcle_refl.
Qed.

Lemma C5_Grade_nonpositive_total_witness :
  let cases := [GroupSettings.mk "g" [CaseSettings.mk "a" Rat.zero]] in
  Grade.totalWeightFactor cases = Some Rat.one
  /\ Grade.caseWeights cases Rat.one = [[Rat.zero]].
Proof.
  intros cases.
  destruct (C5_Grade_nonpositive_total cases) as [H _].
  apply H. discriminate.
Defined.

(** C5, as stated, fails: for one case of weight 0 the total is 0; the
    specification's substitution would give the case the normalised weight
    1, Grade gives it 0; and CreateArchiveFromGit, which has no guard,
    divides 0.0 by 0.0 and stores a NaN. *)
Lemma C5_counterexample :
  let cases := [GroupSettings.mk "g" [CaseSettings.mk "a" Rat.zero]] in
  (Grade.totalWeight cases <= Rat.zero)%Qc
  /\ Grade.specNormalisedWeights cases = [[Rat.one]]
  /\ (exists factor,
         Grade.totalWeightFactor cases = Some factor
         /\ Grade.caseWeights cases factor = [[Rat.zero]])
  /\ Rat.zero <> Rat.one
  /\ map (fun g => map v1compat.CaseSettings.Weight (v1compat.GroupSettings.Cases g))
         (v1compat.buildCases [("a", Float64.zero)] [("a", Float64.zero)])
     = [[S754_nan]].
Proof.
  intros cases. split; [discriminate|].
  split; [apply (f_equal (fun x => [[x]])); apply Qc_is_canon; reflexivity|].
  split.
  - exists Rat.one. split; [reflexivity|].
    apply (f_equal (fun x => [[x]])); apply Qc_is_canon; reflexivity.
  - split; [discriminate | reflexivity].
Qed.

(** ** Verification of a stored archive *)

Section VerifyArchive.

Import v1compat.

Lemma bind_Ok {A B} (r : Go.result A) (k : A -> Go.result B) (b : B) :
  Go.bind r k = Go.Ok b <-> exists a, r = Go.Ok a /\ k a = Go.Ok b.
Proof.
  destruct r as [a|e]; simpl.
  - split; [eauto | intros [a' [E H]]; congruence].
  - split; [discriminate | intros [a' [E _]]; discriminate].
Qed.

(** What a successful [Verify] has checked and what it leaves in the
    input. *)
Lemma Verify_Ok (fs : FileSystem) (input input' : graderBaseInput) :
  Verify fs input = Go.Ok input' <->
  exists archive n,
    fs (archivePath input) = Some archive
    /\ getStoredHash fs input = Go.Ok (fmt.hex (sha1.Sum archive))
    /\ getStoredLength fs input = Go.Ok n
    /\ input' = {| archivePath := archivePath input;
                   storedHash := fmt.hex (sha1.Sum archive);
                   uncompressedSize := n;
                   committed := Some (Z.of_nat (String.length archive)) |}.
Proof.
  unfold Verify, statSize, Sha1sum, open.
  destruct (fs (archivePath input)) as [archive|] eqn:Ea; simpl.
  - destruct (getStoredHash fs input) as [h|e] eqn:Eh; simpl.
    + destruct (String.eqb_spec h (fmt.hex (sha1.Sum archive))) as [->|Hne];
        simpl.
      * destruct (getStoredLength fs input) as [n|e] eqn:El; simpl.
        -- split.
           ++ intros E. injection E as <-. exists archive, n. auto.
           ++ intros [a [m [Ha [_ [Hm ->]]]]].
              injection Ha as <-. injection Hm as <-. reflexivity.
        -- split; [discriminate|].
           intros [a [m [_ [_ [Hm _]]]]]. discriminate.
      * split; [discriminate|].
        intros [a [m [Ha [Hh _]]]]. injection Ha as <-. congruence.
    + split; [discriminate|].
      intros [a [m [_ [Hh _]]]]. discriminate.
  - split; [discriminate|].
    intros [a [m [Ha _]]]. discriminate.
Qed.

End VerifyArchive.



(** ** The default tolerance *)

(** C4 (amended).  When CreateArchiveFromGit loads settings with
    validator.name = token-numeric, the settings it returns have the
    tolerance 1e-6, whether the loaded settings had a tolerance or not;
    for every other validator the tolerance is returned as loaded. *)
Theorem C4_tolerance_is_overwritten
        (loaded : Go.result v1compat.ProblemSettings.t)
        (opened : option Go.error) (walk : v1compat.walked)
        (rangeCases : list (string * Float64.float64))
        (described : Go.result v1compat.InteractiveSettings)
        (marshaled : Go.result string) (written : option Go.error)
        (settings settings' : v1compat.ProblemSettings.t) (size : Z) :
  loaded = Go.Ok settings ->
  v1compat.CreateArchiveFromGit loaded opened walk rangeCases described
                                marshaled written
  = Go.Ok (settings', size) ->
  let name := v1compat.ValidatorSettings.Name
                (v1compat.ProblemSettings.Validator settings) in
  let tolerance s := v1compat.ValidatorSettings.Tolerance
                       (v1compat.ProblemSettings.Validator s) in
  (name = "token-numeric" ->
   tolerance settings' = Some v1compat.defaultTolerance)
  /\ (name <> "token-numeric" -> tolerance settings' = tolerance settings).
Proof.
  intros -> E name tolerance. subst name tolerance.
  unfold v1compat.CreateArchiveFromGit in E. simpl in E.
  destruct opened; [discriminate|].
  destruct (v1compat.walkErr walk); [discriminate|].
  match type of E with
  | Go.bind ?i _ = _ => destruct i as [interactive|]; [|discriminate]
  end.
  simpl in E. destruct marshaled as [blob|]; [|discriminate]. simpl in E.
  destruct written; [discriminate|].
  injection E as <- _. simpl.
  unfold v1compat.setTolerance.
  destruct (String.eqb_spec
              (v1compat.ValidatorSettings.Name
                 (v1compat.ProblemSettings.Validator settings))
              "token-numeric") as [Heq|Hne];
    (split; [intros H | intros H]); try contradiction;
    destruct (v1compat.validatorLang walk); reflexivity.
Qed.

Lemma C4_tolerance_is_overwritten_witness :
  exists settings' size,
    v1compat.CreateArchiveFromGit
      (Go.Ok v1compat.settingsWithTolerance) None v1compat.walkOfOneCase
      [("a", Float64.one)] (Go.Err (Go.ErrExternal "not called"))
      (Go.Ok "{}") None
    = Go.Ok (settings', size)
    /\ v1compat.ValidatorSettings.Tolerance
         (v1compat.ProblemSettings.Validator settings')
       = Some v1compat.defaultTolerance.
Proof.
  eexists. eexists. split; [reflexivity|].
  eapply (C4_tolerance_is_overwritten
            (Go.Ok v1compat.settingsWithTolerance) None v1compat.walkOfOneCase
            [("a", Float64.one)] (Go.Err (Go.ErrExternal "not called"))
            (Go.Ok "{}") None v1compat.settingsWithTolerance).
  - reflexivity.
  - reflexivity.
  - reflexivity.
Defined.

(** C4, as stated, fails: settings loaded with the validator
    token-numeric and a tolerance of 1e-3 are returned with the tolerance
    1e-6. *)
Lemma C4_counterexample :
  exists settings' size,
    v1compat.CreateArchiveFromGit
      (Go.Ok v1compat.settingsWithTolerance) None v1compat.walkOfOneCase
      [("a", Float64.one)] (Go.Err (Go.ErrExternal "not called"))
      (Go.Ok "{}") None
    = Go.Ok (settings', size)
    /\ v1compat.ValidatorSettings.Tolerance
         (v1compat.ProblemSettings.Validator v1compat.settingsWithTolerance)
       = Some (Float64.ofRatio 1 1000)
    /\ v1compat.ValidatorSettings.Tolerance
         (v1compat.ProblemSettings.Validator settings')
       = Some (Float64.ofRatio 1 1000000)
    /\ Float64.eqb (Float64.ofRatio 1 1000000) (Float64.ofRatio 1 1000) = false.
Proof.
  eexists. eexists. split; [reflexivity|].
  split; [reflexivity|]. split; reflexivity.
Qed.

(** ** Broadcasting a finished run *)



(** The comparison is made on the float64 value: a score just below 1
    that rounds to 1.0 is broadcast as 1 with its contest score, partial
    scoring or not. *)
Example broadcast_score_rounding_to_one :
  let score := Q2Qc (18014398509481983 # 18014398509481984) in
  score <> Rat.one
  /\ Float64.eqb (Rat.RationalToFloat score) Float64.one = true.
Proof. split; [discriminate | reflexivity]. Qed.

(** ** The scanners *)

Section ScannerFacts.

Import bufio.

Lemma length_drop (n : nat) :
  forall s, String.length (Go.drop n s) = (String.length s - n)%nat.
Proof.
  induction n as [|n IH]; intros s; destruct s as [|c s]; simpl; auto.
Qed.

Lemma length_substring (n m : nat) :
  forall s, (n + m <= String.length s)%nat ->
            String.length (substring n m s) = m.
Proof.
  revert m. induction n as [|n IHn]; intros m.
  - induction m as [|m IHm]; intros s H; destruct s as [|c s]; simpl in *;
      try reflexivity; try lia.
    rewrite IHm; [reflexivity | lia].
  - intros s H. destruct s as [|c s]; simpl in *; [lia|].
    apply IHn. lia.
Qed.

Lemma drop_nonempty (n : nat) (s : string) :
  (n < String.length s)%nat -> Go.drop n s <> EmptyString.
Proof.
  intros H E. apply (f_equal String.length) in E.
  rewrite length_drop in E. simpl in E. lia.
Qed.

(** A rune of a non-empty input is between one and four bytes wide and
    lies within the input. *)
Lemma DecodeRune_width (p : string) :
  p <> EmptyString ->
  (1 <= snd (utf8.DecodeRune p) <= String.length p)%nat.
Proof.
  destruct p as [|c0 p]; [congruence|]. intros _.
  unfold utf8.DecodeRune. cbv zeta.
  repeat match goal with
         | |- context [if ?b then _ else _] => destruct b
         | |- context [match ?s with EmptyString => _ | String _ _ => _ end] =>
             destruct s
         end; simpl; lia.
Qed.

Variable isSep : Z -> bool.

Lemma skipSeparators_bounds (data : string) :
  forall fuel start,
    (start <= String.length data)%nat ->
    (start <= skipSeparators fuel isSep data start <= String.length data)%nat.
Proof.
  induction fuel as [|fuel IH]; intros start Hs; simpl; [lia|].
  destruct (Nat.ltb_spec start (String.length data)) as [Hlt|]; [|lia].
  pose proof (DecodeRune_width _ (drop_nonempty _ _ Hlt)) as Hw.
  rewrite length_drop in Hw.
  destruct (utf8.DecodeRune (Go.drop start data)) as [r width]. simpl in Hw.
  destruct (isSep r); [|lia].
  specialize (IH (start + width)%nat). lia.
Qed.

(** With enough fuel the first loop stops at the end of the data or at a
    rune that is not a separator. *)
Lemma skipSeparators_stops (data : string) :
  forall fuel start,
    (String.length data <= start + fuel)%nat ->
    let stop := skipSeparators fuel isSep data start in
    (stop < String.length data)%nat ->
    isSep (fst (utf8.DecodeRune (Go.drop stop data))) = false.
Proof.
  induction fuel as [|fuel IH]; intros start Hf; simpl; [lia|].
  destruct (Nat.ltb_spec start (String.length data)) as [Hlt|]; [|lia].
  pose proof (DecodeRune_width _ (drop_nonempty _ _ Hlt)) as Hw.
  destruct (utf8.DecodeRune (Go.drop start data)) as [r width] eqn:Ed.
  simpl in Hw.
  destruct (isSep r) eqn:Er.
  - apply IH. lia.
  - intros _. rewrite Ed. exact Er.
Qed.

(** The second loop finds a separator inside the data, and after the
    position it starts from when that one holds no separator. *)
Lemma findSeparator_Some (data : string) :
  forall fuel i j width,
    findSeparator fuel isSep data i = Some (j, width) ->
    (i <= j)%nat /\ (1 <= width)%nat /\ (j + width <= String.length data)%nat
    /\ ((i < String.length data)%nat ->
        isSep (fst (utf8.DecodeRune (Go.drop i data))) = false ->
        (i < j)%nat).
Proof.
  induction fuel as [|fuel IH]; intros i j width; simpl; [discriminate|].
  destruct (Nat.ltb_spec i (String.length data)) as [Hlt|]; [|discriminate].
  pose proof (DecodeRune_width _ (drop_nonempty _ _ Hlt)) as Hw.
  rewrite length_drop in Hw.
  destruct (utf8.DecodeRune (Go.drop i data)) as [r w] eqn:Ed. simpl in Hw.
  destruct (isSep r) eqn:Er.
  - intros E. injection E as <- <-.
    repeat split; try lia. simpl. intros _ F. congruence.
  - intros E. apply IH in E. destruct E as [H1 [H2 [H3 _]]].
    repeat split; lia.
Qed.

(** A token of [scanRunes] at the end of the input is not empty, and the
    scanner advances by at least one byte and stays within the input. *)
Lemma scanRunes_token (data : string) (advance : nat) (tok : string) :
  scanRunes isSep data true = (advance, Some tok) ->
  tok <> EmptyString
  /\ (1 <= advance <= String.length data)%nat.
Proof.
  unfold scanRunes.
  pose proof (skipSeparators_bounds data (String.length data) 0 (Nat.le_0_l _))
    as Hb.
  pose proof (skipSeparators_stops data (String.length data) 0 (Nat.le_refl _))
    as Hs.
  cbv zeta in Hs.
  set (start := skipSeparators (String.length data) isSep data 0) in *.
  destruct (findSeparator (String.length data) isSep data start)
    as [[i width]|] eqn:Ef.
  - intros E. injection E as <- <-.
    apply findSeparator_Some in Ef. destruct Ef as [H1 [H2 [H3 H4]]].
    assert (start < i)%nat as Hlt.
    { apply H4; [lia|]. apply Hs. lia. }
    split; [|lia].
    intros E. apply (f_equal String.length) in E.
    rewrite length_substring in E; simpl in E; lia.
  - simpl. destruct (Nat.ltb_spec start (String.length data)) as [Hlt|];
      [|discriminate].
    intros E. injection E as <- <-.
    split; [|lia]. now apply drop_nonempty.
Qed.

End ScannerFacts.

(** ** CalculateScore on the token policies *)

Section ScoreLoop.

Import bufio validator.

Lemma Scan_true (s s' : Scanner) :
  overRunes s -> Scan s = (true, s') ->
  overRunes s'
  /\ (String.length (buf s') < String.length (buf s))%nat
  /\ Text s' <> EmptyString.
Proof.
  intros [isSep Hs] E. unfold Scan in E. rewrite Hs in E.
  destruct (scanRunes isSep (buf s) true) as [advance [tok|]] eqn:Et;
    [|discriminate].
  injection E as <-. apply scanRunes_token in Et. destruct Et as [Hne Ha].
  split; [exists isSep; reflexivity|]. simpl.
  rewrite length_drop. split; [lia | exact Hne].
Qed.

Lemma Scan_false (s s' : Scanner) :
  Scan s = (false, s') ->
  split s' = split s /\ buf s' = EmptyString /\ Text s' = EmptyString.
Proof.
  unfold Scan. destruct (split s (buf s) true) as [advance [tok|]];
    [discriminate|].
  intros E. injection E as <-. auto.
Qed.

Lemma tokensFrom_end (fuel : nat) (s s' : Scanner) :
  Scan s = (false, s') -> tokensFrom fuel s = [].
Proof. intros E. destruct fuel; simpl; [|rewrite E]; reflexivity. Qed.

Lemma tokensFrom_next (fuel : nat) (s s' : Scanner) :
  overRunes s -> Scan s = (true, s') ->
  (String.length (buf s) <= fuel)%nat ->
  exists fuel',
    tokensFrom fuel s = Text s' :: tokensFrom fuel' s'
    /\ (String.length (buf s') <= fuel')%nat.
Proof.
  intros Hs E Hf. destruct (Scan_true s s' Hs E) as [_ [Hlt _]].
  destruct fuel as [|fuel']; [lia|].
  exists fuel'. simpl. rewrite E. split; [reflexivity | lia].
Qed.

(** The tokens do not depend on the fuel, once it covers the unread
    input. *)
Lemma tokensFrom_fuel (fuel : nat) :
  forall fuel' s,
    overRunes s ->
    (String.length (buf s) <= fuel)%nat ->
    (String.length (buf s) <= fuel')%nat ->
    tokensFrom fuel s = tokensFrom fuel' s.
Proof.
  induction fuel as [|fuel IH]; intros fuel' s Hs Hf Hf'.
  - destruct fuel' as [|fuel']; [reflexivity|]. simpl.
    destruct (Scan s) as [[|] s'] eqn:E; [|reflexivity].
    destruct (Scan_true s s' Hs E) as [_ [Hlt _]]. lia.
  - simpl. destruct (Scan s) as [[|] s'] eqn:E.
    + destruct (Scan_true s s' Hs E) as [Hs' [Hlt _]].
      destruct fuel' as [|fuel']; [lia|]. simpl. rewrite E.
      f_equal. apply IH; [exact Hs' | lia | lia].
    + symmetry. apply (tokensFrom_end fuel' s s' E).
Qed.

Lemma tokensFrom_nonempty (fuel : nat) :
  forall s, overRunes s ->
            Forall (fun t => t <> EmptyString) (tokensFrom fuel s).
Proof.
  induction fuel as [|fuel IH]; intros s Hs; simpl; [constructor|].
  destruct (Scan s) as [[|] s'] eqn:E; [|constructor].
  destruct (Scan_true s s' Hs E) as [Hs' [_ Hne]].
  constructor; [exact Hne | apply IH, Hs'].
Qed.

Variable ParseFloat : string -> Float64.float64 * option Go.error.
Variable EqualFold : string -> string -> bool.

Lemma compareTokens_matcher (settings : ValidatorSettings)
      (matches : string -> string -> bool) (e c : string) :
  matcher ParseFloat EqualFold settings = Some matches ->
  compareTokens ParseFloat EqualFold settings e c
  = Returned (Go.Ok (matches e c)).
Proof.
  unfold matcher, compareTokens.
  destruct (String.eqb (Name settings) "token");
    [intros E; injection E as <-; reflexivity|].
  destruct (String.eqb (Name settings) "token-caseless");
    [intros E; injection E as <-; reflexivity|].
  destruct (String.eqb (Name settings) "token-numeric"); [|discriminate].
  destruct (Tolerance settings); [|discriminate].
  intros E; injection E as <-; reflexivity.
Qed.

(** The loop returns, and what it returns is [loopMatch] on the tokens of
    the two streams. *)
Lemma scoreLoop_loopMatch (settings : ValidatorSettings)
      (matches : string -> string -> bool) :
  matcher ParseFloat EqualFold settings = Some matches ->
  forall n expected contestant fe fc,
    overRunes expected -> overRunes contestant ->
    (String.length (buf expected) < n)%nat ->
    (String.length (buf expected) <= fe)%nat ->
    (String.length (buf contestant) <= fc)%nat ->
    scoreLoop ParseFloat EqualFold n settings contestant expected
    = Returned (if loopMatch matches (tokensFrom fe expected)
                                     (tokensFrom fc contestant)
                then Float64.one else Float64.zero, None).
Proof.
  intros Hm.
  induction n as [|n IH]; intros expected contestant fe fc He Hc Hn Hfe Hfc;
    [lia|].
  simpl.
  destruct (Scan expected) as [[|] expected'] eqn:Ee;
    destruct (Scan contestant) as [[|] contestant'] eqn:Ec; simpl.
  - destruct (Scan_true _ _ He Ee) as [He' [Hle _]].
    destruct (Scan_true _ _ Hc Ec) as [Hc' [Hlc _]].
    destruct (tokensFrom_next fe _ _ He Ee Hfe) as [fe' [-> Hfe']].
    destruct (tokensFrom_next fc _ _ Hc Ec Hfc) as [fc' [-> Hfc']].
    rewrite (compareTokens_matcher _ _ _ _ Hm). simpl.
    destruct (matches (Text expected') (Text contestant')); simpl;
      [|reflexivity].
    apply IH; auto; lia.
  - destruct (Scan_true _ _ He Ee) as [He' [Hle _]].
    destruct (Scan_false _ _ Ec) as [Hsc [Hbc Htc]].
    destruct (tokensFrom_next fe _ _ He Ee Hfe) as [fe' [-> Hfe']].
    rewrite (tokensFrom_end fc _ _ Ec).
    rewrite (compareTokens_matcher _ _ _ _ Hm). simpl.
    rewrite Htc.
    destruct (matches (Text expected') EmptyString); simpl; [|reflexivity].
    assert (overRunes contestant') as Hc'
      by (destruct Hc as [f Hf]; exists f; congruence).
    rewrite (IH expected' contestant' fe' 0%nat He' Hc');
      [reflexivity | lia | lia | rewrite Hbc; simpl; lia].
  - destruct (Scan_true _ _ Hc Ec) as [Hc' [Hlc _]].
    destruct (tokensFrom_next fc _ _ Hc Ec Hfc) as [fc' [-> Hfc']].
    rewrite (tokensFrom_end fe _ _ Ee). reflexivity.
  - rewrite (tokensFrom_end fe _ _ Ee), (tokensFrom_end fc _ _ Ec).
    reflexivity.
Qed.

Lemma scanFuncOf_runes (settings : ValidatorSettings) (input : string) :
  overRunes (NewScanner input (scanFuncOf settings)).
Proof.
  unfold scanFuncOf, scanNumericTokens, scanTokens.
  destruct (String.eqb (Name settings) "token-numeric");
    eexists; reflexivity.
Qed.

Lemma matcher_not_literal (settings : ValidatorSettings)
      (matches : string -> string -> bool) :
  matcher ParseFloat EqualFold settings = Some matches ->
  orb (String.eqb (Name settings) "literal")
      (String.eqb (Name settings) "custom") = false.
Proof.
  unfold matcher.
  destruct (String.eqb_spec (Name settings) "token") as [->|];
    [reflexivity|].
  destruct (String.eqb_spec (Name settings) "token-caseless") as [->|];
    [reflexivity|].
  destruct (String.eqb_spec (Name settings) "token-numeric") as [->|];
    [reflexivity | discriminate].
Qed.

(** CalculateScore on a token policy: it returns, without an error, 1
    when [loopMatch] holds of the two token streams and 0 when not. *)
Lemma CalculateScore_loopMatch (settings : ValidatorSettings)
      (matches : string -> string -> bool)
      (contestantOutput expectedOutput : string) :
  matcher ParseFloat EqualFold settings = Some matches ->
  CalculateScore ParseFloat EqualFold settings contestantOutput expectedOutput
  = Returned
      (if loopMatch matches
                    (tokens (scanFuncOf settings) expectedOutput)
                    (tokens (scanFuncOf settings) contestantOutput)
       then Float64.one else Float64.zero, None).
Proof.
  intros Hm. unfold CalculateScore.
  rewrite (matcher_not_literal _ _ Hm).
  fold (scanFuncOf settings). unfold tokens.
  apply (scoreLoop_loopMatch settings matches Hm);
    try apply scanFuncOf_runes; simpl; lia.
Qed.


End ScoreLoop.



(** For the policy token-numeric, CalculateScore returns the condition of
    the loop, in which an expected token that is left over when the
    contestant stream has ended is compared with the empty text. *)
Theorem CalculateScore_token_numeric
        (ParseFloat : string -> Float64.float64 * option Go.error)
        (EqualFold : string -> string -> bool)
        (tolerance : Float64.float64)
        (contestantOutput expectedOutput : string) :
  validator.CalculateScore
    ParseFloat EqualFold
    {| validator.Name := "token-numeric";
       validator.Tolerance := Some tolerance |}
    contestantOutput expectedOutput
  = validator.Returned
      (if validator.loopMatch
            (fun a b => validator.tokenNumeric ParseFloat a b tolerance)
            (bufio.tokens validator.scanNumericTokens expectedOutput)
            (bufio.tokens validator.scanNumericTokens contestantOutput)
       then Float64.one else Float64.zero, None).
Proof.
  now rewrite (CalculateScore_loopMatch
                 ParseFloat EqualFold _
                 (fun a b => validator.tokenNumeric ParseFloat a b tolerance)).
Qed.

(** C3 at the input on which the code departs from it: validator
    token-numeric, expected output "-", empty contestant output.  The
    expected stream yields the token "-" while the contestant stream is
    at its end, and CalculateScore returns 1: the comparison of "-" with
    the empty text, neither of which is a number, sets [correct] back to
    true. *)
Theorem C3_stream_end_scores_one (EqualFold : string -> string -> bool) :
  let settings :=
    {| validator.Name := "token-numeric";
       validator.Tolerance := Some (Float64.ofRatio 1 1000000) |} in
  bufio.tokens validator.scanNumericTokens "-" = ["-"]
  /\ bufio.tokens validator.scanNumericTokens EmptyString = []
  /\ validator.streamsMatch
       (fun a b => validator.tokenNumeric validator.ParseFloat a b
                                          (Float64.ofRatio 1 1000000))
       ["-"] [] = false
  /\ validator.CalculateScore validator.ParseFloat EqualFold settings
                              EmptyString "-"
     = validator.Returned (Float64.one, None).
Proof.
  intros settings. repeat split; reflexivity.
Qed.

(** ** More on CalculateScore *)






(** X5.  No token that [scanTokens], [scanNumericTokens] or [bufio.ScanWords]
    yields is empty. *)
Theorem tokens_never_empty (isSep : Z -> bool) (input : string) :
  Forall (fun tok => tok <> EmptyString)
         (bufio.tokens (bufio.scanRunes isSep) input).
Proof.
  unfold bufio.tokens. apply tokensFrom_nonempty.
  exists isSep. reflexivity.
Qed.

(** ** The bytes of the tokens *)

Lemma lor_ge_128_l (a b : Z) : 128 <= a -> 0 <= b -> 128 <= Z.lor a b.
Proof.
  intros Ha Hb.
  assert (7 <= Z.log2 (Z.lor a b)) as Hl.
  { rewrite Z.log2_lor by lia.
    assert (7 <= Z.log2 a)
      by (change 7 with (Z.log2 128); apply Z.log2_le_mono; lia).
    lia. }
  assert (1 < Z.lor a b) as Hpos.
  { destruct (Z.le_gt_cases (Z.lor a b) 1) as [Hle|]; [|assumption].
    apply Z.log2_null in Hle. lia. }
  change 128 with (2 ^ 7). apply Z.log2_le_pow2; lia.
Qed.

Lemma byte_range (c : ascii) : 0 <= Go.byte c < 256.
Proof.
  unfold Go.byte. pose proof (N_ascii_bounded c). lia.
Qed.

Lemma land_63 (b : Z) : 0 <= b -> Z.land b 63 = b mod 64.
Proof. intros. change 63 with (Z.ones 6). now rewrite Z.land_ones by lia. Qed.

Lemma lor_ge_128_r (a b : Z) : 0 <= a -> 128 <= b -> 128 <= Z.lor a b.
Proof. intros. rewrite Z.lor_comm. now apply lor_ge_128_l. Qed.

Lemma land_low (b : Z) (n : Z) (k : Z) :
  0 <= b -> 0 <= k -> n = Z.ones k -> Z.land b n = b mod 2 ^ k.
Proof. intros Hb Hk ->. now apply Z.land_ones. Qed.

Lemma shifted_nonneg (b n k : Z) : 0 <= b -> 0 <= k -> 0 <= Z.shiftl (Z.land b n) k.
Proof.
  intros Hb Hk. apply Z.shiftl_nonneg. apply Z.land_nonneg. now left.
Qed.

Lemma DecodeRune_small (p : string) :
  fst (utf8.DecodeRune p) < 128 ->
  exists c s, p = String c s /\ utf8.DecodeRune p = (Go.byte c, 1%nat).
Proof.
  destruct p as [|c0 p]; [cbn; unfold utf8.RuneError; lia|].
  unfold utf8.DecodeRune. cbv zeta.
  pose proof (byte_range c0) as Hb0. set (p0 := Go.byte c0) in *.
  destruct (Z.ltb_spec p0 128); [intros _; eauto|].
  destruct (orb (p0 <? 194) (244 <? p0)) eqn:E1;
    [cbn; unfold utf8.RuneError; lia|].
  apply orb_false_elim in E1. destruct E1 as [E1 E2].
  apply Z.ltb_ge in E1, E2.
  destruct p as [|c1 p]; [cbn; unfold utf8.RuneError; lia|].
  pose proof (byte_range c1) as Hb1. set (b1 := Go.byte c1) in *.
  match goal with
  | |- context [orb (b1 <? ?lo) (?hi <? b1)] =>
      set (l := lo); set (h := hi);
      assert (128 <= l) as Hlo
        by (subst l; repeat destruct (_ =? _); lia);
      assert (h <= 191) as Hhi
        by (subst h; repeat destruct (_ =? _); lia);
      assert (p0 = 224 -> 160 <= l) as Hlo3
        by (subst l; intros ->; reflexivity);
      assert (p0 = 240 -> 144 <= l) as Hlo4
        by (subst l; intros ->; reflexivity)
  end.
  destruct (orb (b1 <? l) (h <? b1)) eqn:E3;
    [cbn; unfold utf8.RuneError; lia|].
  apply orb_false_elim in E3. destruct E3 as [E3 E4].
  apply Z.ltb_ge in E3, E4.
  assert (forall k, 0 <= k -> 0 <= Z.shiftl (Z.land b1 63) k) as Nb1
    by (intros; apply shifted_nonneg; lia).
  assert (0 <= Z.land b1 63) as Nb1' by (apply Z.land_nonneg; lia).
  destruct (Z.ltb_spec p0 224).
  { cbn [fst]. intros Hlt. exfalso.
    assert (128 <= Z.lor (Z.shiftl (Z.land p0 31) 6) (Z.land b1 63));
      [|lia].
    apply lor_ge_128_l; [|assumption].
    rewrite Z.shiftl_mul_pow2, (land_low p0 31 5) by (lia || reflexivity).
    assert (2 <= p0 mod 2 ^ 5) by (change (2 ^ 5) with 32; Z.div_mod_to_equations; lia).
    lia. }
  destruct p as [|c2 p]; [cbn; unfold utf8.RuneError; lia|].
  pose proof (byte_range c2) as Hb2. set (b2 := Go.byte c2) in *.
  destruct (orb (b2 <? 128) (191 <? b2)); [cbn; unfold utf8.RuneError; lia|].
  assert (0 <= Z.land b2 63) as Nb2 by (apply Z.land_nonneg; lia).
  destruct (Z.ltb_spec p0 240).
  { cbn [fst]. intros Hlt. exfalso.
    match type of Hlt with ?v < 128 => assert (128 <= v); [|lia] end.
    destruct (Z.eq_dec p0 224) as [E|NE].
    - apply lor_ge_128_r; [apply shifted_nonneg; lia|].
      apply lor_ge_128_l; [|assumption].
      rewrite Z.shiftl_mul_pow2, (land_low b1 63 6) by (lia || reflexivity).
      specialize (Hlo3 E).
      assert (32 <= b1 mod 2 ^ 6) by (change (2 ^ 6) with 64; Z.div_mod_to_equations; lia).
      lia.
    - apply lor_ge_128_l;
        [|apply Z.lor_nonneg; split; [apply Nb1; lia | assumption]].
      rewrite Z.shiftl_mul_pow2, (land_low p0 15 4) by (lia || reflexivity).
      assert (1 <= p0 mod 2 ^ 4) by (change (2 ^ 4) with 16; Z.div_mod_to_equations; lia).
      lia. }
  destruct p as [|c3 p]; [cbn; unfold utf8.RuneError; lia|].
  pose proof (byte_range c3) as Hb3. set (b3 := Go.byte c3) in *.
  destruct (orb (b3 <? 128) (191 <? b3)); [cbn; unfold utf8.RuneError; lia|].
  assert (0 <= Z.land b3 63) as Nb3 by (apply Z.land_nonneg; lia).
  cbn [fst]. intros Hlt. exfalso.
  match type of Hlt with ?v < 128 => assert (128 <= v); [|lia] end.
  assert (0 <= Z.lor (Z.shiftl (Z.land b2 63) 6) (Z.land b3 63)) as Nin
    by (apply Z.lor_nonneg; split; [apply shifted_nonneg; lia | assumption]).
  destruct (Z.eq_dec p0 240) as [E|NE].
  - apply lor_ge_128_r; [apply shifted_nonneg; lia|].
    apply lor_ge_128_l; [|assumption].
    rewrite Z.shiftl_mul_pow2, (land_low b1 63 6) by (lia || reflexivity).
    specialize (Hlo4 E).
    assert (16 <= b1 mod 2 ^ 6) by (change (2 ^ 6) with 64; Z.div_mod_to_equations; lia).
    lia.
  - apply lor_ge_128_l;
      [|apply Z.lor_nonneg; split; [apply Nb1; lia | assumption]].
    rewrite Z.shiftl_mul_pow2, (land_low p0 7 3) by (lia || reflexivity).
    assert (1 <= p0 mod 2 ^ 3) by (change (2 ^ 3) with 8; Z.div_mod_to_equations; lia).
    lia.
Qed.

Lemma get_drop (n : nat) :
  forall s p, String.get p (Go.drop n s) = String.get (p + n) s.
Proof.
  induction n as [|n IH]; intros s p.
  - now rewrite Nat.add_0_r.
  - destruct s as [|c s]; simpl.
    + now destruct p.
    + rewrite IH. now rewrite Nat.add_succ_r.
Qed.

Lemma drop_head (k : nat) (data : string) (c : ascii) (rest : string) :
  Go.drop k data = String c rest -> String.get k data = Some c.
Proof.
  intros E. change k with (0 + k)%nat. rewrite <- get_drop, E. reflexivity.
Qed.

Lemma allBytes_get (P : ascii -> bool) :
  forall s, (forall k c, String.get k s = Some c -> P c = true) ->
            strings.allBytes P s = true.
Proof.
  induction s as [|c s IH]; intros H; simpl; [reflexivity|].
  rewrite (H 0%nat c eq_refl). simpl. apply IH.
  intros k d E. apply (H (S k) d). exact E.
Qed.

Lemma get_None_beyond :
  forall s n, (String.length s <= n)%nat -> String.get n s = None.
Proof.
  induction s as [|d s IH]; intros n Hg; destruct n; simpl in *;
    try reflexivity; try lia.
  apply IH. lia.
Qed.

(** The bytes of a rune that does not start with an ASCII byte are all
    outside ASCII. *)
Lemma DecodeRune_high (p : string) (c0 : ascii) (rest : string) :
  p = String c0 rest -> 128 <= Go.byte c0 ->
  forall k c, (k < snd (utf8.DecodeRune p))%nat ->
              String.get k p = Some c -> 128 <= Go.byte c.
Proof.
  intros -> H0. unfold utf8.DecodeRune. cbv zeta.
  set (p0 := Go.byte c0) in *.
  assert (forall k c, (k < 1)%nat -> String.get k (String c0 rest) = Some c ->
                      128 <= Go.byte c) as One.
  { intros k c Hk E. assert (k = 0%nat) as -> by lia.
    simpl in E. injection E as <-. exact H0. }
  destruct (Z.ltb_spec p0 128); [lia|].
  destruct (orb (p0 <? 194) (244 <? p0)); [exact One|].
  destruct rest as [|c1 rest]; [exact One|].
  set (b1 := Go.byte c1) in *.
  match goal with
  | |- context [orb (b1 <? ?lo) (?hi <? b1)] =>
      set (l := lo); set (h := hi);
      assert (128 <= l) as Hlo
        by (subst l; repeat destruct (_ =? _); lia)
  end.
  destruct (orb (b1 <? l) (h <? b1)) eqn:E3; [exact One|].
  apply orb_false_elim in E3. destruct E3 as [E3 _]. apply Z.ltb_ge in E3.
  assert (forall k c, (k < 2)%nat ->
                      String.get k (String c0 (String c1 rest)) = Some c ->
                      128 <= Go.byte c) as Two.
  { intros k c Hk E. destruct k as [|[|k]]; simpl in E; [| |lia];
      injection E as <-; [exact H0 | fold b1; lia]. }
  destruct (p0 <? 224); [exact Two|].
  destruct rest as [|c2 rest]; [exact One|].
  set (b2 := Go.byte c2) in *.
  destruct (orb (b2 <? 128) (191 <? b2)) eqn:E5; [exact One|].
  apply orb_false_elim in E5. destruct E5 as [E5 _]. apply Z.ltb_ge in E5.
  assert (forall k c, (k < 3)%nat ->
                      String.get k (String c0 (String c1 (String c2 rest)))
                      = Some c ->
                      128 <= Go.byte c) as Three.
  { intros k c Hk E. destruct k as [|[|[|k]]]; simpl in E; [| | |lia];
      injection E as <-; [exact H0 | fold b1; lia | exact E5]. }
  destruct (p0 <? 240); [exact Three|].
  destruct rest as [|c3 rest]; [exact One|].
  set (b3 := Go.byte c3) in *.
  destruct (orb (b3 <? 128) (191 <? b3)) eqn:E7; [exact One|].
  apply orb_false_elim in E7. destruct E7 as [E7 _]. apply Z.ltb_ge in E7.
  intros k c Hk E. destruct k as [|[|[|[|k]]]]; simpl in *; [| | | |lia];
    injection E as <-; [exact H0 | fold b1; lia | exact E5 | exact E7].
Qed.

Section PlainTokens.

Import bufio.

Variable isSep : Z -> bool.
Variable P : ascii -> bool.

(** Every byte of a rune that is not a separator satisfies [P]. *)
Hypothesis rune_bytes :
  forall p r w,
    utf8.DecodeRune p = (r, w) -> isSep r = false ->
    forall k c, (k < w)%nat -> String.get k p = Some c -> P c = true.

Local Abbreviation plainAt data k :=
  (forall c, String.get k data = Some c -> P c = true).

Lemma findSeparator_plain (data : string) :
  forall fuel i,
    match findSeparator fuel isSep data i with
    | Some (j, _) => forall k, (i <= k < j)%nat -> plainAt data k
    | None =>
        (String.length data <= i + fuel)%nat ->
        forall k, (i <= k)%nat -> plainAt data k
    end.
Proof.
  induction fuel as [|fuel IH]; intros i; simpl.
  - intros Hf k Hk c E. rewrite get_None_beyond in E by lia. discriminate.
  - destruct (Nat.ltb_spec i (String.length data)) as [Hlt|Hge].
    + pose proof (DecodeRune_width _ (drop_nonempty _ _ Hlt)) as Hw.
      destruct (utf8.DecodeRune (Go.drop i data)) as [r w] eqn:Ed.
      simpl in Hw.
      destruct (isSep r) eqn:Er.
      * intros k Hk. lia.
      * assert (forall k, (i <= k < i + w)%nat -> plainAt data k) as Here.
        { intros k Hk c E.
          apply (rune_bytes _ _ _ Ed Er (k - i)%nat c); [lia|].
          rewrite get_drop. replace (k - i + i)%nat with k by lia. exact E. }
        specialize (IH (i + w)%nat).
        destruct (findSeparator fuel isSep data (i + w)) as [[j w']|].
        -- intros k Hk.
           destruct (Nat.lt_ge_cases k (i + w)); [apply Here; lia|].
           apply IH. lia.
        -- intros Hf k Hk.
           destruct (Nat.lt_ge_cases k (i + w)); [apply Here; lia|].
           apply IH; lia.
    + intros _ k Hk c E. rewrite get_None_beyond in E by lia. discriminate.
Qed.

Lemma scanRunes_plain (data : string) (advance : nat) (tok : string) :
  scanRunes isSep data true = (advance, Some tok) ->
  strings.allBytes P tok = true.
Proof.
  unfold scanRunes.
  pose proof (skipSeparators_bounds isSep data (String.length data) 0
                                    (Nat.le_0_l _)) as Hb.
  set (start := skipSeparators (String.length data) isSep data 0) in *.
  pose proof (findSeparator_plain data (String.length data) start) as Hp.
  destruct (findSeparator (String.length data) isSep data start)
    as [[i width]|] eqn:Ef.
  - intros E. injection E as <- <-.
    apply allBytes_get. intros k c Ek.
    destruct (Nat.lt_ge_cases k (i - start)) as [Hlt|Hge].
    + rewrite substring_correct1 in Ek by exact Hlt.
      apply (Hp (k + start)%nat); [lia | exact Ek].
    + rewrite substring_correct2 in Ek by exact Hge. discriminate.
  - simpl. destruct (Nat.ltb_spec start (String.length data)) as [Hlt|];
      [|discriminate].
    intros E. injection E as <- <-.
    apply allBytes_get. intros k c Ek.
    rewrite get_drop in Ek.
    apply (Hp ltac:(lia) (k + start)%nat); [lia | exact Ek].
Qed.

Lemma tokens_plain (input : string) :
  Forall (fun tok => strings.allBytes P tok = true)
         (tokens (scanRunes isSep) input).
Proof.
  unfold tokens, NewScanner.
  assert (forall fuel s, split s = scanRunes isSep ->
                         Forall (fun tok => strings.allBytes P tok = true)
                                (tokensFrom fuel s)) as H.
  { induction fuel as [|fuel IH]; intros s Hs; simpl; [constructor|].
    unfold Scan. rewrite Hs.
    destruct (scanRunes isSep (buf s) true) as [adv [tok|]] eqn:E;
      [|constructor].
    constructor; simpl.
    - apply (scanRunes_plain _ _ _ E).
    - apply IH. reflexivity. }
  apply H. reflexivity.
Qed.

End PlainTokens.

(** X6.  Every token that scanNumericTokens yields consists of the bytes
    [0-9], [.] and [-] only. *)
Theorem scanNumericTokens_alphabet (input : string) :
  Forall (fun tok =>
            strings.allBytes
              (fun c => validator.isNumericRune (Go.byte c)) tok = true)
         (bufio.tokens validator.scanNumericTokens input).
Proof.
  unfold validator.scanNumericTokens. apply tokens_plain.
  intros p r w Ed Er k c Hk Ek.
  apply negb_false_iff in Er.
  assert (r < 128) as Hr.
  { unfold validator.isNumericRune in Er.
    repeat match type of Er with
           | orb _ _ = true => apply orb_prop in Er; destruct Er as [Er|Er]
           | andb _ _ = true => apply andb_prop in Er; destruct Er as [Er Er']
           end; lia. }
  destruct (DecodeRune_small p) as [c0 [s [Ep Ec]]];
    [rewrite Ed; exact Hr|].
  rewrite Ec in Ed. injection Ed as <- <-. subst p.
  assert (k = 0%nat) as -> by lia. simpl in Ek. injection Ek as <-.
  exact Er.
Qed.

(** X7.  No token that scanTokens yields contains an ASCII white-space byte
    (tab, line feed, vertical tab, form feed, carriage return, space) or
    one of the separators U+001C to U+001F. *)
Theorem scanTokens_no_whitespace (input : string) :
  Forall (fun tok =>
            strings.allBytes
              (fun c => negb (andb (Go.byte c <? 128)
                                   (validator.isSpace (Go.byte c)))) tok
            = true)
         (bufio.tokens validator.scanTokens input).
Proof.
  unfold validator.scanTokens. apply tokens_plain.
  intros p r w Ed Er k c Hk Ek.
  destruct p as [|c0 rest]; [destruct k; discriminate|].
  destruct (Z.lt_ge_cases (Go.byte c0) 128) as [Hlow|Hhigh].
  - assert (utf8.DecodeRune (String c0 rest) = (Go.byte c0, 1%nat)) as E1.
    { unfold utf8.DecodeRune. cbv zeta.
      destruct (Z.ltb_spec (Go.byte c0) 128); [reflexivity | lia]. }
    rewrite E1 in Ed. injection Ed as <- <-.
    assert (k = 0%nat) as -> by lia. simpl in Ek. injection Ek as <-.
    rewrite Er. now rewrite andb_false_r.
  - assert (128 <= Go.byte c) as Hc.
    { apply (DecodeRune_high (String c0 rest) c0 rest eq_refl Hhigh k c);
        [rewrite Ed; exact Hk | exact Ek]. }
    destruct (Z.ltb_spec (Go.byte c) 128); [lia | reflexivity].
Qed.

(** ** The policies literal and custom *)






(** ** Output-only submissions *)

Section MapFacts.

Context {V : Type}.

Lemma mapGet_mapSet_same (k : string) (v : V) (m : list (string * V)) :
  outputonly.mapGet (Grade.mapSet k v m) k = Some v.
Proof.
  induction m as [|[k' v'] m IH]; simpl.
  - now rewrite String.eqb_refl.
  - destruct (String.eqb_spec k' k) as [->|Hne]; simpl.
    + now rewrite String.eqb_refl.
    + apply String.eqb_neq in Hne. now rewrite Hne.
Qed.

Lemma mapGet_mapSet_other (k k' : string) (v : V) (m : list (string * V)) :
  k <> k' ->
  outputonly.mapGet (Grade.mapSet k v m) k' = outputonly.mapGet m k'.
Proof.
  intros Hne. induction m as [|[k0 v0] m IH]; simpl.
  - apply String.eqb_neq in Hne. now rewrite Hne.
  - destruct (String.eqb_spec k0 k) as [->|Hne0]; simpl.
    + apply String.eqb_neq in Hne. now rewrite Hne.
    + destruct (String.eqb k0 k'); [reflexivity | exact IH].
Qed.

Lemma mapSet_In (k k' : string) (v v' : V) (m : list (string * V)) :
  In (k', v') (Grade.mapSet k v m) ->
  (k' = k /\ v' = v) \/ In (k', v') m.
Proof.
  induction m as [|[k0 v0] m IH]; simpl.
  - intros [E|[]]. injection E as <- <-. auto.
  - destruct (String.eqb_spec k0 k) as [->|Hne]; simpl.
    + intros [E|H]; [injection E as <- <-; auto | auto].
    + intros [E|H]; [auto|]. destruct (IH H); auto.
Qed.

End MapFacts.

Section ParseOutputOnly.

Import outputonly.

Variable expected : list string.
Variable outputLimit : Z.

Lemma addFile_wellFormed (result : list (string * outputOnlyFile))
      (f : zipFile) :
  wellFormed expected result ->
  wellFormed expected (addFile expected outputLimit result f).
Proof.
  intros Hwf. unfold addFile.
  destruct (strings.HasSuffix (Name f) ".out"); simpl; [|exact Hwf].
  destruct (existsb (String.eqb (baseName (Name f))) expected) eqn:Ex;
    simpl; [|exact Hwf].
  assert (In (baseName (Name f)) expected) as Hin.
  { apply existsb_exists in Ex. destruct Ex as [x [Hx Ex]].
    apply String.eqb_eq in Ex. now subst. }
  destruct (uint64 outputLimit <? UncompressedSize64 f).
  - intros k v H. apply mapSet_In in H. destruct H as [[-> ->]|H]; auto.
  - destruct (opened f) as [text|e]; [|exact Hwf].
    intros k v H. apply mapSet_In in H. destruct H as [[-> ->]|H]; auto.
    split; [exact Hin | discriminate].
Qed.

Lemma fold_addFile_wellFormed (files : list zipFile) :
  forall result,
    wellFormed expected result ->
    wellFormed expected (fold_left (addFile expected outputLimit) files result).
Proof.
  induction files as [|f files IH]; intros result Hwf; simpl; [exact Hwf|].
  apply IH, addFile_wellFormed, Hwf.
Qed.

(** An entry that no later entry of the archive replaces. *)
Lemma addFile_other (result : list (string * outputOnlyFile)) (f : zipFile)
      (k : string) :
  baseName (Name f) <> k ->
  mapGet (addFile expected outputLimit result f) k = mapGet result k.
Proof.
  intros Hne. unfold addFile.
  destruct (strings.HasSuffix (Name f) ".out"); simpl; [|reflexivity].
  destruct (existsb (String.eqb (baseName (Name f))) expected);
    simpl; [|reflexivity].
  destruct (uint64 outputLimit <? UncompressedSize64 f);
    [now apply mapGet_mapSet_other|].
  destruct (opened f); [now apply mapGet_mapSet_other | reflexivity].
Qed.

Lemma fold_addFile_other (files : list zipFile) (k : string) :
  Forall (fun f => baseName (Name f) <> k) files ->
  forall result,
    mapGet (fold_left (addFile expected outputLimit) files result) k
    = mapGet result k.
Proof.
  induction 1 as [|f files Hf _ IH]; intros result; simpl; [reflexivity|].
  rewrite IH. now apply addFile_other.
Qed.

End ParseOutputOnly.

(** X8.  Whatever the archive holds, parseOutputOnlyFile keeps only files named
    after a declared case, [<case>.out], and an entry that it marks as over
    the output limit carries no contents. *)
Theorem parseOutputOnlyFile_only_expected
        (data : string) (archive : Go.result (list outputonly.zipFile))
        (cases : list GroupSettings.t) (outputLimit : Z)
        (k : string) (v : outputonly.outputOnlyFile) :
  In (k, v) (fst (outputonly.parseOutputOnlyFile data (Some archive) cases
                                                 outputLimit)) ->
  (exists group caseData,
      In group cases /\ In caseData (GroupSettings.Cases group)
      /\ k = CaseSettings.Name caseData ++ ".out")
  /\ (outputonly.ole v = true -> outputonly.contents v = EmptyString).
Proof.
  intros Hin.
  assert (outputonly.wellFormed (outputonly.expectedFileNames cases)
            (fst (outputonly.parseOutputOnlyFile data (Some archive) cases
                                                 outputLimit))) as Hwf.
  { destruct archive as [files|e]; simpl.
    - apply fold_addFile_wellFormed. intros ? ? [].
    - intros ? ? []. }
  destruct (Hwf k v Hin) as [Hk Hole]. split; [|exact Hole].
  unfold outputonly.expectedFileNames in Hk.
  apply in_flat_map in Hk. destruct Hk as [group [Hg Hk]].
  apply in_map_iff in Hk. destruct Hk as [caseData [Hc Hk]].
  exists group, caseData. auto.
Qed.

Lemma parseOutputOnlyFile_only_expected_witness :
  (exists group caseData,
      In group [GroupSettings.mk "a" [CaseSettings.mk "a" Rat.one]]
      /\ In caseData (GroupSettings.Cases group)
      /\ "a.out" = CaseSettings.Name caseData ++ ".out")
  /\ (outputonly.ole (outputonly.Build_outputOnlyFile EmptyString true) = true ->
      outputonly.contents (outputonly.Build_outputOnlyFile EmptyString true)
      = EmptyString).
Proof.
  apply (parseOutputOnlyFile_only_expected
           "data:application/zip;base64,"
           (Go.Ok [outputonly.Build_zipFile "x/a.out" 5 (Go.Ok "hello");
                   outputonly.Build_zipFile "b.out" 1 (Go.Ok "b")])
           [GroupSettings.mk "a" [CaseSettings.mk "a" Rat.one]] 4).
  vm_compute. left. reflexivity.
Defined.

(** X9.  The entry of the archive that decides a result: for the last entry
    [f] named [<dir>/<case>.out] for a declared case, the result under
    [<case>.out] is the empty, over-the-limit file when the header's size
    exceeds the output limit, else the contents of [f] when they can be
    read, and else whatever the entries before [f] gave. *)
Theorem parseOutputOnlyFile_last_entry
        (data : string) (before after : list outputonly.zipFile)
        (f : outputonly.zipFile)
        (cases : list GroupSettings.t) (outputLimit : Z) :
  strings.HasSuffix (outputonly.Name f) ".out" = true ->
  In (outputonly.baseName (outputonly.Name f))
     (outputonly.expectedFileNames cases) ->
  Forall (fun g => outputonly.baseName (outputonly.Name g)
                   <> outputonly.baseName (outputonly.Name f)) after ->
  outputonly.mapGet
    (fst (outputonly.parseOutputOnlyFile
            data (Some (Go.Ok (before ++ f :: after)%list)) cases outputLimit))
    (outputonly.baseName (outputonly.Name f))
  = if outputonly.uint64 outputLimit <? outputonly.UncompressedSize64 f
    then Some {| outputonly.contents := EmptyString; outputonly.ole := true |}
    else match outputonly.opened f with
         | Go.Ok text =>
             Some {| outputonly.contents := text; outputonly.ole := false |}
         | Go.Err _ =>
             outputonly.mapGet
               (fst (outputonly.parseOutputOnlyFile
                       data (Some (Go.Ok before)) cases outputLimit))
               (outputonly.baseName (outputonly.Name f))
         end.
Proof.
  intros Hsuffix Hin Hafter. simpl.
  rewrite fold_left_app. simpl.
  rewrite (fold_addFile_other _ _ _ _ Hafter).
  unfold outputonly.addFile at 1. rewrite Hsuffix. simpl.
  assert (existsb (String.eqb (outputonly.baseName (outputonly.Name f)))
                  (outputonly.expectedFileNames cases) = true) as ->.
  { apply existsb_exists. eexists. split; [exact Hin|apply String.eqb_refl]. }
  simpl.
  destruct (outputonly.uint64 outputLimit <? outputonly.UncompressedSize64 f).
  - apply mapGet_mapSet_same.
  - destruct (outputonly.opened f); [apply mapGet_mapSet_same|reflexivity].
Qed.

Lemma parseOutputOnlyFile_last_entry_witness :
  outputonly.mapGet
    (fst (outputonly.parseOutputOnlyFile
            "data:application/zip;base64,"
            (Some (Go.Ok ([outputonly.Build_zipFile "a.out" 9 (Go.Ok "too long.")]
                          ++ outputonly.Build_zipFile "x/a.out" 2 (Go.Ok "ok")
                          :: [outputonly.Build_zipFile "b.out" 1 (Go.Ok "b")])%list))
            [GroupSettings.mk "a" [CaseSettings.mk "a" Rat.one]] 4))
    "a.out"
  = Some {| outputonly.contents := "ok"; outputonly.ole := false |}.
Proof.
  apply (parseOutputOnlyFile_last_entry
           "data:application/zip;base64,"
           [outputonly.Build_zipFile "a.out" 9 (Go.Ok "too long.")]
           [outputonly.Build_zipFile "b.out" 1 (Go.Ok "b")]
           (outputonly.Build_zipFile "x/a.out" 2 (Go.Ok "ok"))
           [GroupSettings.mk "a" [CaseSettings.mk "a" Rat.one]] 4).
  - reflexivity.
  - vm_compute. left. reflexivity.
  - constructor; [|constructor]. vm_compute. discriminate.
Defined.

(** ** The validation loop of Grade *)

Lemma Qc_add_nonneg (a b : Qc) : (0 <= a -> 0 <= b -> 0 <= a + b)%Qc.
Proof.
  intros Ha Hb. rewrite <- (Qcplus_0_l 0). now apply Qcplus_le_compat.
Qed.

Lemma Qc_mul_nonneg (a b : Qc) : (0 <= a -> 0 <= b -> 0 <= a * b)%Qc.
Proof.
  intros Ha Hb. rewrite <- (Qcmult_0_l b). now apply Qcmult_le_compat_r.
Qed.

Lemma Qc_mul_le_one (r w : Qc) : (0 <= w -> r <= 1 -> r * w <= w)%Qc.
Proof.
  intros Hw Hr. rewrite <- (Qcmult_1_l w) at 2. now apply Qcmult_le_compat_r.
Qed.

Section ValidateLoop.

Import runner Grade GradeLoops.

Variable VerdictList : list string.
Variable factor : Rat.Rat.
Variable validatorName : string.
Variable validated : string -> validation.
Variable maxScore : Rat.Rat.

Local Abbreviation vCase :=
  (validateCase VerdictList factor validatorName validated maxScore).
Local Abbreviation vCases :=
  (validateCases VerdictList factor validatorName validated maxScore).
Local Abbreviation vGroup :=
  (validateGroup VerdictList factor validatorName validated maxScore).
Local Abbreviation vGroups :=
  (validateGroups VerdictList factor validatorName validated maxScore).

(** One case, in full: the outcome on each of the paths of the body. *)
Lemma validateCase_cases (verdict : string) (score : Rat.Rat) (correct : bool)
      (files : list string) (caseData : CaseSettings.t) (r : CaseResult.t)
      (st' : groupState) (r' : CaseResult.t) :
  vCase (verdict, score, correct, files) caseData r = Some (st', r') ->
  let v := validated (CaseSettings.Name caseData) in
  let w := caseWeight caseData factor in
  exists files',
    (CaseResult.Verdict r <> "OK"
     /\ st' = (verdict, score, false, files') /\ r' = r)
    \/ (CaseResult.Verdict r = "OK" /\ opened v = false
        /\ st' = (verdict, score, correct, files')
        /\ CaseResult.Verdict r' = "OK"
        /\ CaseResult.Score r' = CaseResult.Score r
        /\ CaseResult.ContestScore r' = CaseResult.ContestScore r)
    \/ (CaseResult.Verdict r = "OK" /\ opened v = true
        /\ CaseResult.Score r' = Rat.Add (CaseResult.Score r) (runScore v)
        /\ CaseResult.ContestScore r'
           = Rat.Mul (Rat.Mul maxScore w) (CaseResult.Score r')
        /\ ((runScore v = Rat.one
             /\ st' = (verdict, Rat.Add score (Rat.Mul (runScore v) w),
                       correct, files')
             /\ CaseResult.Verdict r' = "AC")
            \/ (runScore v = Rat.zero
                /\ (exists verdict',
                       worseVerdict VerdictList verdict "PA" = Some verdict'
                       /\ st' = (verdict',
                                 Rat.Add score (Rat.Mul (runScore v) w),
                                 false, files'))
                /\ CaseResult.Verdict r' = "WA")
            \/ (runScore v <> Rat.one /\ runScore v <> Rat.zero
                /\ (exists verdict',
                       worseVerdict VerdictList verdict "PA" = Some verdict'
                       /\ st' = (verdict',
                                 Rat.Add score (Rat.Mul (runScore v) w),
                                 correct, files'))
                /\ CaseResult.Verdict r' = "PA"))).
Proof.
  unfold validateCase. cbv zeta.
  destruct (String.eqb_spec (CaseResult.Verdict r) "OK") as [EOK|NOK]; simpl.
  2:{ intros E. injection E as <- <-. eexists. left. eauto. }
  destruct (opened (validated (CaseSettings.Name caseData))) eqn:Eo; simpl.
  2:{ intros E. injection E as <- <-. eexists. right. left.
      simpl. repeat split; auto. }
  destruct (Rat.Cmp (runScore (validated (CaseSettings.Name caseData)))
                    Rat.one =? 0) eqn:E1.
  { apply Cmp_zero in E1. intros E. injection E as <- <-.
    eexists. right. right. simpl. repeat split; auto. }
  assert (runScore (validated (CaseSettings.Name caseData)) <> Rat.one) as N1.
  { intros H. apply Cmp_zero in H. congruence. }
  destruct (worseVerdict VerdictList verdict "PA") as [verdict'|] eqn:Ew;
    [|discriminate].
  destruct (Rat.Cmp (runScore (validated (CaseSettings.Name caseData)))
                    Rat.zero =? 0) eqn:E0.
  - apply Cmp_zero in E0. intros E. injection E as <- <-.
    eexists. right. right. simpl. repeat split; auto.
    right. left. repeat split; eauto.
  - assert (runScore (validated (CaseSettings.Name caseData)) <> Rat.zero)
      as N0.
    { intros H. apply Cmp_zero in H. congruence. }
    intros E. injection E as <- <-.
    eexists. right. right. simpl. repeat split; auto.
    right. right. repeat split; eauto.
Qed.


(** *** The score of a group is bounded by the weights of its cases *)

Local Abbreviation weightSum cases :=
  (fold_right Rat.Add Rat.zero
              (map (fun c => caseWeight c factor) cases)).

Lemma validateCases_bounds (cases : list CaseSettings.t) :
  (forall name, (0 <= runScore (validated name) <= 1)%Qc) ->
  (forall c, In c cases -> (0 <= caseWeight c factor)%Qc) ->
  forall rs verdict score correct files verdict' score' correct' files' rs',
    vCases (verdict, score, correct, files) cases rs
    = Some ((verdict', score', correct', files'), rs') ->
    (score <= score' <= score + weightSum cases)%Qc.
Proof.
  intros Hrun. induction cases as [|c cases IH]; intros Hw rs verdict score
    correct files verdict' score' correct' files' rs';
    cbn [validateCases fold_right map].
  - intros E. injection E as <- <- <- <- <-.
    split; [apply Qcle_refl|]. unfold Rat.zero.
    rewrite Qcplus_0_r. apply Qcle_refl.
  - destruct rs as [|r rs]; [discriminate|].
    destruct (vCase (verdict, score, correct, files) c r)
      as [[[[[v1 s1] c1] f1] r1]|] eqn:E1; [|discriminate].
    destruct (vCases (v1, s1, c1, f1) cases rs)
      as [[[[[v2 s2] c2] f2] rs2]|] eqn:E2; [|discriminate].
    intros E. injection E as <- <- <- <- <-.
    apply IH in E2; [|intros; apply Hw; now right].
    assert (0 <= caseWeight c factor)%Qc as Hc by (apply Hw; now left).
    assert (score <= s1 <= score + caseWeight c factor)%Qc as [L U].
    { destruct (Hrun (CaseSettings.Name c)) as [R0 R1].
      pose proof (Qc_mul_nonneg _ _ R0 Hc) as P0.
      pose proof (Qc_mul_le_one _ _ Hc R1) as P1.
      assert (score <= score + runScore (validated (CaseSettings.Name c))
                               * caseWeight c factor
              <= score + caseWeight c factor)%Qc as Hadd.
      { split.
        - rewrite <- (Qcplus_0_r score) at 1.
          apply Qcplus_le_compat; [apply Qcle_refl | exact P0].
        - apply Qcplus_le_compat; [apply Qcle_refl | exact P1]. }
      assert (score <= score <= score + caseWeight c factor)%Qc as Hsame.
      { split; [apply Qcle_refl|].
        rewrite <- (Qcplus_0_r score) at 1.
        apply Qcplus_le_compat; [apply Qcle_refl | exact Hc]. }
      apply validateCase_cases in E1. cbv zeta in E1.
      destruct E1 as [fs [[_ [E _]] | [[_ [_ [E _]]] | [_ [_ [_ [_ H]]]]]]].
      - injection E as _ -> _ _. exact Hsame.
      - injection E as _ -> _ _. exact Hsame.
      - destruct H as [[_ [E _]] | [[_ [[? [_ E]] _]] | [_ [_ [[? [_ E]] _]]]]];
          injection E as _ -> _ _; exact Hadd. }
    destruct E2 as [L2 U2]. split.
    + eapply Qcle_trans; eassumption.
    + eapply Qcle_trans; [exact U2|].
      unfold Rat.Add at 1. rewrite Qcplus_assoc.
      apply Qcplus_le_compat; [exact U | apply Qcle_refl].
Qed.

Lemma validateGroups_bounds (groups : list GroupSettings.t) :
  (forall name, (0 <= runScore (validated name) <= 1)%Qc) ->
  (forall g c, In g groups -> In c (GroupSettings.Cases g) ->
               (0 <= caseWeight c factor)%Qc) ->
  forall grs verdict score files verdict' score' files' grs',
    vGroups (verdict, score, files) groups grs
    = Some ((verdict', score', files'), grs') ->
    (score <= score' <= score + sumWeights (caseWeights groups factor))%Qc.
Proof.
  intros Hrun. unfold sumWeights, caseWeights.
  induction groups as [|g groups IH]; intros Hw grs verdict score
    files verdict' score' files' grs';
    cbn [validateGroups fold_right map].
  - intros E. injection E as <- <- <- <-.
    split; [apply Qcle_refl|]. unfold Rat.zero.
    rewrite Qcplus_0_r. apply Qcle_refl.
  - destruct grs as [|gr grs]; [discriminate|].
    destruct (vGroup (verdict, score, files) g gr)
      as [[[[v1 s1] f1] g1]|] eqn:E1; [|discriminate].
    destruct (vGroups (v1, s1, f1) groups grs)
      as [[[[v2 s2] f2] gs2]|] eqn:E2; [|discriminate].
    intros E. injection E as <- <- <- <-.
    apply IH in E2; [|intros g' c' ? ?; apply (Hw g' c'); [now right|easy]].
    assert (score <= s1 <= score + weightSum (GroupSettings.Cases g))%Qc
      as [L U].
    { unfold validateGroup in E1.
      destruct (vCases (verdict, Rat.zero, true, files) (GroupSettings.Cases g)
                       (GroupResult.Cases gr))
        as [[[[[v3 s3] c3] f3] rs3]|] eqn:E3; [|discriminate].
      apply validateCases_bounds in E3;
        [|exact Hrun | intros c' ?; apply (Hw g c'); [now left|easy]].
      destruct E3 as [L3 U3]. unfold Rat.zero in L3, U3.
      rewrite Qcplus_0_l in U3.
      destruct c3; injection E1 as _ <- _ _.
      - split.
        + rewrite <- (Qcplus_0_r score) at 1.
          apply Qcplus_le_compat; [apply Qcle_refl | exact L3].
        + apply Qcplus_le_compat; [apply Qcle_refl | exact U3].
      - split; [apply Qcle_refl|].
        rewrite <- (Qcplus_0_r score) at 1.
        apply Qcplus_le_compat; [apply Qcle_refl|].
        eapply Qcle_trans; eassumption. }
    destruct E2 as [L2 U2]. split.
    + eapply Qcle_trans; eassumption.
    + eapply Qcle_trans; [exact U2|].
      unfold Rat.Add at 1. rewrite Qcplus_assoc.
      apply Qcplus_le_compat; [exact U | apply Qcle_refl].
Qed.


(** *** The loop does not panic on the results of the run loop *)

Lemma validateCase_total (verdict : string) (score : Rat.Rat) (correct : bool)
      (files : list string) (caseData : CaseSettings.t) (r : CaseResult.t) :
  In verdict VerdictList -> In "PA" VerdictList ->
  exists verdict' score' correct' files' r',
    vCase (verdict, score, correct, files) caseData r
    = Some ((verdict', score', correct', files'), r')
    /\ In verdict' VerdictList.
Proof.
  intros Hv Hpa. unfold validateCase.
  destruct (negb (CaseResult.Verdict r =? "OK")%string); [eauto 10|].
  cbv zeta.
  destruct (negb (opened (validated (CaseSettings.Name caseData))));
    [eauto 10|].
  destruct (Rat.Cmp (runScore (validated (CaseSettings.Name caseData)))
                    Rat.one =? 0); [eauto 10|].
  destruct (worseVerdict VerdictList verdict "PA") as [verdict'|] eqn:Ew.
  - apply worseVerdict_In in Ew.
    destruct (Rat.Cmp (runScore (validated (CaseSettings.Name caseData)))
                      Rat.zero =? 0); eauto 10.
  - apply worseVerdict_panics in Ew. tauto.
Qed.

Lemma validateCases_total (cases : list CaseSettings.t) :
  In "PA" VerdictList ->
  forall rs verdict score correct files,
    In verdict VerdictList ->
    List.length cases = List.length rs ->
    exists verdict' score' correct' files' rs',
      vCases (verdict, score, correct, files) cases rs
      = Some ((verdict', score', correct', files'), rs')
      /\ In verdict' VerdictList.
Proof.
  intros Hpa. induction cases as [|c cases IH];
    intros rs verdict score correct files Hv Hlen; cbn [validateCases].
  - eauto 10.
  - destruct rs as [|r rs]; [discriminate|].
    destruct (validateCase_total verdict score correct files c r Hv Hpa)
      as [v1 [s1 [c1 [f1 [r1 [E1 Hv1]]]]]].
    rewrite E1.
    destruct (IH rs v1 s1 c1 f1 Hv1) as [v2 [s2 [c2 [f2 [rs2 [E2 Hv2]]]]]].
    { simpl in Hlen. congruence. }
    rewrite E2. eauto 10.
Qed.

Lemma validateGroups_total (groups : list GroupSettings.t) :
  In "PA" VerdictList ->
  forall grs verdict score files,
    In verdict VerdictList ->
    Forall2 (fun g gr => List.length (GroupSettings.Cases g)
                         = List.length (GroupResult.Cases gr)) groups grs ->
    exists verdict' score' files' grs',
      vGroups (verdict, score, files) groups grs
      = Some ((verdict', score', files'), grs').
Proof.
  intros Hpa. induction groups as [|g groups IH];
    intros grs verdict score files Hv Hshape; cbn [validateGroups].
  - eauto 10.
  - inversion Hshape as [|? gr ? grs0 Hlen Hrest]; subst.
    unfold validateGroup.
    destruct (validateCases_total (GroupSettings.Cases g) Hpa
                (GroupResult.Cases gr) verdict Rat.zero true files Hv Hlen)
      as [v1 [s1 [c1 [f1 [rs1 [E1 Hv1]]]]]].
    rewrite E1.
    destruct c1.
    + destruct (IH grs0 v1 (Rat.Add score s1) f1 Hv1 Hrest)
        as [v2 [s2 [f2 [gs2 E2]]]].
      rewrite E2. eauto 10.
    + destruct (IH grs0 v1 score f1 Hv1 Hrest) as [v2 [s2 [f2 [gs2 E2]]]].
      rewrite E2. eauto 10.
Qed.

(** *** A group with a failed case scores nothing *)

Lemma validateCases_stays_incorrect (cases : list CaseSettings.t) :
  forall rs verdict score files verdict' score' correct' files' rs',
    vCases (verdict, score, false, files) cases rs
    = Some ((verdict', score', correct', files'), rs') ->
    correct' = false.
Proof.
  induction cases as [|c cases IH];
    intros rs verdict score files verdict' score' correct' files' rs';
    cbn [validateCases].
  - intros E. now injection E as _ _ <- _ _.
  - destruct rs as [|r rs]; [discriminate|].
    destruct (vCase (verdict, score, false, files) c r)
      as [[[[[v1 s1] c1] f1] r1]|] eqn:E1; [|discriminate].
    destruct (vCases (v1, s1, c1, f1) cases rs)
      as [[[[[v2 s2] c2] f2] rs2]|] eqn:E2; [|discriminate].
    intros E. injection E as <- <- <- <- <-.
    assert (c1 = false) as ->.
    { apply validateCase_cases in E1. cbv zeta in E1.
      destruct E1 as [fs [[_ [E _]] | [[_ [_ [E _]]] | [_ [_ [_ [_ H]]]]]]].
      - now injection E.
      - now injection E.
      - destruct H as [[_ [E _]] | [[_ [[? [_ E]] _]] | [_ [_ [[? [_ E]] _]]]]];
          now injection E. }
    eapply IH, E2.
Qed.

Lemma validateCases_failed (cases : list CaseSettings.t) :
  forall (j : nat) rs c r verdict score correct files
         verdict' score' correct' files' rs',
    nth_error cases j = Some c ->
    nth_error rs j = Some r ->
    CaseResult.Verdict r <> "OK"
    \/ (opened (validated (CaseSettings.Name c)) = true
        /\ runScore (validated (CaseSettings.Name c)) = Rat.zero) ->
    vCases (verdict, score, correct, files) cases rs
    = Some ((verdict', score', correct', files'), rs') ->
    correct' = false.
Proof.
  induction cases as [|c0 cases IH];
    intros j rs c r verdict score correct files
           verdict' score' correct' files' rs' Hc Hr Hfail;
    cbn [validateCases].
  - destruct j; discriminate.
  - destruct rs as [|r0 rs]; [discriminate|].
    destruct (vCase (verdict, score, correct, files) c0 r0)
      as [[[[[v1 s1] c1] f1] r1]|] eqn:E1; [|discriminate].
    destruct (vCases (v1, s1, c1, f1) cases rs)
      as [[[[[v2 s2] c2] f2] rs2]|] eqn:E2; [|discriminate].
    intros E. injection E as <- <- <- <- <-.
    destruct j as [|j]; simpl in Hc, Hr.
    + injection Hc as ->. injection Hr as ->.
      assert (c1 = false) as ->; [|eapply validateCases_stays_incorrect, E2].
      apply validateCase_cases in E1. cbv zeta in E1.
      destruct E1 as [fs [[_ [E _]] | [[Hok [Hop _]] | [Hok [_ [_ [_ H]]]]]]].
      * now injection E.
      * destruct Hfail as [?|[? _]]; congruence.
      * destruct Hfail as [?|[_ H0]]; [congruence|].
        destruct H as [[H1 _] | [[_ [[? [_ E]] _]] | [_ [N0 _]]]].
        -- rewrite H0 in H1. discriminate.
        -- now injection E.
        -- contradiction.
    + eapply IH; eassumption.
Qed.

(** *** The run's score is the sum of the scores of the groups *)

Lemma validateGroups_sum (groups : list GroupSettings.t) :
  forall grs verdict score files verdict' score' files' grs',
    vGroups (verdict, score, files) groups grs
    = Some ((verdict', score', files'), grs') ->
    (score' + groupScoreSum grs = score + groupScoreSum grs')%Qc.
Proof.
  induction groups as [|g groups IH];
    intros grs verdict score files verdict' score' files' grs';
    cbn [validateGroups].
  - intros E. now injection E as <- <- <- <-.
  - destruct grs as [|gr grs]; [discriminate|].
    destruct (vGroup (verdict, score, files) g gr)
      as [[[[v1 s1] f1] g1]|] eqn:E1; [|discriminate].
    destruct (vGroups (v1, s1, f1) groups grs)
      as [[[[v2 s2] f2] gs2]|] eqn:E2; [|discriminate].
    intros E. injection E as <- <- <- <-.
    apply IH in E2. unfold groupScoreSum in *. cbn [fold_right].
    assert (s1 + GroupResult.Score gr = score + GroupResult.Score g1)%Qc as E.
    { unfold validateGroup in E1.
      destruct (vCases (verdict, Rat.zero, true, files) (GroupSettings.Cases g)
                       (GroupResult.Cases gr))
        as [[[[[v3 s3] c3] f3] rs3]|]; [|discriminate].
      destruct c3; injection E1 as _ <- _ <-; simpl;
        unfold Rat.Add; ring. }
    revert E2 E.
    generalize (fold_right (fun g0 acc => Rat.Add (GroupResult.Score g0) acc)
                           Rat.zero grs).
    generalize (fold_right (fun g0 acc => Rat.Add (GroupResult.Score g0) acc)
                           Rat.zero gs2).
    generalize (GroupResult.Score gr). generalize (GroupResult.Score g1).
    intros a b x y E2 E. unfold Rat.Add.
    transitivity ((s2 + y) + b)%Qc; [ring|]. rewrite E2.
    transitivity ((s1 + b) + x)%Qc; [ring|]. rewrite E. ring.
Qed.


(** *** Cases that ran and whose outputs score 1 *)

Lemma validateCases_accepting (cases : list CaseSettings.t) :
  (forall c, In c cases ->
             opened (validated (CaseSettings.Name c)) = true ->
             runScore (validated (CaseSettings.Name c)) = Rat.one) ->
  forall rs verdict score correct files,
    Forall2 (fun _ r => CaseResult.Verdict r = "OK") cases rs ->
    exists score' files' rs',
      vCases (verdict, score, correct, files) cases rs
      = Some ((verdict, score', correct, files'), rs')
      /\ Forall2 (fun c r' =>
                    CaseResult.Verdict r'
                    = if opened (validated (CaseSettings.Name c))
                      then "AC" else "OK") cases rs'.
Proof.
  induction cases as [|c cases IH]; intros Hone rs verdict score correct files
    Hshape; cbn [validateCases].
  - inversion Hshape; subst. eauto 10.
  - inversion Hshape as [|? r ? rs0 Hr Hrest]; subst.
    assert (exists s1 f1 r1,
               vCase (verdict, score, correct, files) c r
               = Some ((verdict, s1, correct, f1), r1)
               /\ CaseResult.Verdict r1
                  = if opened (validated (CaseSettings.Name c))
                    then "AC" else "OK") as [s1 [f1 [r1 [E1 Hv1]]]].
    { unfold validateCase. rewrite Hr. simpl. cbv zeta.
      destruct (opened (validated (CaseSettings.Name c))) eqn:Eo; simpl.
      - rewrite (Hone c (or_introl eq_refl) Eo).
        replace (Rat.Cmp Rat.one Rat.one =? 0) with true by reflexivity.
        eauto 10.
      - eauto 10. }
    rewrite E1.
    destruct (IH (fun c' H => Hone c' (or_intror H)) rs0 verdict s1 correct f1
                 Hrest) as [s2 [f2 [rs2 [E2 Hall]]]].
    rewrite E2. eauto 10.
Qed.

Lemma validateGroups_accepting (groups : list GroupSettings.t) :
  (forall g c, In g groups -> In c (GroupSettings.Cases g) ->
               opened (validated (CaseSettings.Name c)) = true ->
               runScore (validated (CaseSettings.Name c)) = Rat.one) ->
  forall grs verdict score files,
    Forall2 (fun g gr =>
               Forall2 (fun _ r => CaseResult.Verdict r = "OK")
                       (GroupSettings.Cases g) (GroupResult.Cases gr))
            groups grs ->
    exists score' files' grs',
      vGroups (verdict, score, files) groups grs
      = Some ((verdict, score', files'), grs')
      /\ Forall2 (fun g gr' =>
                    Forall2 (fun c r' =>
                               CaseResult.Verdict r'
                               = if opened (validated (CaseSettings.Name c))
                                 then "AC" else "OK")
                            (GroupSettings.Cases g) (GroupResult.Cases gr'))
                 groups grs'.
Proof.
  induction groups as [|g groups IH]; intros Hone grs verdict score files
    Hshape; cbn [validateGroups].
  - inversion Hshape; subst. eauto 10.
  - inversion Hshape as [|? gr ? grs0 Hg Hrest]; subst.
    unfold validateGroup.
    destruct (validateCases_accepting (GroupSettings.Cases g)
                (fun c H => Hone g c (or_introl eq_refl) H)
                (GroupResult.Cases gr) verdict Rat.zero true files Hg)
      as [s1 [f1 [rs1 [E1 Hall1]]]].
    rewrite E1.
    destruct (IH (fun g' c H => Hone g' c (or_intror H)) grs0 verdict
                 (Rat.Add score s1) f1 Hrest) as [s2 [f2 [gs2 [E2 Hall2]]]].
    rewrite E2. do 3 eexists. split; [reflexivity|].
    constructor; [exact Hall1 | exact Hall2].
Qed.

End ValidateLoop.

(** ** The run loop of Grade *)

Lemma ltb_add_zero (limit x : Float64.float64) :
  Float64.ltb limit x = true ->
  Float64.ltb limit (Float64.add x Float64.zero) = true.
Proof.
  unfold Float64.ltb, Float64.add, Float64.zero, SFltb.
  destruct x as [[]|[]| |[] m e]; simpl; auto.
Qed.

Section RunLoop.

Import runner Grade GradeLoops.

Variable VerdictList : list string.
Variable regularBinaryCount : Z.
Variable overallWallTimeLimit : Float64.float64.
Variable language : string.
Variable outputOnlyFiles : list (string * outputonly.outputOnlyFile).
Variable arrivals : string -> list intermediateRunResult.
Variable factor : Rat.Rat.
Variable groupWeight : GroupSettings.t -> Rat.Rat.

Local Abbreviation rCase :=
  (runCase VerdictList regularBinaryCount overallWallTimeLimit language
           outputOnlyFiles arrivals factor).
Local Abbreviation rCases :=
  (runCases VerdictList regularBinaryCount overallWallTimeLimit language
            outputOnlyFiles arrivals factor).
Local Abbreviation rGroups :=
  (runGroups VerdictList regularBinaryCount overallWallTimeLimit language
             outputOnlyFiles arrivals factor groupWeight).

(** What the run loop keeps and what it leaves in the result of a case. *)
Lemma runCase_shape (rr : RunResult.t) (files : list string)
      (c : CaseSettings.t) (rr' : RunResult.t) (files' : list string)
      (cr : CaseResult.t) :
  rCase rr files c = Some (rr', files', cr) ->
  In (RunResult.Verdict rr') VerdictList
  /\ RunResult.Score rr' = RunResult.Score rr
  /\ RunResult.MaxScore rr' = RunResult.MaxScore rr
  /\ CaseResult.Name cr = CaseSettings.Name c
  /\ CaseResult.Score cr = Rat.zero
  /\ CaseResult.MaxScore cr = caseMaxScore (RunResult.MaxScore rr) c factor.
Proof.
  unfold runCase.
  destruct (execute _ _ _ _ _ _ _ _ _) as [[[m ind] fs]|]; [|discriminate].
  destruct (worseVerdict VerdictList (RunResult.Verdict rr)
                         (RunMetadata.Verdict m)) as [v|] eqn:Ew;
    [|discriminate].
  intros E. injection E as <- <- <-. simpl.
  apply worseVerdict_In in Ew. auto 10.
Qed.

Lemma runCases_shape (cases : list CaseSettings.t) :
  forall rr files rr' files' crs,
    rCases rr files cases = Some (rr', files', crs) ->
    (In (RunResult.Verdict rr) VerdictList ->
     In (RunResult.Verdict rr') VerdictList)
    /\ RunResult.Score rr' = RunResult.Score rr
    /\ RunResult.MaxScore rr' = RunResult.MaxScore rr
    /\ List.length cases = List.length crs
    /\ map CaseResult.MaxScore crs
       = map (fun c => caseMaxScore (RunResult.MaxScore rr) c factor) cases.
Proof.
  induction cases as [|c cases IH]; intros rr files rr' files' crs;
    cbn [runCases].
  - intros E. injection E as <- <- <-. auto.
  - destruct (rCase rr files c) as [[[rr1 f1] cr]|] eqn:E1; [|discriminate].
    destruct (rCases rr1 f1 cases) as [[[rr2 f2] crs2]|] eqn:E2;
      [|discriminate].
    intros E. injection E as <- <- <-.
    apply runCase_shape in E1.
    destruct E1 as [Hv [Hs [Hm [_ [_ Hmax]]]]].
    apply IH in E2. destruct E2 as [Hv2 [Hs2 [Hm2 [Hlen Hmaxs]]]].
    repeat split.
    + intros _. auto.
    + congruence.
    + congruence.
    + simpl. congruence.
    + simpl. rewrite Hmax, Hmaxs, Hm. reflexivity.
Qed.

Lemma runGroups_shape (groups : list GroupSettings.t) :
  forall rr files rr' files' grs,
    rGroups rr files groups = Some (rr', files', grs) ->
    (In (RunResult.Verdict rr) VerdictList ->
     In (RunResult.Verdict rr') VerdictList)
    /\ RunResult.Score rr' = RunResult.Score rr
    /\ RunResult.MaxScore rr' = RunResult.MaxScore rr
    /\ Forall2 (fun g gr => List.length (GroupSettings.Cases g)
                            = List.length (GroupResult.Cases gr)) groups grs
    /\ map (fun gr => map CaseResult.MaxScore (GroupResult.Cases gr)) grs
       = map (fun g => map (fun c => caseMaxScore (RunResult.MaxScore rr)
                                                  c factor)
                           (GroupSettings.Cases g)) groups.
Proof.
  induction groups as [|g groups IH]; intros rr files rr' files' grs;
    cbn [runGroups].
  - intros E. injection E as <- <- <-. auto.
  - destruct (rCases rr files (GroupSettings.Cases g))
      as [[[rr1 f1] crs]|] eqn:E1; [|discriminate].
    destruct (rGroups rr1 f1 groups) as [[[rr2 f2] grs2]|] eqn:E2;
      [|discriminate].
    intros E. injection E as <- <- <-.
    apply runCases_shape in E1.
    destruct E1 as [Hv [Hs [Hm [Hlen Hmaxs]]]].
    apply IH in E2. destruct E2 as [Hv2 [Hs2 [Hm2 [Hshape Hmaxs2]]]].
    repeat split.
    + auto.
    + congruence.
    + congruence.
    + constructor; [exact Hlen | exact Hshape].
    + simpl. rewrite Hmaxs, Hmaxs2, Hm. reflexivity.
Qed.

(** Once the overall wall time limit is exceeded, a case is not run: its
    verdict is TLE, no file is generated, and the limit stays exceeded. *)
Lemma runCase_over_limit (rr : RunResult.t) (files : list string)
      (c : CaseSettings.t) :
  In "TLE" VerdictList ->
  In (RunResult.Verdict rr) VerdictList ->
  Float64.ltb overallWallTimeLimit (RunResult.WallTime rr) = true ->
  exists rr' cr,
    rCase rr files c = Some (rr', files, cr)
    /\ CaseResult.Verdict cr = "TLE"
    /\ In (RunResult.Verdict rr') VerdictList
    /\ Float64.ltb overallWallTimeLimit (RunResult.WallTime rr') = true.
Proof.
  intros Htle Hv Hover. unfold runCase, execute. rewrite Hover.
  destruct (worseVerdict VerdictList (RunResult.Verdict rr)
              (RunMetadata.Verdict (RunMetadata.ofVerdict "TLE")))
    as [v|] eqn:Ew.
  - do 2 eexists. split; [reflexivity|]. simpl.
    repeat split.
    + eapply worseVerdict_In, Ew.
    + now apply ltb_add_zero.
  - apply worseVerdict_panics in Ew. simpl in Ew. tauto.
Qed.

Lemma runCases_over_limit (cases : list CaseSettings.t) :
  In "TLE" VerdictList ->
  forall rr files,
    In (RunResult.Verdict rr) VerdictList ->
    Float64.ltb overallWallTimeLimit (RunResult.WallTime rr) = true ->
    exists rr' crs,
      rCases rr files cases = Some (rr', files, crs)
      /\ Forall (fun cr => CaseResult.Verdict cr = "TLE") crs
      /\ List.length crs = List.length cases
      /\ In (RunResult.Verdict rr') VerdictList
      /\ Float64.ltb overallWallTimeLimit (RunResult.WallTime rr') = true.
Proof.
  intros Htle. induction cases as [|c cases IH]; intros rr files Hv Hover;
    cbn [runCases].
  - exists rr, []. auto.
  - destruct (runCase_over_limit rr files c Htle Hv Hover)
      as [rr1 [cr [E1 [Hcr [Hv1 Hover1]]]]].
    rewrite E1.
    destruct (IH rr1 files Hv1 Hover1) as [rr2 [crs [E2 [Hall [Hlen [Hv2 Ho2]]]]]].
    rewrite E2. exists rr2, (cr :: crs). simpl. auto 10.
Qed.

Lemma runGroups_over_limit (groups : list GroupSettings.t) :
  In "TLE" VerdictList ->
  forall rr files,
    In (RunResult.Verdict rr) VerdictList ->
    Float64.ltb overallWallTimeLimit (RunResult.WallTime rr) = true ->
    exists rr' grs,
      rGroups rr files groups = Some (rr', files, grs)
      /\ Forall2 (fun g gr =>
                    List.length (GroupResult.Cases gr)
                    = List.length (GroupSettings.Cases g)
                    /\ Forall (fun cr => CaseResult.Verdict cr = "TLE")
                              (GroupResult.Cases gr)) groups grs.
Proof.
  intros Htle. induction groups as [|g groups IH]; intros rr files Hv Hover;
    cbn [runGroups].
  - exists rr, []. auto.
  - destruct (runCases_over_limit (GroupSettings.Cases g) Htle rr files
                                  Hv Hover)
      as [rr1 [crs [E1 [Hall [Hlen [Hv1 Hover1]]]]]].
    rewrite E1.
    destruct (IH rr1 files Hv1 Hover1) as [rr2 [grs [E2 Hall2]]].
    rewrite E2. do 2 eexists. split; [reflexivity|].
    constructor; [simpl; auto | exact Hall2].
Qed.

End RunLoop.

(** ** Properties of the two loops of Grade *)

(** X11.  Once the wall time of the run is over the overall wall time
    limit, nothing is run any more.  From such a state of the run loop,
    with verdicts of the list, the rest of the loop does not panic and
    generates no file; every remaining case of the current group, and
    every case of every remaining group, gets the verdict TLE. *)
Theorem run_over_limit_all_TLE
        (VerdictList : list string) (regularBinaryCount : Z)
        (overallWallTimeLimit : Float64.float64) (language : string)
        (outputOnlyFiles : list (string * outputonly.outputOnlyFile))
        (arrivals : string -> list Grade.intermediateRunResult)
        (factor : Rat.Rat) (groupWeight : GroupSettings.t -> Rat.Rat)
        (runResult : RunResult.t) (generatedFiles : list string)
        (cases : list CaseSettings.t) (groups : list GroupSettings.t) :
  In "TLE" VerdictList ->
  In (RunResult.Verdict runResult) VerdictList ->
  Float64.ltb overallWallTimeLimit (RunResult.WallTime runResult) = true ->
  exists runResult' caseResults runResult'' groupResults,
    GradeLoops.runCases VerdictList regularBinaryCount overallWallTimeLimit
                        language outputOnlyFiles arrivals factor
                        runResult generatedFiles cases
    = Some (runResult', generatedFiles, caseResults)
    /\ List.length caseResults = List.length cases
    /\ Forall (fun cr => CaseResult.Verdict cr = "TLE") caseResults
    /\ GradeLoops.runGroups VerdictList regularBinaryCount
                            overallWallTimeLimit language outputOnlyFiles
                            arrivals factor groupWeight
                            runResult' generatedFiles groups
       = Some (runResult'', generatedFiles, groupResults)
    /\ Forall2 (fun g gr =>
                  List.length (GroupResult.Cases gr)
                  = List.length (GroupSettings.Cases g)
                  /\ Forall (fun cr => CaseResult.Verdict cr = "TLE")
                            (GroupResult.Cases gr)) groups groupResults.
Proof.
  intros Htle Hv Hover.
  destruct (runCases_over_limit VerdictList regularBinaryCount
              overallWallTimeLimit language outputOnlyFiles arrivals factor
              cases Htle runResult generatedFiles Hv Hover)
    as [rr1 [crs [E1 [Hall [Hlen [Hv1 Hover1]]]]]].
  destruct (runGroups_over_limit VerdictList regularBinaryCount
              overallWallTimeLimit language outputOnlyFiles arrivals factor
              groupWeight groups Htle rr1 generatedFiles Hv1 Hover1)
    as [rr2 [grs [E2 Hall2]]].
  exists rr1, crs, rr2, grs. auto.
Qed.

Lemma run_over_limit_all_TLE_witness :
  exists runResult' caseResults runResult'' groupResults,
    GradeLoops.runCases ["JE"; "RTE"; "TLE"; "WA"; "PA"; "AC"; "OK"] 1
                        (Float64.ofZ 1) "cpp" [] (fun _ => []) Rat.one
                        (RunResult.mk "OK" Rat.zero Rat.zero Rat.one
                                      Float64.zero (Float64.ofZ 2) 0)
                        ["a.out"] [CaseSettings.mk "b" Rat.one]
    = Some (runResult', ["a.out"], caseResults)
    /\ List.length caseResults = 1%nat
    /\ Forall (fun cr => CaseResult.Verdict cr = "TLE") caseResults
    /\ GradeLoops.runGroups ["JE"; "RTE"; "TLE"; "WA"; "PA"; "AC"; "OK"] 1
                            (Float64.ofZ 1) "cpp" [] (fun _ => []) Rat.one
                            (fun _ => Rat.one) runResult' ["a.out"]
                            [GroupSettings.mk "h" [CaseSettings.mk "c" Rat.one]]
       = Some (runResult'', ["a.out"], groupResults)
    /\ Forall2 (fun g gr =>
                  List.length (GroupResult.Cases gr)
                  = List.length (GroupSettings.Cases g)
                  /\ Forall (fun cr => CaseResult.Verdict cr = "TLE")
                            (GroupResult.Cases gr))
               [GroupSettings.mk "h" [CaseSettings.mk "c" Rat.one]]
               groupResults.
Proof.
  apply (run_over_limit_all_TLE
           ["JE"; "RTE"; "TLE"; "WA"; "PA"; "AC"; "OK"] 1 (Float64.ofZ 1)
           "cpp" [] (fun _ => []) Rat.one (fun _ => Rat.one)
           (RunResult.mk "OK" Rat.zero Rat.zero Rat.one
                         Float64.zero (Float64.ofZ 2) 0)
           ["a.out"] [CaseSettings.mk "b" Rat.one]
           [GroupSettings.mk "h" [CaseSettings.mk "c" Rat.one]]).
  - vm_compute. tauto.
  - vm_compute. tauto.
  - vm_compute. reflexivity.
Defined.

Lemma caseMaxScoreSum_sumWeights (groupResults : list GroupResult.t) :
  GradeLoops.caseMaxScoreSum groupResults
  = Grade.sumWeights
      (map (fun gr => map CaseResult.MaxScore (GroupResult.Cases gr))
           groupResults).
Proof.
  unfold GradeLoops.caseMaxScoreSum, Grade.sumWeights.
  induction groupResults as [|gr grs IH]; cbn [fold_right map]; [reflexivity|].
  rewrite IH. f_equal.
  induction (GroupResult.Cases gr) as [|c cs IHc]; cbn [fold_right map];
    [reflexivity | now rewrite IHc].
Qed.

Lemma sumWeights_caseMaxScore (maxScore factor : Rat.Rat)
      (groups : list GroupSettings.t) :
  Grade.sumWeights
    (map (fun g => map (fun c => Grade.caseMaxScore maxScore c factor)
                       (GroupSettings.Cases g)) groups)
  = (maxScore * Grade.sumWeights (Grade.caseWeights groups factor))%Qc.
Proof.
  unfold Grade.sumWeights, Grade.caseWeights.
  induction groups as [|g groups IH]; cbn [fold_right map].
  - unfold Rat.zero. ring.
  - rewrite IH.
    assert (fold_right Rat.Add Rat.zero
              (map (fun c => Grade.caseMaxScore maxScore c factor)
                   (GroupSettings.Cases g))
            = (maxScore
               * fold_right Rat.Add Rat.zero
                   (map (fun c => Grade.caseWeight c factor)
                        (GroupSettings.Cases g)))%Qc) as ->.
    { induction (GroupSettings.Cases g) as [|c cs IHc]; cbn [fold_right map].
      - unfold Rat.zero. ring.
      - rewrite IHc. unfold Grade.caseMaxScore, Rat.Mul, Rat.Add. ring. }
    unfold Rat.Add. ring.
Qed.

Lemma normalised_weights_sum (groups : list GroupSettings.t)
      (factor : Rat.Rat) :
  (Rat.zero < Grade.totalWeight groups)%Qc ->
  Grade.totalWeightFactor groups = Some factor ->
  Grade.sumWeights (Grade.caseWeights groups factor) = Rat.one.
Proof.
  intros Hpos Hf. rewrite totalWeightFactor_value in Hf.
  assert ((Rat.Cmp (Grade.totalWeight groups) Rat.zero <=? 0) = false) as E.
  { destruct (Rat.Cmp (Grade.totalWeight groups) Rat.zero <=? 0) eqn:E;
      [|reflexivity].
    apply Cmp_le_zero in E. exfalso. exact (Qclt_not_le _ _ Hpos E). }
  rewrite E in Hf. injection Hf as <-.
  rewrite sumWeights_scaled, <- totalWeight_sum.
  assert (Grade.totalWeight groups <> 0%Qc) as Hne.
  { intros H. rewrite H in Hpos. discriminate Hpos. }
  unfold Rat.one. field. exact Hne.
Qed.

(** X12.  The maximal scores that the run loop gives to the cases add up to the
    maximal score of the run, whenever the weights of the cases have a
    positive sum. *)
Theorem runLoop_case_max_scores
        (VerdictList : list string) (regularBinaryCount : Z)
        (overallWallTimeLimit : Float64.float64) (language : string)
        (outputOnlyFiles : list (string * outputonly.outputOnlyFile))
        (arrivals : string -> list Grade.intermediateRunResult)
        (factor : Rat.Rat) (groupWeight : GroupSettings.t -> Rat.Rat)
        (runResult : RunResult.t) (generatedFiles : list string)
        (groups : list GroupSettings.t)
        (runResult' : RunResult.t) (generatedFiles' : list string)
        (groupResults : list GroupResult.t) :
  (Rat.zero < Grade.totalWeight groups)%Qc ->
  Grade.totalWeightFactor groups = Some factor ->
  GradeLoops.runLoop VerdictList regularBinaryCount overallWallTimeLimit
                     language outputOnlyFiles arrivals factor groupWeight
                     runResult generatedFiles groups
  = Some (runResult', generatedFiles', groupResults) ->
  GradeLoops.caseMaxScoreSum groupResults = RunResult.MaxScore runResult
  /\ RunResult.MaxScore runResult' = RunResult.MaxScore runResult.
Proof.
  intros Hpos Hf Hrun. unfold GradeLoops.runLoop in Hrun.
  apply runGroups_shape in Hrun. simpl in Hrun.
  destruct Hrun as [_ [_ [Hm [_ Hmax]]]]. split; [|exact Hm].
  rewrite caseMaxScoreSum_sumWeights, Hmax, sumWeights_caseMaxScore.
  rewrite (normalised_weights_sum groups factor Hpos Hf).
  unfold Rat.one. ring.
Qed.

Lemma runLoop_case_max_scores_witness :
  exists runResult' groupResults,
    GradeLoops.caseMaxScoreSum groupResults = Q2Qc 100
    /\ RunResult.MaxScore runResult' = Q2Qc 100.
Proof.
  do 2 eexists.
  eapply (runLoop_case_max_scores
           ["JE"; "RTE"; "TLE"; "WA"; "PA"; "AC"; "OK"] 1 (Float64.ofZ 60) "cat"
           [("a.out", outputonly.Build_outputOnlyFile "1" false)]
           (fun _ => []) (Q2Qc (1 # 3)) (fun _ => Q2Qc 3)
           (RunResult.mk "JE" Rat.zero Rat.zero (Q2Qc 100)
                         Float64.zero Float64.zero 0)
           []
           [GroupSettings.mk "g" [CaseSettings.mk "a" Rat.one;
                                  CaseSettings.mk "b" (Q2Qc 2)]]).
  - reflexivity.
  - vm_compute. reflexivity.
  - reflexivity.
Defined.

(** X13.  The validation loop never panics on what the run loop leaves: the
    results it indexes are there, and worseVerdict is only called on
    verdicts of the list. *)
Theorem validation_after_run_total
        (VerdictList : list string) (regularBinaryCount : Z)
        (overallWallTimeLimit : Float64.float64) (language : string)
        (outputOnlyFiles : list (string * outputonly.outputOnlyFile))
        (arrivals : string -> list Grade.intermediateRunResult)
        (factor : Rat.Rat) (groupWeight : GroupSettings.t -> Rat.Rat)
        (validatorName : string)
        (validated : string -> GradeLoops.validation)
        (runResult : RunResult.t) (generatedFiles : list string)
        (groups : list GroupSettings.t) :
  In "OK" VerdictList -> In "PA" VerdictList ->
  GradeLoops.runLoop VerdictList regularBinaryCount overallWallTimeLimit
                     language outputOnlyFiles arrivals factor groupWeight
                     runResult generatedFiles groups <> None ->
  GradeLoops.runAndValidate VerdictList regularBinaryCount
                            overallWallTimeLimit language outputOnlyFiles
                            arrivals factor groupWeight validatorName
                            validated runResult generatedFiles groups
  <> None.
Proof.
  intros Hok Hpa. unfold GradeLoops.runAndValidate.
  destruct (GradeLoops.runLoop _ _ _ _ _ _ _ _ _ _ _)
    as [[[rr files] grs]|] eqn:Erun; [intros _|congruence].
  unfold GradeLoops.runLoop in Erun. apply runGroups_shape in Erun.
  destruct Erun as [Hv [_ [_ [Hshape _]]]]. simpl in Hv.
  unfold GradeLoops.validateAndFinish.
  destruct (validateGroups_total VerdictList factor validatorName validated
              (RunResult.MaxScore rr) groups Hpa grs (RunResult.Verdict rr)
              (RunResult.Score rr) files (Hv Hok) Hshape)
    as [v [s [f [grs' E]]]].
  rewrite E. discriminate.
Qed.

Lemma validation_after_run_total_witness :
  GradeLoops.runAndValidate
    ["JE"; "RTE"; "TLE"; "WA"; "PA"; "AC"; "OK"] 1 (Float64.ofZ 60) "cat"
    [("a.out", outputonly.Build_outputOnlyFile "1" false)]
    (fun _ => []) Rat.one (fun _ => Rat.one) "token"
    (fun _ => GradeLoops.Build_validation (RunMetadata.ofVerdict "OK") true
                                          Rat.zero)
    (RunResult.mk "JE" Rat.zero Rat.zero Rat.one Float64.zero Float64.zero 0)
    []
    [GroupSettings.mk "g" [CaseSettings.mk "a" Rat.one]]
  <> None.
Proof.
  apply validation_after_run_total.
  - vm_compute. tauto.
  - vm_compute. tauto.
  - vm_compute. discriminate.
Defined.

(** X14.  The final score lies between 0 and 1: for case weights that are not
    negative and scores of CalculateScore between 0 and 1, a run result
    that enters the validation loop with the score 0 of NewRunResult
    leaves Grade with a score in [0, 1]. *)
Theorem Grade_score_bounds
        (VerdictList : list string) (factor : Rat.Rat)
        (validatorName : string)
        (validated : string -> GradeLoops.validation)
        (runResult : RunResult.t) (generatedFiles : list string)
        (groups : list GroupSettings.t) (groupResults : list GroupResult.t)
        (final : RunResult.t) (groupResults' : list GroupResult.t)
        (generatedFiles' : list string) :
  (forall name, (0 <= GradeLoops.runScore (validated name) <= 1)%Qc) ->
  (forall g c, In g groups -> In c (GroupSettings.Cases g) ->
               (0 <= CaseSettings.Weight c)%Qc) ->
  Grade.totalWeightFactor groups = Some factor ->
  RunResult.Score runResult = Rat.zero ->
  GradeLoops.validateAndFinish VerdictList factor validatorName validated
                               runResult generatedFiles groups groupResults
  = Some (final, groupResults', generatedFiles') ->
  (0 <= RunResult.Score final <= 1)%Qc.
Proof.
  intros Hrun Hw Hf Hzero. unfold GradeLoops.validateAndFinish.
  destruct (GradeLoops.validateGroups _ _ _ _ _ _ _ _)
    as [[[[v s] f] grs]|] eqn:E; [|discriminate].
  intros Efin. injection Efin as <- _ _.
  assert (0 <= factor
          /\ Grade.sumWeights (Grade.caseWeights groups factor) <= 1)%Qc
    as [Hfactor Hsum].
  { rewrite totalWeightFactor_value in Hf.
    destruct (Rat.Cmp (Grade.totalWeight groups) Rat.zero <=? 0) eqn:Ec;
      injection Hf as <-.
    - apply Cmp_le_zero in Ec. split; [discriminate|].
      rewrite sumWeights_scaled, <- totalWeight_sum.
      unfold Rat.one. rewrite Qcmult_1_r.
      eapply Qcle_trans; [exact Ec | discriminate].
    - assert (0 < Grade.totalWeight groups)%Qc as Hpos.
      { apply Qcnot_le_lt. intros H. apply Cmp_le_zero in H. congruence. }
      split.
      + apply (Qcmult_lt_0_le_reg_r _ _ _ Hpos).
        rewrite Qcmult_0_l. unfold Rat.one, Qcdiv.
        rewrite Qcmult_1_l, Qcmult_inv_l; [discriminate|].
        intros H. rewrite H in Hpos. discriminate Hpos.
      + rewrite (normalised_weights_sum groups _ Hpos).
        * apply Qcle_refl.
        * rewrite totalWeightFactor_value, Ec. reflexivity. }
  apply validateGroups_bounds in E; [|exact Hrun|].
  2:{ intros g c Hg Hc. apply Qc_mul_nonneg; [exact (Hw g c Hg Hc)|exact Hfactor]. }
  rewrite Hzero in E. unfold Rat.zero in E. rewrite Qcplus_0_l in E.
  destruct E as [L U].
  assert (0 <= s <= 1)%Qc as Hs
      by (split; [exact L | eapply Qcle_trans; eassumption]).
  unfold Grade.finish. simpl.
  destruct (andb (v =? "PA")%string (Rat.Cmp s Rat.zero =? 0)); simpl;
    [exact Hs|].
  destruct (v =? "OK")%string; simpl; [|exact Hs].
  split; [discriminate | apply Qcle_refl].
Qed.

Lemma Grade_score_bounds_witness :
  exists final,
    (0 <= RunResult.Score final <= 1)%Qc
    /\ RunResult.Score final = Q2Qc (1 # 4).
Proof.
  eexists. split.
  - eapply (Grade_score_bounds
             ["JE"; "RTE"; "TLE"; "WA"; "PA"; "AC"; "OK"] (Q2Qc (1 # 2)) "token"
             (fun _ => GradeLoops.Build_validation (RunMetadata.ofVerdict "OK")
                                                   true (Q2Qc (1 # 2)))
             (RunResult.mk "OK" Rat.zero Rat.zero Rat.one
                           Float64.zero Float64.zero 0)
             []
             [GroupSettings.mk "g" [CaseSettings.mk "a" Rat.one];
              GroupSettings.mk "h" [CaseSettings.mk "b" Rat.one]]
             [GroupResult.mk "g" Rat.zero Rat.zero (Q2Qc (1 # 2))
                [CaseResult.mk "a" "OK" Rat.zero Rat.zero (Q2Qc (1 # 2))
                               (RunMetadata.ofVerdict "OK") []];
              GroupResult.mk "h" Rat.zero Rat.zero (Q2Qc (1 # 2))
                [CaseResult.mk "b" "TLE" Rat.zero Rat.zero (Q2Qc (1 # 2))
                               (RunMetadata.ofVerdict "TLE") []]]).
    + intros _. split; discriminate.
    + intros g c [<-|[<-|[]]] [<-|[]]; discriminate.
    + vm_compute. reflexivity.
    + reflexivity.
    + reflexivity.
  - apply Qc_is_canon. reflexivity.
Defined.

(** X15.  When every case ran to the verdict OK and every output that can be
    opened scores 1, the run is accepted: the final verdict is AC, the
    score is 1 and the contest score is the maximal score.  The cases
    whose outputs were opened get the verdict AC; a case whose output
    could not be opened keeps the verdict OK and does not count against
    the run. *)
Theorem Grade_accepts
        (VerdictList : list string) (factor : Rat.Rat)
        (validatorName : string)
        (validated : string -> GradeLoops.validation)
        (runResult : RunResult.t) (generatedFiles : list string)
        (groups : list GroupSettings.t) (groupResults : list GroupResult.t) :
  RunResult.Verdict runResult = "OK" ->
  Forall2 (fun g gr =>
             Forall2 (fun _ r => CaseResult.Verdict r = "OK")
                     (GroupSettings.Cases g) (GroupResult.Cases gr))
          groups groupResults ->
  (forall g c, In g groups -> In c (GroupSettings.Cases g) ->
               GradeLoops.opened (validated (CaseSettings.Name c)) = true ->
               GradeLoops.runScore (validated (CaseSettings.Name c))
               = Rat.one) ->
  exists final groupResults' generatedFiles',
    GradeLoops.validateAndFinish VerdictList factor validatorName validated
                                 runResult generatedFiles groups groupResults
    = Some (final, groupResults', generatedFiles')
    /\ RunResult.Verdict final = "AC"
    /\ RunResult.Score final = Rat.one
    /\ RunResult.ContestScore final = RunResult.MaxScore runResult
    /\ Forall2 (fun g gr' =>
                  Forall2 (fun c r' =>
                             CaseResult.Verdict r'
                             = if GradeLoops.opened
                                    (validated (CaseSettings.Name c))
                               then "AC" else "OK")
                          (GroupSettings.Cases g) (GroupResult.Cases gr'))
               groups groupResults'.
Proof.
  intros Hok Hshape Hone. unfold GradeLoops.validateAndFinish.
  destruct (validateGroups_accepting VerdictList factor validatorName
              validated (RunResult.MaxScore runResult) groups Hone
              groupResults (RunResult.Verdict runResult)
              (RunResult.Score runResult) generatedFiles Hshape)
    as [s [f [grs [E Hall]]]].
  rewrite E. do 3 eexists. split; [reflexivity|].
  unfold Grade.finish. simpl. rewrite Hok. simpl.
  repeat split; [|exact Hall].
  unfold Rat.Mul, Rat.one. apply Qcmult_1_r.
Qed.

Lemma Grade_accepts_witness :
  exists final groupResults' generatedFiles',
    GradeLoops.validateAndFinish
      ["JE"; "RTE"; "TLE"; "WA"; "PA"; "AC"; "OK"] Rat.one "token"
      (fun name =>
         GradeLoops.Build_validation (RunMetadata.ofVerdict "OK")
                                     (String.eqb name "a") Rat.one)
      (RunResult.mk "OK" Rat.zero Rat.zero (Q2Qc 100)
                    Float64.zero Float64.zero 0)
      []
      [GroupSettings.mk "g" [CaseSettings.mk "a" Rat.one;
                             CaseSettings.mk "b" Rat.one]]
      [GroupResult.mk "g" Rat.zero Rat.zero (Q2Qc 100)
         [CaseResult.mk "a" "OK" Rat.zero Rat.zero (Q2Qc 50)
                        (RunMetadata.ofVerdict "OK") [];
          CaseResult.mk "b" "OK" Rat.zero Rat.zero (Q2Qc 50)
                        (RunMetadata.ofVerdict "OK") []]]
    = Some (final, groupResults', generatedFiles')
    /\ RunResult.Verdict final = "AC"
    /\ RunResult.Score final = Rat.one
    /\ RunResult.ContestScore final = Q2Qc 100
    /\ Forall2 (fun g gr' =>
                  Forall2 (fun c r' =>
                             CaseResult.Verdict r'
                             = if String.eqb (CaseSettings.Name c) "a"
                               then "AC" else "OK")
                          (GroupSettings.Cases g) (GroupResult.Cases gr'))
               [GroupSettings.mk "g" [CaseSettings.mk "a" Rat.one;
                                      CaseSettings.mk "b" Rat.one]]
               groupResults'.
Proof.
  apply (Grade_accepts
           ["JE"; "RTE"; "TLE"; "WA"; "PA"; "AC"; "OK"] Rat.one "token"
           (fun name =>
              GradeLoops.Build_validation (RunMetadata.ofVerdict "OK")
                                          (String.eqb name "a") Rat.one)
           (RunResult.mk "OK" Rat.zero Rat.zero (Q2Qc 100)
                         Float64.zero Float64.zero 0)).
  - reflexivity.
  - repeat constructor.
  - intros g c _ _ _. reflexivity.
Defined.

(** X16.  Groups are all or nothing: a group with a case that did not run to
    the verdict OK, or whose output was compared and scored 0, adds
    nothing to the score of the run, and its own score and contest score
    stay as they were. *)
Theorem validateGroup_all_or_nothing
        (VerdictList : list string) (factor : Rat.Rat)
        (validatorName : string)
        (validated : string -> GradeLoops.validation) (maxScore : Rat.Rat)
        (verdict : string) (score : Rat.Rat) (files : list string)
        (group : GroupSettings.t) (groupResult : GroupResult.t)
        (j : nat) (c : CaseSettings.t) (r : CaseResult.t)
        (verdict' : string) (score' : Rat.Rat) (files' : list string)
        (groupResult' : GroupResult.t) :
  nth_error (GroupSettings.Cases group) j = Some c ->
  nth_error (GroupResult.Cases groupResult) j = Some r ->
  CaseResult.Verdict r <> "OK"
  \/ (GradeLoops.opened (validated (CaseSettings.Name c)) = true
      /\ GradeLoops.runScore (validated (CaseSettings.Name c)) = Rat.zero) ->
  GradeLoops.validateGroup VerdictList factor validatorName validated
                           maxScore (verdict, score, files) group groupResult
  = Some ((verdict', score', files'), groupResult') ->
  score' = score
  /\ GroupResult.Score groupResult' = GroupResult.Score groupResult
  /\ GroupResult.ContestScore groupResult'
     = GroupResult.ContestScore groupResult.
Proof.
  intros Hc Hr Hfail. unfold GradeLoops.validateGroup.
  destruct (GradeLoops.validateCases _ _ _ _ _ _ _ _)
    as [[[[[v1 s1] c1] f1] rs1]|] eqn:E1; [|discriminate].
  assert (c1 = false) as ->
      by (eapply validateCases_failed; [exact Hc|exact Hr|exact Hfail|exact E1]).
  intros E. injection E as _ <- _ <-. auto.
Qed.

Lemma validateGroup_all_or_nothing_witness :
  exists score' groupResult',
    score' = Q2Qc (1 # 4)
    /\ GroupResult.Score groupResult' = Rat.zero
    /\ GroupResult.ContestScore groupResult' = Rat.zero.
Proof.
  do 2 eexists.
  eapply (validateGroup_all_or_nothing
            ["JE"; "RTE"; "TLE"; "WA"; "PA"; "AC"; "OK"] (Q2Qc (1 # 4))
            "token"
            (fun name =>
               GradeLoops.Build_validation
                 (RunMetadata.ofVerdict "OK") true
                 (if String.eqb name "a" then Rat.one else Rat.zero))
            Rat.one "OK" (Q2Qc (1 # 4)) []
            (GroupSettings.mk "g" [CaseSettings.mk "a" Rat.one;
                                   CaseSettings.mk "b" Rat.one])
            (GroupResult.mk "g" Rat.zero Rat.zero (Q2Qc (1 # 2))
               [CaseResult.mk "a" "OK" Rat.zero Rat.zero (Q2Qc (1 # 4))
                              (RunMetadata.ofVerdict "OK") [];
                CaseResult.mk "b" "OK" Rat.zero Rat.zero (Q2Qc (1 # 4))
                              (RunMetadata.ofVerdict "OK") []])
            1%nat).
  - reflexivity.
  - reflexivity.
  - right. split; reflexivity.
  - reflexivity.
Defined.

(** X17.  What the validation loop adds to the score of the run is what it adds
    to the scores of the groups: the score of the run and the sum of the
    scores of the groups grow by the same amount. *)
Theorem validateGroups_score_is_group_sum
        (VerdictList : list string) (factor : Rat.Rat)
        (validatorName : string)
        (validated : string -> GradeLoops.validation) (maxScore : Rat.Rat)
        (verdict : string) (score : Rat.Rat) (files : list string)
        (groups : list GroupSettings.t) (groupResults : list GroupResult.t)
        (verdict' : string) (score' : Rat.Rat) (files' : list string)
        (groupResults' : list GroupResult.t) :
  GradeLoops.validateGroups VerdictList factor validatorName validated
                            maxScore (verdict, score, files)
                            groups groupResults
  = Some ((verdict', score', files'), groupResults') ->
  (score' - score
   = GradeLoops.groupScoreSum groupResults'
     - GradeLoops.groupScoreSum groupResults)%Qc.
Proof.
  intros E. apply validateGroups_sum in E.
  revert E. generalize (GradeLoops.groupScoreSum groupResults').
  generalize (GradeLoops.groupScoreSum groupResults).
  intros a b E.
  transitivity ((score' + a) - a - score)%Qc; [ring|]. rewrite E. ring.
Qed.

Lemma validateGroups_score_is_group_sum_witness :
  exists score' groupResults',
    (score' - Rat.zero
     = GradeLoops.groupScoreSum groupResults'
       - GradeLoops.groupScoreSum
           [GroupResult.mk "g" Rat.zero Rat.zero (Q2Qc (1 # 2))
              [CaseResult.mk "a" "OK" Rat.zero Rat.zero (Q2Qc (1 # 2))
                             (RunMetadata.ofVerdict "OK") []];
            GroupResult.mk "h" Rat.zero Rat.zero (Q2Qc (1 # 2))
              [CaseResult.mk "b" "OK" Rat.zero Rat.zero (Q2Qc (1 # 2))
                             (RunMetadata.ofVerdict "OK") []]])%Qc.
Proof.
  do 2 eexists.
  eapply (validateGroups_score_is_group_sum
            ["JE"; "RTE"; "TLE"; "WA"; "PA"; "AC"; "OK"] (Q2Qc (1 # 2))
            "token"
            (fun name =>
               GradeLoops.Build_validation
                 (RunMetadata.ofVerdict "OK") true
                 (if String.eqb name "a" then Rat.one else Q2Qc (1 # 2)))
            Rat.one "OK" Rat.zero []
            [GroupSettings.mk "g" [CaseSettings.mk "a" Rat.one];
             GroupSettings.mk "h" [CaseSettings.mk "b" Rat.one]]).
  reflexivity.
Defined.

(** ** The order in which the results of a case arrive *)

Section CollectOrder.

Import runner Grade.

Variable VerdictList : list string.
Variable regularBinaryCount : Z.

Local Abbreviation step := (collectStep VerdictList regularBinaryCount).
Local Abbreviation run := (collect VerdictList regularBinaryCount).
Local Abbreviation isParent :=
  (fun r : intermediateRunResult =>
     match binType r with binaryProblemsetter => true | _ => false end).

Lemma worseVerdict_swap (x a b : string) :
  andThen (worseVerdict VerdictList x a)
          (fun v => worseVerdict VerdictList v b)
  = andThen (worseVerdict VerdictList x b)
            (fun v => worseVerdict VerdictList v a).
Proof.
  destruct (in_dec string_dec x VerdictList) as [Hx|Hx].
  2:{ assert (forall y, worseVerdict VerdictList x y = None) as E
        by (intros y; apply worseVerdict_panics; tauto).
      now rewrite !E. }
  destruct (in_dec string_dec a VerdictList) as [Ha|Ha];
    destruct (in_dec string_dec b VerdictList) as [Hb|Hb].
  - rewrite (worseVerdict_assoc VerdictList x a b Hx Ha Hb).
    rewrite (worseVerdict_assoc VerdictList x b a Hx Hb Ha).
    now rewrite (worseVerdict_comm VerdictList a b Ha Hb).
  - destruct (worseVerdict VerdictList x a) as [v|]; simpl.
    + replace (worseVerdict VerdictList v b) with (@None string)
        by (symmetry; apply worseVerdict_panics; tauto).
      replace (worseVerdict VerdictList x b) with (@None string)
        by (symmetry; apply worseVerdict_panics; tauto).
      reflexivity.
    + replace (worseVerdict VerdictList x b) with (@None string)
        by (symmetry; apply worseVerdict_panics; tauto).
      reflexivity.
  - replace (worseVerdict VerdictList x a) with (@None string)
      by (symmetry; apply worseVerdict_panics; tauto).
    destruct (worseVerdict VerdictList x b) as [v|]; simpl; [|reflexivity].
    symmetry. apply worseVerdict_panics. tauto.
  - replace (worseVerdict VerdictList x a) with (@None string)
      by (symmetry; apply worseVerdict_panics; tauto).
    replace (worseVerdict VerdictList x b) with (@None string)
      by (symmetry; apply worseVerdict_panics; tauto).
    reflexivity.
Qed.

(** The verdict after a step depends on the state only through its
    verdict. *)
Lemma collectStep_finalVerdict (st : collected) (r : intermediateRunResult) :
  option_map finalVerdict (step st r)
  = if isParent r then Some (finalVerdict st)
    else worseVerdict VerdictList (finalVerdict st)
                      (RunMetadata.Verdict (runMeta r)).
Proof.
  unfold collectStep.
  destruct (binType r); simpl; try reflexivity;
    destruct (worseVerdict VerdictList (finalVerdict st)
                           (RunMetadata.Verdict (runMeta r))); reflexivity.
Qed.

Lemma collect_finalVerdict_ext (rs : list intermediateRunResult) :
  forall st1 st2,
    finalVerdict st1 = finalVerdict st2 ->
    option_map finalVerdict (run st1 rs) = option_map finalVerdict (run st2 rs).
Proof.
  induction rs as [|r rs IH]; intros st1 st2 E; cbn [collect].
  - simpl. now f_equal.
  - pose proof (collectStep_finalVerdict st1 r) as H1.
    pose proof (collectStep_finalVerdict st2 r) as H2.
    rewrite E in H1. rewrite <- H2 in H1.
    destruct (step st1 r) as [s1|], (step st2 r) as [s2|];
      simpl in H1; try discriminate; [|reflexivity].
    apply IH. congruence.
Qed.

Lemma collect_finalVerdict_swap (a b : intermediateRunResult)
      (rs : list intermediateRunResult) (st : collected) :
  option_map finalVerdict (run st (a :: b :: rs))
  = option_map finalVerdict (run st (b :: a :: rs)).
Proof.
  cbn [collect].
  assert (option_map finalVerdict
            (match step st a with Some s => step s b | None => None end)
          = option_map finalVerdict
              (match step st b with Some s => step s a | None => None end))
    as H.
  { pose proof (collectStep_finalVerdict st a) as Ha.
    pose proof (collectStep_finalVerdict st b) as Hb.
    destruct (step st a) as [sa|] eqn:Ea, (step st b) as [sb|] eqn:Eb;
      simpl in *.
    - rewrite (collectStep_finalVerdict sa b), (collectStep_finalVerdict sb a).
      pose proof (worseVerdict_swap (finalVerdict st)
                    (RunMetadata.Verdict (runMeta a))
                    (RunMetadata.Verdict (runMeta b))) as Hs.
      destruct (isParent a), (isParent b).
      + congruence.
      + injection Ha as ->. congruence.
      + injection Hb as ->. congruence.
      + rewrite <- Ha, <- Hb in Hs. exact Hs.
    - rewrite (collectStep_finalVerdict sa b).
      destruct (isParent b); [discriminate|].
      destruct (isParent a).
      + injection Ha as ->. congruence.
      + pose proof (worseVerdict_swap (finalVerdict st)
                      (RunMetadata.Verdict (runMeta a))
                      (RunMetadata.Verdict (runMeta b))) as Hs.
        rewrite <- Ha, <- Hb in Hs. exact Hs.
    - rewrite (collectStep_finalVerdict sb a).
      destruct (isParent a); [discriminate|].
      destruct (isParent b).
      + injection Hb as ->. congruence.
      + pose proof (worseVerdict_swap (finalVerdict st)
                      (RunMetadata.Verdict (runMeta a))
                      (RunMetadata.Verdict (runMeta b))) as Hs.
        rewrite <- Ha, <- Hb in Hs. symmetry in Hs. symmetry. exact Hs.
    - reflexivity. }
  destruct (step st a) as [sa|], (step st b) as [sb|]; simpl in H.
  - destruct (step sa b) as [sab|], (step sb a) as [sba|]; simpl in H;
      try discriminate; [|reflexivity].
    apply collect_finalVerdict_ext. congruence.
  - destruct (step sa b); [discriminate|reflexivity].
  - destruct (step sb a); [discriminate|reflexivity].
  - reflexivity.
Qed.

Lemma collect_finalVerdict_perm (rs rs' : list intermediateRunResult) :
  Permutation rs rs' ->
  forall st,
    option_map finalVerdict (run st rs) = option_map finalVerdict (run st rs').
Proof.
  induction 1 as [|r rs rs' _ IH|a b rs|rs1 rs2 rs3 _ IH1 _ IH2]; intros st.
  - reflexivity.
  - cbn [collect]. destruct (step st r); [apply IH|reflexivity].
  - apply collect_finalVerdict_swap.
  - now rewrite IH1.
Qed.

(** The problemsetter's metadata after the loop are those of the last
    result of a problemsetter's binary. *)
Lemma collect_parentMetadata (rs : list intermediateRunResult) :
  forall st st',
    run st rs = Some st' ->
    parentMetadata st'
    = fold_left (fun _ r => Some (runMeta r)) (filter isParent rs)
                (parentMetadata st).
Proof.
  induction rs as [|r rs IH]; intros st st'; cbn [collect filter].
  - intros E. now injection E as <-.
  - destruct (step st r) as [s|] eqn:Es; [|discriminate].
    intros E. rewrite (IH s st' E).
    unfold collectStep in Es.
    destruct (binType r); simpl.
    + now injection Es as <-.
    + destruct (worseVerdict _ _ _); [|discriminate]. now injection Es as <-.
    + destruct (worseVerdict _ _ _); [|discriminate]. now injection Es as <-.
Qed.

Lemma filter_Permutation {A} (f : A -> bool) (l l' : list A) :
  Permutation l l' -> Permutation (filter f l) (filter f l').
Proof.
  induction 1 as [|x l l' _ IH|x y l|l1 l2 l3 _ IH1 _ IH2]; simpl.
  - constructor.
  - destruct (f x); [now constructor|exact IH].
  - destruct (f x), (f y); try apply Permutation_refl. constructor.
  - eapply Permutation_trans; eassumption.
Qed.

Lemma Permutation_short {A} (l l' : list A) :
  Permutation l l' -> (List.length l <= 1)%nat -> l = l'.
Proof.
  intros H Hlen. destruct l as [|x [|y l]]; simpl in Hlen; [| |lia].
  - apply Permutation_nil in H. now subst.
  - apply Permutation_length_1_inv in H. now subst.
Qed.

End CollectOrder.

(** X18.  The verdict of a case does not depend on the order in which the
    results of its binaries arrive on the channel, as long as at most one
    of them is of a problemsetter's binary: either the loop panics in
    both orders, or the case gets the same verdict. *)
Theorem caseRunMeta_verdict_order
        (VerdictList : list string) (regularBinaryCount : Z)
        (files : list string)
        (rs rs' : list Grade.intermediateRunResult) :
  Permutation rs rs' ->
  (List.length
     (filter (fun r => match Grade.binType r with
                       | Grade.binaryProblemsetter => true
                       | _ => false
                       end) rs) <= 1)%nat ->
  option_map RunMetadata.Verdict
             (Grade.caseRunMeta VerdictList regularBinaryCount files rs)
  = option_map RunMetadata.Verdict
               (Grade.caseRunMeta VerdictList regularBinaryCount files rs').
Proof.
  intros Hperm Hone. unfold Grade.caseRunMeta.
  pose proof (collect_finalVerdict_perm VerdictList regularBinaryCount
                rs rs' Hperm (Grade.collectInit files)) as Hv.
  pose proof (Permutation_short _ _ (filter_Permutation _ _ _ Hperm) Hone)
    as Hf.
  destruct (Grade.collect VerdictList regularBinaryCount
                          (Grade.collectInit files) rs) as [s|] eqn:E;
    destruct (Grade.collect VerdictList regularBinaryCount
                            (Grade.collectInit files) rs') as [s'|] eqn:E';
    simpl in Hv; try discriminate; [|reflexivity].
  injection Hv as Hv. simpl.
  apply collect_parentMetadata in E, E'. rewrite <- Hf in E'.
  unfold Grade.reconcile, Grade.merged. rewrite E, E', Hv.
  destruct (fold_left _ _ _) as [parent|]; simpl; [|reflexivity].
  destruct (andb _ _); reflexivity.
Qed.

Lemma caseRunMeta_verdict_order_witness :
  option_map RunMetadata.Verdict
    (Grade.caseRunMeta
       ["JE"; "RTE"; "TLE"; "WA"; "PA"; "AC"; "OK"] 2 []
       [Grade.Build_intermediateRunResult
          "Main" (RunMetadata.ofVerdict "TLE") Grade.binaryContestant [];
        Grade.Build_intermediateRunResult
          "Main_worker" (RunMetadata.ofVerdict "RTE") Grade.binaryContestant
          []])
  = option_map RunMetadata.Verdict
      (Grade.caseRunMeta
         ["JE"; "RTE"; "TLE"; "WA"; "PA"; "AC"; "OK"] 2 []
         [Grade.Build_intermediateRunResult
            "Main_worker" (RunMetadata.ofVerdict "RTE")
            Grade.binaryContestant [];
          Grade.Build_intermediateRunResult
            "Main" (RunMetadata.ofVerdict "TLE") Grade.binaryContestant []]).
Proof.
  apply caseRunMeta_verdict_order.
  - apply perm_swap.
  - simpl. lia.
Defined.

(** ** Output-only submissions in the run loop *)

Lemma fold_addFile_last (expected : list string) (outputLimit : Z)
      (before after : list outputonly.zipFile) (f : outputonly.zipFile) :
  strings.HasSuffix (outputonly.Name f) ".out" = true ->
  In (outputonly.baseName (outputonly.Name f)) expected ->
  Forall (fun g => outputonly.baseName (outputonly.Name g)
                   <> outputonly.baseName (outputonly.Name f)) after ->
  (outputonly.uint64 outputLimit <? outputonly.UncompressedSize64 f) = true
  \/ (exists text, outputonly.opened f = Go.Ok text) ->
  exists file,
    outputonly.mapGet
      (fold_left (outputonly.addFile expected outputLimit)
                 (before ++ f :: after)%list [])
      (outputonly.baseName (outputonly.Name f)) = Some file
    /\ outputonly.ole file
       = (outputonly.uint64 outputLimit <? outputonly.UncompressedSize64 f).
Proof.
  intros Hsuffix Hin Hafter Hread.
  rewrite fold_left_app. simpl.
  rewrite (fold_addFile_other _ _ _ _ Hafter).
  unfold outputonly.addFile at 1. rewrite Hsuffix. simpl.
  assert (existsb (String.eqb (outputonly.baseName (outputonly.Name f)))
                  expected = true) as ->.
  { apply existsb_exists. eexists. split; [exact Hin|apply String.eqb_refl]. }
  simpl.
  destruct (outputonly.uint64 outputLimit <? outputonly.UncompressedSize64 f).
  - eexists. split; [apply mapGet_mapSet_same|reflexivity].
  - destruct Hread as [?|[text ->]]; [discriminate|].
    eexists. split; [apply mapGet_mapSet_same|reflexivity].
Qed.

Lemma mapGet_None_not_In {V} (m : list (string * V)) (k : string) :
  (forall v, ~ In (k, v) m) -> outputonly.mapGet m k = None.
Proof.
  induction m as [|[k' v'] m IH]; intros H; simpl; [reflexivity|].
  destruct (String.eqb_spec k' k) as [->|Hne].
  - exfalso. apply (H v'). now left.
  - apply IH. intros v Hv. apply (H v). now right.
Qed.

Lemma fold_addFile_keys (expected : list string) (outputLimit : Z)
      (files : list outputonly.zipFile) :
  forall result k v,
    In (k, v) (fold_left (outputonly.addFile expected outputLimit)
                         files result) ->
    In (k, v) result
    \/ exists f, In f files /\ outputonly.baseName (outputonly.Name f) = k.
Proof.
  induction files as [|f files IH]; intros result k v; simpl; [auto|].
  intros H. apply IH in H. destruct H as [H|[g [Hg E]]]; [|eauto].
  unfold outputonly.addFile in H.
  destruct (negb (strings.HasSuffix (outputonly.Name f) ".out")); [auto|].
  destruct (negb (existsb _ _)); [auto|].
  destruct (outputonly.uint64 outputLimit <? outputonly.UncompressedSize64 f).
  - apply mapSet_In in H. destruct H as [[-> _]|H]; eauto.
  - destruct (outputonly.opened f); [|auto].
    apply mapSet_In in H. destruct H as [[-> _]|H]; eauto.
Qed.

(** X10.  The verdict of a case of an output-only submission, from the archive
    that was submitted: RTE when no entry of the archive is named
    [<case>.out]; and, for the last entry [f] of that name, OLE when the
    size in its header is over the output limit and OK when it is not and
    the entry can be read.  Nothing is run, and the three files of the
    case are recorded as generated. *)
Theorem outputOnly_case_verdict
        (VerdictList : list string) (regularBinaryCount : Z)
        (overallWallTimeLimit : Float64.float64)
        (arrivals : string -> list Grade.intermediateRunResult)
        (data : string) (files : list outputonly.zipFile)
        (groups : list GroupSettings.t) (outputLimit : Z)
        (runResult : RunResult.t) (generatedFiles : list string)
        (caseData : CaseSettings.t) :
  Float64.ltb overallWallTimeLimit (RunResult.WallTime runResult) = false ->
  let outName := CaseSettings.Name caseData ++ ".out" in
  let verdict v :=
    GradeLoops.execute
      VerdictList regularBinaryCount overallWallTimeLimit "cat"
      (fst (outputonly.parseOutputOnlyFile data (Some (Go.Ok files)) groups
                                           outputLimit))
      arrivals runResult generatedFiles caseData
    = Some (RunMetadata.ofVerdict v, [],
            (generatedFiles
             ++ [outName;
                 (CaseSettings.Name caseData ++ ".err")%string;
                 (CaseSettings.Name caseData ++ ".meta")%string])%list) in
  (Forall (fun f => outputonly.baseName (outputonly.Name f) <> outName) files
   -> verdict "RTE")
  /\ (forall before f after,
         files = (before ++ f :: after)%list ->
         strings.HasSuffix (outputonly.Name f) ".out" = true ->
         outputonly.baseName (outputonly.Name f) = outName ->
         In outName (outputonly.expectedFileNames groups) ->
         Forall (fun g => outputonly.baseName (outputonly.Name g) <> outName)
                after ->
         ((outputonly.uint64 outputLimit <? outputonly.UncompressedSize64 f)
          = true -> verdict "OLE")
         /\ ((outputonly.uint64 outputLimit <? outputonly.UncompressedSize64 f)
             = false ->
             (exists text, outputonly.opened f = Go.Ok text) ->
             verdict "OK")).
Proof.
  intros Hwall outName verdict. subst verdict. unfold GradeLoops.execute.
  rewrite Hwall. simpl String.eqb. cbv iota. cbv zeta. fold outName.
  split.
  - intros Hnone.
    rewrite mapGet_None_not_In; [reflexivity|].
    intros v Hv. simpl in Hv. apply fold_addFile_keys in Hv.
    destruct Hv as [[]|[f [Hf E]]].
    rewrite Forall_forall in Hnone. exact (Hnone f Hf E).
  - intros before f after -> Hsuffix Hname Hin Hafter.
    rewrite <- Hname in Hin, Hafter.
    split.
    + intros Hover.
      destruct (fold_addFile_last _ outputLimit before after f Hsuffix Hin
                                  Hafter (or_introl Hover))
        as [file [Hget Hole]].
      rewrite Hname in Hget. simpl. rewrite Hget, Hole, Hover. reflexivity.
    + intros Hfits Hread.
      destruct (fold_addFile_last _ outputLimit before after f Hsuffix Hin
                                  Hafter (or_intror Hread))
        as [file [Hget Hole]].
      rewrite Hname in Hget. simpl. rewrite Hget, Hole, Hfits. reflexivity.
Qed.

Lemma outputOnly_case_verdict_witness :
  GradeLoops.execute
    ["JE"; "RTE"; "TLE"; "WA"; "PA"; "AC"; "OK"] 1 (Float64.ofZ 60) "cat"
    (fst (outputonly.parseOutputOnlyFile
            "data:application/zip;base64,"
            (Some (Go.Ok [outputonly.Build_zipFile "out/a.out" 9
                                                   (Go.Ok "too long.")]))
            [GroupSettings.mk "g" [CaseSettings.mk "a" Rat.one;
                                   CaseSettings.mk "b" Rat.one]] 4))
    (fun _ => [])
    (RunResult.mk "OK" Rat.zero Rat.zero Rat.one Float64.zero Float64.zero 0)
    [] (CaseSettings.mk "b" Rat.one)
  = Some (RunMetadata.ofVerdict "RTE", [], ["b.out"; "b.err"; "b.meta"]).
Proof.
  apply (outputOnly_case_verdict
           ["JE"; "RTE"; "TLE"; "WA"; "PA"; "AC"; "OK"] 1 (Float64.ofZ 60)
           (fun _ => []) "data:application/zip;base64,"
           [outputonly.Build_zipFile "out/a.out" 9 (Go.Ok "too long.")]
           [GroupSettings.mk "g" [CaseSettings.mk "a" Rat.one;
                                  CaseSettings.mk "b" Rat.one]] 4
           (RunResult.mk "OK" Rat.zero Rat.zero Rat.one
                         Float64.zero Float64.zero 0)
           [] (CaseSettings.mk "b" Rat.one)).
  - reflexivity.
  - constructor; [|constructor]. vm_compute. discriminate.
Defined.

(** ** The sidecar files: what Persist writes and what Verify reads *)

Lemma drop_app (pre s : string) :
  Go.drop (String.length pre) (pre ++ s) = s.
Proof. induction pre as [|c pre IH]; simpl; auto. Qed.

Lemma length_app (s t : string) :
  String.length (s ++ t) = (String.length s + String.length t)%nat.
Proof. induction s as [|c s IH]; simpl; auto. Qed.

Lemma app_assoc_string (s t u : string) : (s ++ t) ++ u = s ++ (t ++ u).
Proof. induction s as [|c s IH]; simpl; [reflexivity | now rewrite IH]. Qed.

Lemma substring_app_prefix (s t : string) :
  substring 0 (String.length s) (s ++ t) = s.
Proof.
  induction s as [|c s IH]; simpl.
  - destruct t; reflexivity.
  - now rewrite IH.
Qed.

Section FirstWord.

Variable isSep : Z -> bool.

Local Abbreviation plain :=
  (fun c : ascii => andb (Go.byte c <? 128) (negb (isSep (Go.byte c)))).

Lemma findSeparator_word (tok : string) :
  forall (pre : string) (fuel : nat) (c : ascii) (rest : string),
    (String.length tok < fuel)%nat ->
    strings.allBytes plain tok = true ->
    Go.byte c < 128 -> isSep (Go.byte c) = true ->
    bufio.findSeparator fuel isSep (pre ++ tok ++ String c rest)
                        (String.length pre)
    = Some ((String.length pre + String.length tok)%nat, 1%nat).
Proof.
  induction tok as [|t tok IH]; intros pre fuel c rest Hfuel Hplain Hc Hsep.
  - destruct fuel as [|fuel]; [simpl in Hfuel; lia|].
    cbn [bufio.findSeparator].
    assert ((String.length pre
             <? String.length (pre ++ EmptyString ++ String c rest))%nat
            = true) as ->.
    { apply Nat.ltb_lt. rewrite length_app. simpl. lia. }
    rewrite drop_app. simpl String.append.
    unfold utf8.DecodeRune.
    destruct (Z.ltb_spec (Go.byte c) 128); [|lia].
    rewrite Hsep. simpl. now rewrite Nat.add_0_r.
  - destruct fuel as [|fuel]; [simpl in Hfuel; lia|].
    simpl in Hplain. apply andb_prop in Hplain. destruct Hplain as [Ht Hplain].
    apply andb_prop in Ht. destruct Ht as [Hlow Hnot].
    apply Z.ltb_lt in Hlow. apply negb_true_iff in Hnot.
    cbn [bufio.findSeparator].
    assert ((String.length pre
             <? String.length (pre ++ String t tok ++ String c rest))%nat
            = true) as ->.
    { apply Nat.ltb_lt. rewrite length_app. simpl. lia. }
    rewrite drop_app.
    change (String t tok ++ String c rest)
      with (String t (tok ++ String c rest)).
    unfold utf8.DecodeRune at 1.
    destruct (Z.ltb_spec (Go.byte t) 128); [|lia].
    rewrite Hnot.
    replace (pre ++ String t (tok ++ String c rest))
      with ((pre ++ String t EmptyString) ++ tok ++ String c rest)
      by (now rewrite app_assoc_string).
    replace (String.length pre + 1)%nat
      with (String.length (pre ++ String t EmptyString))
      by (rewrite length_app; reflexivity).
    rewrite IH; [|simpl in Hfuel; lia|assumption..].
    f_equal. f_equal. rewrite length_app. simpl. lia.
Qed.

(** The first token of an input that starts with a word of plain bytes
    followed by a separator of one byte. *)
Lemma scanRunes_first_word (t : ascii) (tok : string) (c : ascii)
      (rest : string) :
  strings.allBytes plain (String t tok) = true ->
  Go.byte c < 128 -> isSep (Go.byte c) = true ->
  bufio.scanRunes isSep (String t tok ++ String c rest) true
  = (S (S (String.length tok)), Some (String t tok)).
Proof.
  intros Hplain Hc Hsep. unfold bufio.scanRunes. cbv zeta.
  set (data := String t tok ++ String c rest).
  assert (String.length data = S (S (String.length tok + String.length rest)))
    as Hlen.
  { unfold data. rewrite length_app. simpl. lia. }
  assert (bufio.skipSeparators (String.length data) isSep data 0 = 0%nat)
    as ->.
  { simpl in Hplain. apply andb_prop in Hplain. destruct Hplain as [Ht _].
    apply andb_prop in Ht. destruct Ht as [Hlow Hnot].
    apply Z.ltb_lt in Hlow. apply negb_true_iff in Hnot.
    rewrite Hlen. unfold data. simpl.
    destruct (Z.ltb_spec (Go.byte t) 128); [|lia].
    now rewrite Hnot. }
  assert (bufio.findSeparator (String.length data) isSep data 0
          = Some (String.length (String t tok), 1%nat)) as ->.
  { apply (findSeparator_word (String t tok) EmptyString
             (String.length data) c rest); [|assumption..].
    rewrite Hlen. simpl. lia. }
  rewrite Nat.sub_0_r. unfold data. rewrite substring_app_prefix.
  f_equal. simpl. lia.
Qed.

End FirstWord.

(** [ScanLines] on a line that ends in a line feed. *)
Lemma IndexByte_app (s rest : string) (c : ascii) :
  strings.allBytes (fun d => negb (Ascii.eqb d c)) s = true ->
  bufio.IndexByte (s ++ String c rest) c = Some (String.length s).
Proof.
  induction s as [|d s IH]; simpl.
  - now rewrite Ascii.eqb_refl.
  - intros H. apply andb_prop in H. destruct H as [Hd Hs].
    apply negb_true_iff in Hd. now rewrite Hd, (IH Hs).
Qed.

Lemma dropCR_id (s : string) :
  strings.allBytes (fun d => negb (Ascii.eqb d "013"%char)) s = true ->
  bufio.dropCR s = s.
Proof.
  induction s as [|d s IH]; [reflexivity|].
  intros H. simpl in H. apply andb_prop in H. destruct H as [Hd Hs].
  apply negb_true_iff in Hd.
  cbn [bufio.dropCR]. destruct s as [|e s]; [now rewrite Hd|].
  now rewrite (IH Hs).
Qed.

Lemma ScanLines_line (s rest : string) :
  strings.allBytes (fun d => negb (Ascii.eqb d "010"%char)) s = true ->
  strings.allBytes (fun d => negb (Ascii.eqb d "013"%char)) s = true ->
  bufio.ScanLines (s ++ String "010"%char rest) true
  = (S (String.length s), Some s).
Proof.
  intros Hlf Hcr. unfold bufio.ScanLines.
  assert ((String.length (s ++ String "010"%char rest) =? 0)%nat = false)
    as ->.
  { apply Nat.eqb_neq. rewrite length_app. simpl. lia. }
  rewrite andb_false_r, (IndexByte_app _ _ _ Hlf), substring_app_prefix.
  now rewrite (dropCR_id _ Hcr).
Qed.

(** *** The digits that Persist writes *)

Lemma small_cases (P : Z -> Prop) (n : nat) :
  Forall P (map Z.of_nat (seq 0 n)) ->
  forall d, 0 <= d < Z.of_nat n -> P d.
Proof.
  intros H d Hd. rewrite Forall_forall in H. apply H.
  rewrite <- (Z2Nat.id d) by lia. apply in_map, in_seq. lia.
Qed.

Lemma hexDigit_plain (d : Z) :
  0 <= d < 16 ->
  andb (Go.byte (fmt.hexDigit d) <? 128)
       (negb (unicode.IsSpace (Go.byte (fmt.hexDigit d)))) = true.
Proof.
  apply (small_cases
           (fun d => andb (Go.byte (fmt.hexDigit d) <? 128)
                          (negb (unicode.IsSpace (Go.byte (fmt.hexDigit d))))
                     = true) 16).
  repeat constructor.
Qed.

Lemma hex_plain (bytes : list Z) :
  Forall (fun b => 0 <= b < 256) bytes ->
  strings.allBytes
    (fun c => andb (Go.byte c <? 128)
                   (negb (unicode.IsSpace (Go.byte c))))
    (fmt.hex bytes) = true.
Proof.
  induction 1 as [|b bytes Hb _ IH]; [reflexivity|].
  cbn [fmt.hex strings.allBytes].
  rewrite !hexDigit_plain, IH; [reflexivity | |].
  - pose proof (Z.mod_pos_bound b 16). lia.
  - split; [apply Z.div_pos; lia | apply Z.div_lt_upper_bound; lia].
Qed.

Lemma bigEndian_range (n : nat) (x : Z) :
  Forall (fun b => 0 <= b < 256) (sha1.bigEndian n x).
Proof.
  induction n as [|n IH]; simpl; constructor; [|exact IH].
  apply Z.mod_pos_bound. lia.
Qed.

Lemma Sum_bytes (data : string) :
  Forall (fun b => 0 <= b < 256) (sha1.Sum data)
  /\ List.length (sha1.Sum data) = 20%nat.
Proof.
  unfold sha1.Sum.
  destruct (sha1.blocks _ _ _) as [[[[h0 h1] h2] h3] h4].
  split; [|reflexivity].
  repeat (apply Forall_app; split); apply bigEndian_range.
Qed.

Lemma hex_Sum_word (data : string) :
  exists t tok,
    fmt.hex (sha1.Sum data) = String t tok
    /\ strings.allBytes
         (fun c => andb (Go.byte c <? 128)
                        (negb (unicode.IsSpace (Go.byte c))))
         (String t tok) = true.
Proof.
  destruct (Sum_bytes data) as [Hrange Hlen].
  pose proof (hex_plain _ Hrange) as Hplain.
  destruct (sha1.Sum data) as [|b bytes]; [discriminate|].
  cbn [fmt.hex] in *. eauto.
Qed.

Lemma digit_byte (d : Z) :
  0 <= d < 10 -> Go.byte (strconv.digit d) = 48 + d.
Proof.
  apply (small_cases (fun d => Go.byte (strconv.digit d) = 48 + d) 10).
  repeat constructor.
Qed.

Local Abbreviation isDigit :=
  (fun c : ascii => andb (48 <=? Go.byte c) (Go.byte c <=? 57)).

Lemma digit_isDigit (d : Z) : 0 <= d < 10 -> isDigit (strconv.digit d) = true.
Proof.
  intros H. cbv beta. rewrite (digit_byte d H).
  apply andb_true_intro. split; [apply Z.leb_le | apply Z.leb_le]; lia.
Qed.

Lemma formatUintLoop_digits (fuel : nat) :
  forall n acc,
    0 <= n ->
    strings.allBytes isDigit acc = true ->
    strings.allBytes isDigit (strconv.formatUintLoop fuel n acc) = true.
Proof.
  induction fuel as [|fuel IH]; intros n acc Hn Hacc; simpl; [exact Hacc|].
  destruct (Z.ltb_spec n 10).
  - cbn [strings.allBytes]. rewrite digit_isDigit by lia. exact Hacc.
  - apply IH; [apply Z.div_pos; lia|].
    cbn [strings.allBytes]. rewrite digit_isDigit; [exact Hacc|].
    apply Z.mod_pos_bound. lia.
Qed.

Lemma formatUintLoop_nonempty (fuel : nat) :
  forall n acc,
    strconv.formatUintLoop (S fuel) n acc <> EmptyString.
Proof.
  induction fuel as [|fuel IH]; intros n acc.
  - simpl. destruct (n <? 10); discriminate.
  - change (strconv.formatUintLoop (S (S fuel)) n acc)
      with (if n <? 10 then String (strconv.digit n) acc
            else strconv.formatUintLoop (S fuel) (n / 10)
                   (String (strconv.digit (n mod 10)) acc)).
    destruct (n <? 10); [discriminate | apply IH].
Qed.

Lemma parseUintLoop_digit (s0 acc : string) (d m : Z) :
  0 <= d < 10 -> 0 <= m -> m * 10 + d <= strconv.maxUint64 ->
  strconv.parseUintLoop s0 (String (strconv.digit d) acc) m
  = strconv.parseUintLoop s0 acc (m * 10 + d).
Proof.
  intros Hd Hm Hmax. cbn [strconv.parseUintLoop]. cbv zeta.
  rewrite (digit_byte d Hd).
  assert (andb (48 <=? 48 + d) (48 + d <=? 57) = true) as ->.
  { apply andb_true_intro. split; apply Z.leb_le; lia. }
  unfold strconv.maxUint64 in *.
  destruct (Z.leb_spec ((2 ^ 64 - 1) / 10 + 1) m) as [H|H].
  - exfalso. change ((2 ^ 64 - 1) / 10 + 1) with 1844674407370955162 in H.
    change (2 ^ 64 - 1) with 18446744073709551615 in Hmax. lia.
  - replace (48 + d - 48) with d by lia.
    destruct (Z.ltb_spec (2 ^ 64 - 1) (m * 10 + d)); [lia|reflexivity].
Qed.

Lemma parse_format (fuel : nat) :
  forall n acc s0,
    0 <= n < 10 ^ Z.of_nat fuel -> n <= strconv.maxUint64 ->
    strconv.parseUintLoop s0 (strconv.formatUintLoop fuel n acc) 0
    = strconv.parseUintLoop s0 acc n.
Proof.
  induction fuel as [|fuel IH]; intros n acc s0 Hn Hmax.
  - simpl in Hn. assert (n = 0) as -> by lia. reflexivity.
  - cbn [strconv.formatUintLoop].
    destruct (Z.ltb_spec n 10).
    + rewrite parseUintLoop_digit; [f_equal; lia | lia | lia | lia].
    + rewrite Nat2Z.inj_succ, Z.pow_succ_r in Hn by lia.
      rewrite IH.
      * rewrite parseUintLoop_digit.
        -- f_equal. pose proof (Z.div_mod n 10). lia.
        -- apply Z.mod_pos_bound. lia.
        -- apply Z.div_pos; lia.
        -- pose proof (Z.div_mod n 10). lia.
      * split; [apply Z.div_pos; lia | apply Z.div_lt_upper_bound; lia].
      * pose proof (Z.div_mod n 10). pose proof (Z.mod_pos_bound n 10).
        assert (0 <= n / 10) by (apply Z.div_pos; lia). lia.
Qed.

Lemma ParseUint_FormatUint (n : Z) :
  0 <= n <= strconv.maxUint64 ->
  strconv.ParseUint (strconv.FormatUint n) = (n, None).
Proof.
  intros Hn. unfold strconv.ParseUint, strconv.FormatUint.
  pose proof (formatUintLoop_nonempty 19 n EmptyString) as Hne.
  destruct (strconv.formatUintLoop 20 n EmptyString) as [|c s] eqn:E;
    [congruence|].
  rewrite <- E, parse_format; [reflexivity | | lia].
  unfold strconv.maxUint64 in Hn.
  change (2 ^ 64 - 1) with 18446744073709551615 in Hn.
  change (10 ^ Z.of_nat 20) with 100000000000000000000. lia.
Qed.

Lemma FormatUint_digits (n : Z) :
  0 <= n ->
  exists c s, strconv.FormatUint n = String c s
              /\ strings.allBytes isDigit (String c s) = true.
Proof.
  intros Hn. unfold strconv.FormatUint.
  pose proof (formatUintLoop_nonempty 19 n EmptyString) as Hne.
  pose proof (formatUintLoop_digits 20 n EmptyString Hn eq_refl) as Hd.
  destruct (strconv.formatUintLoop 20 n EmptyString) as [|c s];
    [congruence | eauto].
Qed.

(** The decimal form of an int64 parses back to it. *)
Lemma ParseInt_FormatInt (i : Z) :
  - 2 ^ 63 <= i < 2 ^ 63 ->
  strconv.ParseInt (strconv.FormatInt i) = Go.Ok i.
Proof.
  intros Hi. unfold strconv.FormatInt.
  assert (strconv.maxUint64 = 18446744073709551615) as Hmax by reflexivity.
  change (2 ^ 63) with 9223372036854775808 in Hi.
  destruct (Z.ltb_spec i 0).
  - unfold strconv.ParseInt.
    change (Ascii.eqb "-" "+") with false. change (Ascii.eqb "-" "-") with true.
    cbv iota. rewrite ParseUint_FormatUint by lia.
    cbv zeta. cbn [negb andb].
    change (2 ^ 63) with 9223372036854775808.
    destruct (Z.ltb_spec 9223372036854775808 (- i)); [lia|]. f_equal. lia.
  - destruct (FormatUint_digits i) as [c [s [E Hd]]]; [lia|].
    pose proof (ParseUint_FormatUint i) as Hp. rewrite E in *.
    unfold strconv.ParseInt.
    cbn [strings.allBytes] in Hd. apply andb_prop in Hd.
    destruct Hd as [Hc _]. apply andb_prop in Hc. destruct Hc as [H1 H2].
    apply Z.leb_le in H1, H2.
    assert (Ascii.eqb c "+" = false) as ->.
    { apply Ascii.eqb_neq. intros ->. vm_compute in H1. congruence. }
    assert (Ascii.eqb c "-" = false) as ->.
    { apply Ascii.eqb_neq. intros ->. vm_compute in H1. congruence. }
    rewrite Hp by lia. cbv zeta. cbn [negb andb].
    change (2 ^ 63) with 9223372036854775808.
    destruct (Z.leb_spec 9223372036854775808 i); [lia | reflexivity].
Qed.

Lemma FormatInt_line (i : Z) :
  strings.allBytes (fun d => negb (Ascii.eqb d "010"%char))
                   (strconv.FormatInt i) = true
  /\ strings.allBytes (fun d => negb (Ascii.eqb d "013"%char))
                      (strconv.FormatInt i) = true.
Proof.
  assert (forall s, strings.allBytes isDigit s = true ->
                    strings.allBytes (fun d => negb (Ascii.eqb d "010"%char)) s
                    = true
                    /\ strings.allBytes
                         (fun d => negb (Ascii.eqb d "013"%char)) s = true)
    as Hdigits.
  { induction s as [|c s IH]; [auto|]. cbn [strings.allBytes].
    intros H. apply andb_prop in H. destruct H as [Hc Hs].
    destruct (IH Hs) as [-> ->].
    apply andb_prop in Hc. destruct Hc as [H1 H2]. apply Z.leb_le in H1, H2.
    assert (Ascii.eqb c "010" = false) as ->.
    { apply Ascii.eqb_neq. intros ->. vm_compute in H1. congruence. }
    assert (Ascii.eqb c "013" = false) as ->.
    { apply Ascii.eqb_neq. intros ->. vm_compute in H1. congruence. }
    auto. }
  unfold strconv.FormatInt. destruct (Z.ltb_spec i 0).
  - cbn [strings.allBytes].
    destruct (Hdigits (strconv.FormatUint (- i))) as [-> ->]; [|auto].
    apply formatUintLoop_digits; [lia | reflexivity].
  - apply Hdigits. apply formatUintLoop_digits; [lia | reflexivity].
Qed.

(** *** The paths of the four files are distinct *)

Lemma eqb_append (p a b : string) :
  String.eqb (p ++ a) (p ++ b) = String.eqb a b.
Proof.
  destruct (String.eqb_spec a b) as [->|Hne].
  - apply String.eqb_refl.
  - apply String.eqb_neq. intros E. apply Hne.
    induction p as [|c p IH]; simpl in E; [exact E|].
    injection E as E. exact (IH E).
Qed.

Lemma eqb_append_self (p a : string) :
  a <> EmptyString ->
  String.eqb (p ++ a) p = false /\ String.eqb p (p ++ a) = false.
Proof.
  intros Ha.
  assert (p ++ a <> p) as Hne.
  { intros E. apply (f_equal String.length) in E. rewrite length_app in E.
    destruct a; [congruence | simpl in E; lia]. }
  split; apply String.eqb_neq; congruence.
Qed.

Lemma eqb_append_self_l (p a : string) :
  a <> EmptyString -> String.eqb (p ++ a) p = false.
Proof. intros H. apply (eqb_append_self p a H). Qed.

Lemma eqb_append_self_r (p a : string) :
  a <> EmptyString -> String.eqb p (p ++ a) = false.
Proof. intros H. apply (eqb_append_self p a H). Qed.

Ltac paths :=
  repeat first
    [ rewrite String.eqb_refl
    | rewrite eqb_append
    | rewrite eqb_append_self_l by discriminate
    | rewrite eqb_append_self_r by discriminate ];
  cbn [String.eqb Ascii.eqb Bool.eqb andb].

Section PersistVerify.

Import v1compat graderInput.

Lemma getStoredHash_written (fs : FileSystem) (input : graderBaseInput)
      (data rest : string) :
  fs (archivePath input ++ ".sha1")
  = Some (fmt.hex (sha1.Sum data) ++ String " " rest) ->
  getStoredHash fs input = Go.Ok (fmt.hex (sha1.Sum data)).
Proof.
  intros Hfs. unfold getStoredHash, open. rewrite Hfs. simpl Go.bind.
  destruct (hex_Sum_word data) as [t [tok [E Hplain]]]. rewrite E.
  unfold bufio.Scan, bufio.NewScanner. cbn [bufio.split bufio.buf].
  unfold bufio.ScanWords.
  rewrite (scanRunes_first_word unicode.IsSpace t tok " " rest Hplain);
    [reflexivity | reflexivity | reflexivity].
Qed.

Lemma getStoredLength_written (fs : FileSystem) (input : graderBaseInput)
      (n : Z) :
  - 2 ^ 63 <= n < 2 ^ 63 ->
  fs (archivePath input ++ ".len")
  = Some (strconv.FormatInt n ++ Go.newline) ->
  getStoredLength fs input = Go.Ok n.
Proof.
  intros Hn Hfs. unfold getStoredLength, open. rewrite Hfs. simpl Go.bind.
  unfold bufio.Scan, bufio.NewScanner. cbn [bufio.split bufio.buf].
  destruct (FormatInt_line n) as [Hlf Hcr]. unfold Go.newline.
  rewrite (ScanLines_line _ _ Hlf Hcr). cbn [bufio.Text bufio.token].
  apply ParseInt_FormatInt, Hn.
Qed.

Lemma Persist_result (fs : FileSystem) (input : graderBaseInput)
      (archive : string) (settings : ProblemSettings.t) (n : Z) :
  let out := Persist fs input (Some archive) (Go.Ok (settings, n)) in
  snd out
  = Go.Ok ({| archivePath := archivePath input;
              storedHash := fmt.hex (sha1.Sum archive);
              uncompressedSize := n;
              committed := Some (Z.of_nat (String.length archive)) |},
           settings)
  /\ fst out (archivePath input) = Some archive
  /\ fst out (archivePath input ++ ".tmp") = None
  /\ fst out (archivePath input ++ ".sha1")
     = Some (fmt.hex (sha1.Sum archive) ++ " *"
             ++ path.Base (archivePath input) ++ Go.newline)
  /\ fst out (archivePath input ++ ".len")
     = Some (strconv.FormatInt n ++ Go.newline)
  /\ forall p, p <> archivePath input
               -> p <> archivePath input ++ ".tmp"
               -> p <> archivePath input ++ ".sha1"
               -> p <> archivePath input ++ ".len"
               -> fst out p = fs p.
Proof.
  unfold Persist, statSize, Sha1sum, open, rename, remove, writeFile.
  cbv zeta. paths. simpl Go.bind. cbv iota beta. paths.
  cbn [fst snd]. paths.
  repeat split.
  intros p H1 H2 H3 H4.
  apply String.eqb_neq in H1, H2, H3, H4. now rewrite H1, H2, H3, H4.
Qed.

End PersistVerify.

Lemma parseUintLoop_nonneg (s0 s : string) :
  forall m, 0 <= m -> 0 <= fst (strconv.parseUintLoop s0 s m).
Proof.
  induction s as [|c s IH]; intros m Hm; cbn [strconv.parseUintLoop];
    [exact Hm|]. cbv zeta.
  destruct (andb (48 <=? Go.byte c) (Go.byte c <=? 57)) eqn:Ed;
    [|simpl; lia].
  apply andb_prop in Ed. destruct Ed as [H1 _]. apply Z.leb_le in H1.
  destruct (strconv.maxUint64 / 10 + 1 <=? m); [simpl; easy|].
  destruct (strconv.maxUint64 <? m * 10 + (Go.byte c - 48)); [simpl; easy|].
  apply IH. lia.
Qed.

(** What ParseInt returns is an int64. *)
Lemma ParseInt_range (s : string) (n : Z) :
  strconv.ParseInt s = Go.Ok n -> - 2 ^ 63 <= n < 2 ^ 63.
Proof.
  unfold strconv.ParseInt. destruct s as [|c s]; [discriminate|].
  assert (forall body, 0 <= fst (strconv.ParseUint body)) as Hnn.
  { intros body. unfold strconv.ParseUint.
    destruct body; [simpl; lia | now apply parseUintLoop_nonneg]. }
  change (2 ^ 63) with 9223372036854775808.
  destruct (Ascii.eqb c "+").
  - specialize (Hnn s). destruct (strconv.ParseUint s) as [un [[]|]];
      cbv zeta; cbn [negb andb fst] in *; try discriminate;
      destruct (Z.leb_spec 9223372036854775808 un); try discriminate;
      intros E; injection E as <-; lia.
  - destruct (Ascii.eqb c "-").
    + specialize (Hnn s). destruct (strconv.ParseUint s) as [un [[]|]];
        cbv zeta; cbn [negb andb fst] in *; try discriminate;
        destruct (Z.ltb_spec 9223372036854775808 un); try discriminate;
        intros E; injection E as <-; lia.
    + specialize (Hnn (String c s)).
      destruct (strconv.ParseUint (String c s)) as [un [[]|]];
        cbv zeta; cbn [negb andb fst] in *; try discriminate;
        destruct (Z.leb_spec 9223372036854775808 un); try discriminate;
        intros E; injection E as <-; lia.
Qed.

(** X19.  What Persist writes, Verify accepts.  When the archive has been
    created, with its contents in the temporary file and an uncompressed
    size that is an int64, Persist succeeds; afterwards the archive is
    under its final path, the temporary file is gone, and Verify on the
    resulting cache directory succeeds and leaves in the input exactly
    the hash, the uncompressed size and the committed size that Persist
    left there. *)
Theorem Persist_then_Verify
        (fs : v1compat.FileSystem) (input : v1compat.graderBaseInput)
        (archive : string) (settings : v1compat.ProblemSettings.t) (n : Z) :
  - 2 ^ 63 <= n < 2 ^ 63 ->
  exists fs' input',
    graderInput.Persist fs input (Some archive) (Go.Ok (settings, n))
    = (fs', Go.Ok (input', settings))
    /\ v1compat.storedHash input' = fmt.hex (sha1.Sum archive)
    /\ v1compat.uncompressedSize input' = n
    /\ fs' (v1compat.archivePath input) = Some archive
    /\ fs' (v1compat.archivePath input ++ ".tmp") = None
    /\ v1compat.Verify fs' input' = Go.Ok input'.
Proof.
  intros Hn.
  destruct (Persist_result fs input archive settings n)
    as [Hres [Harchive [Htmp [Hsha [Hlen _]]]]].
  destruct (graderInput.Persist fs input (Some archive) (Go.Ok (settings, n)))
    as [fs' result]. cbn [fst snd] in *. subst result.
  do 2 eexists. split; [reflexivity|]. cbn [v1compat.storedHash
    v1compat.uncompressedSize].
  repeat split; try assumption.
  apply Verify_Ok. exists archive, n. cbn [v1compat.archivePath].
  repeat split; try assumption.
  - apply (getStoredHash_written fs' _ archive _ Hsha).
  - apply (getStoredLength_written fs' _ n Hn Hlen).
Qed.

Lemma Persist_then_Verify_witness :
  exists fs' input',
    graderInput.Persist (fun _ => None) v1compat.exampleInput
                        (Some v1compat.exampleArchive)
                        (Go.Ok (v1compat.settingsWithTolerance, 1536))
    = (fs', Go.Ok (input', v1compat.settingsWithTolerance))
    /\ v1compat.storedHash input'
       = fmt.hex (sha1.Sum v1compat.exampleArchive)
    /\ v1compat.uncompressedSize input' = 1536
    /\ fs' (v1compat.archivePath v1compat.exampleInput)
       = Some v1compat.exampleArchive
    /\ fs' (v1compat.archivePath v1compat.exampleInput ++ ".tmp") = None
    /\ v1compat.Verify fs' input' = Go.Ok input'.
Proof.
  apply (Persist_then_Verify (fun _ => None) v1compat.exampleInput
                             v1compat.exampleArchive
                             v1compat.settingsWithTolerance 1536).
  split; [vm_compute; discriminate | reflexivity].
Defined.

(** X20.  After Delete none of the four files of the input is in the cache
    directory, every other file is as it was, the error is the one of
    removing the archive itself, and Verify fails because the archive
    does not exist. *)
Theorem Delete_removes_input
        (fs : v1compat.FileSystem) (input : v1compat.graderBaseInput) :
  let p := v1compat.archivePath input in
  let fs' := fst (graderInput.Delete fs input) in
  fs' p = None /\ fs' (p ++ ".tmp") = None
  /\ fs' (p ++ ".sha1") = None /\ fs' (p ++ ".len") = None
  /\ (forall q, q <> p -> q <> p ++ ".tmp" -> q <> p ++ ".sha1"
                -> q <> p ++ ".len" -> fs' q = fs q)
  /\ snd (graderInput.Delete fs input)
     = match fs p with
       | Some _ => None
       | None => Some (Go.ErrNotExist p)
       end
  /\ v1compat.Verify fs' input = Go.Err (Go.ErrNotExist p).
Proof.
  cbv zeta.
  unfold graderInput.Delete, graderInput.remove, v1compat.Verify,
    v1compat.statSize, v1compat.open.
  cbn [fst snd]. paths.
  repeat split.
  intros q H1 H2 H3 H4.
  apply String.eqb_neq in H1, H2, H3, H4. now rewrite H1, H2, H3, H4.
Qed.

(** X21.  What Transmit sends for an input that Verify has accepted: the body
    is the archive, the header Content-SHA1 is the hexadecimal SHA-1 of
    that body, and the header X-Content-Uncompressed-Size is a decimal
    number that parses back to the uncompressed size of the input. *)
Theorem Verify_then_Transmit
        (fs : v1compat.FileSystem)
        (input input' : v1compat.graderBaseInput) :
  v1compat.Verify fs input = Go.Ok input' ->
  exists resp,
    graderInput.Transmit fs input' = Go.Ok resp
    /\ fs (v1compat.archivePath input) = Some (graderInput.body resp)
    /\ graderInput.ContentSHA1 resp
       = fmt.hex (sha1.Sum (graderInput.body resp))
    /\ strconv.ParseInt (graderInput.XContentUncompressedSize resp)
       = Go.Ok (v1compat.uncompressedSize input').
Proof.
  intros Hv. apply Verify_Ok in Hv.
  destruct Hv as [archive [n [Ha [_ [Hlen ->]]]]].
  unfold graderInput.Transmit, v1compat.open. cbn [v1compat.archivePath].
  rewrite Ha. simpl Go.bind. eexists. split; [reflexivity|].
  cbn [graderInput.body graderInput.ContentSHA1
       graderInput.XContentUncompressedSize
       v1compat.storedHash v1compat.uncompressedSize].
  repeat split. apply ParseInt_FormatInt.
  unfold v1compat.getStoredLength in Hlen.
  destruct (v1compat.open fs _) as [lenFd|]; [|discriminate].
  simpl Go.bind in Hlen.
  destruct (bufio.Scan _) as [[|] s]; [|discriminate].
  apply (ParseInt_range _ _ Hlen).
Qed.

Lemma Verify_then_Transmit_witness :
  exists resp,
    graderInput.Transmit (v1compat.exampleCache "1536")
                         {| v1compat.archivePath := "cache/ab/cdef.tar.gz";
                            v1compat.storedHash :=
                              fmt.hex (sha1.Sum v1compat.exampleArchive);
                            v1compat.uncompressedSize := 1536;
                            v1compat.committed := Some 20 |}
    = Go.Ok resp
    /\ v1compat.exampleCache "1536"
                             (v1compat.archivePath v1compat.exampleInput)
       = Some (graderInput.body resp)
    /\ graderInput.ContentSHA1 resp
       = fmt.hex (sha1.Sum (graderInput.body resp))
    /\ strconv.ParseInt (graderInput.XContentUncompressedSize resp)
       = Go.Ok 1536.
Proof.
  apply (Verify_then_Transmit (v1compat.exampleCache "1536")
                              v1compat.exampleInput).
  vm_compute. reflexivity.
Defined.

(** ** CreateArchiveFromGit: the groups of the settings *)

Section BuildCases.

Import v1compat.

Lemma v1_mapSet_In {V} (k k' : string) (v v' : V) (m : list (string * V)) :
  In (k', v') (mapSet k v m) -> (k' = k /\ v' = v) \/ In (k', v') m.
Proof.
  induction m as [|[k0 v0] m IH]; simpl.
  - intros [E|[]]. injection E as <- <-. auto.
  - destruct (String.eqb_spec k0 k) as [->|Hne]; simpl.
    + intros [E|H]; [injection E as <- <-; auto | auto].
    + intros [E|H]; [auto|]. destruct (IH H); auto.
Qed.

Lemma v1_mapGet_In {V} (k : string) (v : V) (m : list (string * V)) :
  mapGet m k = Some v -> In (k, v) m.
Proof.
  induction m as [|[k0 v0] m IH]; simpl; [discriminate|].
  destruct (String.eqb_spec k0 k) as [->|Hne].
  - intros E. injection E as <-. now left.
  - intros E. right. exact (IH E).
Qed.

Lemma v1_mapGet_mapSet_same {V} (k : string) (v : V) (m : list (string * V)) :
  mapGet (mapSet k v m) k = Some v.
Proof.
  induction m as [|[k' v'] m IH]; simpl.
  - now rewrite String.eqb_refl.
  - destruct (String.eqb_spec k' k) as [->|Hne]; simpl.
    + now rewrite String.eqb_refl.
    + apply String.eqb_neq in Hne. now rewrite Hne.
Qed.

Lemma v1_mapGet_mapSet_other {V} (k k' : string) (v : V)
      (m : list (string * V)) :
  k <> k' -> mapGet (mapSet k v m) k' = mapGet m k'.
Proof.
  intros Hne. induction m as [|[k0 v0] m IH]; simpl.
  - apply String.eqb_neq in Hne. now rewrite Hne.
  - destruct (String.eqb_spec k0 k) as [->|Hne0]; simpl.
    + apply String.eqb_neq in Hne. now rewrite Hne.
    + destruct (String.eqb k0 k'); [reflexivity | exact IH].
Qed.

Lemma insertBy_In {A} (key : A -> string) (x y : A) (l : list A) :
  In x (insertBy key y l) <-> x = y \/ In x l.
Proof.
  induction l as [|z l IH]; simpl.
  - split; intros [H|H]; auto.
  - destruct (String.ltb (key z) (key y)); simpl.
    + rewrite IH. split; intros H; intuition auto.
    + split; intros H; intuition auto.
Qed.

Lemma sortBy_In {A} (key : A -> string) (x : A) (l : list A) :
  In x (sortBy key l) <-> In x l.
Proof.
  unfold sortBy. induction l as [|y l IH]; simpl; [tauto|].
  rewrite insertBy_In, IH. split; intros [H|H]; auto.
Qed.

Variable total : Float64.float64.

(** What the loop over the raw weights keeps of the map [cases]. *)
Lemma addCase_fold (rangeCases : list (string * Float64.float64)) :
  forall done cases groupWeights,
    (forall k cs c,
        In (k, cs) cases -> In c cs ->
        k = groupNameOf (CaseSettings.Name c)
        /\ exists w, In (CaseSettings.Name c, w) done
                     /\ CaseSettings.Weight c = Float64.div w total) ->
    (forall name w,
        In (name, w) done ->
        exists cs, mapGet cases (groupNameOf name) = Some cs
                   /\ In (CaseSettings.mk name (Float64.div w total)) cs) ->
    let cases' :=
      fst (fold_left (addCase total) rangeCases (cases, groupWeights)) in
    (forall k cs c,
        In (k, cs) cases' -> In c cs ->
        k = groupNameOf (CaseSettings.Name c)
        /\ exists w, In (CaseSettings.Name c, w) (done ++ rangeCases)%list
                     /\ CaseSettings.Weight c = Float64.div w total)
    /\ (forall name w,
           In (name, w) (done ++ rangeCases)%list ->
           exists cs, mapGet cases' (groupNameOf name) = Some cs
                      /\ In (CaseSettings.mk name (Float64.div w total)) cs).
Proof.
  induction rangeCases as [|[caseName weight] rest IH];
    intros done cases groupWeights Hsound Hcomplete; cbn [fold_left].
  - rewrite app_nil_r. simpl. auto.
  - replace (done ++ (caseName, weight) :: rest)%list
      with ((done ++ [(caseName, weight)]) ++ rest)%list
      by (now rewrite <- app_assoc).
    unfold addCase at 2. apply IH.
    + intros k cs c Hin Hc. apply v1_mapSet_In in Hin.
      destruct Hin as [[-> ->]|Hin].
      * apply in_app_or in Hc. destruct Hc as [Hc|[<-|[]]].
        -- destruct (mapGet cases (groupNameOf caseName)) as [old|] eqn:Eo;
             [|destruct Hc].
           apply v1_mapGet_In in Eo.
           destruct (Hsound _ _ _ Eo Hc) as [Hk [w [Hw Hwt]]].
           split; [exact Hk|]. exists w. split; [|exact Hwt].
           apply in_or_app. now left.
        -- simpl. split; [reflexivity|]. exists weight.
           split; [|reflexivity]. apply in_or_app. right. now left.
      * destruct (Hsound _ _ _ Hin Hc) as [Hk [w [Hw Hwt]]].
        split; [exact Hk|]. exists w. split; [|exact Hwt].
        apply in_or_app. now left.
    + intros name w Hin. apply in_app_or in Hin.
      destruct Hin as [Hin|[E|[]]].
      * destruct (Hcomplete _ _ Hin) as [cs [Hget Hc]].
        destruct (string_dec (groupNameOf caseName) (groupNameOf name))
          as [E|Hne].
        -- rewrite <- E in *. rewrite v1_mapGet_mapSet_same, Hget.
           eexists. split; [reflexivity|]. apply in_or_app. now left.
        -- rewrite (v1_mapGet_mapSet_other _ _ _ _ Hne). eauto.
      * injection E as <- <-. rewrite v1_mapGet_mapSet_same.
        eexists. split; [reflexivity|]. apply in_or_app. right. now left.
Qed.

End BuildCases.

(** X22.  CreateArchiveFromGit puts every case into the group named by the
    part of its name before the first dot, with its weight divided by the
    total weight, and loses no case: the cases of the groups of
    settings.Cases are those of the raw weights, whatever the order in
    which the map is ranged over. *)
Theorem buildCases_groups_by_prefix
        (rangeTotal rangeCases : list (string * Float64.float64)) :
  let cases := v1compat.buildCases rangeTotal rangeCases in
  let total := v1compat.totalWeight rangeTotal in
  (forall g c,
      In g cases -> In c (v1compat.GroupSettings.Cases g) ->
      v1compat.GroupSettings.Name g
      = v1compat.groupNameOf (v1compat.CaseSettings.Name c)
      /\ exists w, In (v1compat.CaseSettings.Name c, w) rangeCases
                   /\ v1compat.CaseSettings.Weight c = Float64.div w total)
  /\ (forall name w,
         In (name, w) rangeCases ->
         exists g,
           In g cases
           /\ v1compat.GroupSettings.Name g = v1compat.groupNameOf name
           /\ In (v1compat.CaseSettings.mk name (Float64.div w total))
                 (v1compat.GroupSettings.Cases g)).
Proof.
  cbv zeta. unfold v1compat.buildCases.
  pose proof (addCase_fold (v1compat.totalWeight rangeTotal) rangeCases
                [] [] []) as H.
  cbv zeta in H. simpl app in H.
  destruct H as [Hsound Hcomplete].
  { intros k cs c []. }
  { intros name w []. }
  destruct (fold_left _ rangeCases _) as [cases groupWeights].
  cbn [fst] in *. split.
  - intros g c Hg Hc. apply sortBy_In, in_map_iff in Hg.
    destruct Hg as [[k cs] [<- Hin]]. cbn [fst snd
      v1compat.GroupSettings.Cases v1compat.GroupSettings.Name] in *.
    apply sortBy_In in Hc. exact (Hsound k cs c Hin Hc).
  - intros name w Hin. destruct (Hcomplete name w Hin) as [cs [Hget Hc]].
    apply v1_mapGet_In in Hget.
    eexists. split; [|split].
    + apply sortBy_In, in_map_iff. eexists. split; [reflexivity|exact Hget].
    + reflexivity.
    + cbn [snd v1compat.GroupSettings.Cases]. apply sortBy_In. exact Hc.
Qed.

(** ** The verdict of the run *)

Lemma worseVerdict_Some (L : list string) (a b v : string) :
  runner.worseVerdict L a b = Some v ->
  In a L /\ In b L /\ (v = a \/ v = b)
  /\ runner.idx L v <= runner.idx L a /\ runner.idx L v <= runner.idx L b.
Proof.
  intros E.
  destruct (in_dec string_dec a L) as [Ha|Ha];
    [destruct (in_dec string_dec b L) as [Hb|Hb]|].
  - rewrite (worseVerdict_members L a b Ha Hb) in E. injection E as <-.
    repeat split; try assumption;
      destruct (Z.ltb_spec (runner.idx L a) (runner.idx L b)); auto; lia.
  - assert (runner.worseVerdict L a b = None) as N
        by (apply worseVerdict_panics; tauto).
    congruence.
  - assert (runner.worseVerdict L a b = None) as N
        by (apply worseVerdict_panics; tauto).
    congruence.
Qed.

Lemma worseVerdict_absorbs (L : list string) (a b : string) :
  In a L -> In b L -> runner.idx L a <= runner.idx L b ->
  runner.worseVerdict L a b = Some a.
Proof.
  intros Ha Hb Hle. rewrite (worseVerdict_members L a b Ha Hb).
  destruct (Z.ltb_spec (runner.idx L a) (runner.idx L b)); [reflexivity|].
  f_equal. symmetry. apply (idx_inj L); [assumption..|lia].
Qed.

Section RunVerdict.

Import runner Grade GradeLoops.

Variable VerdictList : list string.
Variable regularBinaryCount : Z.
Variable overallWallTimeLimit : Float64.float64.
Variable language : string.
Variable outputOnlyFiles : list (string * outputonly.outputOnlyFile).
Variable arrivals : string -> list intermediateRunResult.
Variable factor : Rat.Rat.
Variable groupWeight : GroupSettings.t -> Rat.Rat.

Local Abbreviation rCase :=
  (runCase VerdictList regularBinaryCount overallWallTimeLimit language
           outputOnlyFiles arrivals factor).
Local Abbreviation rCases :=
  (runCases VerdictList regularBinaryCount overallWallTimeLimit language
            outputOnlyFiles arrivals factor).
Local Abbreviation rGroups :=
  (runGroups VerdictList regularBinaryCount overallWallTimeLimit language
             outputOnlyFiles arrivals factor groupWeight).
Local Abbreviation below v :=
  (fun cr : CaseResult.t =>
     In (CaseResult.Verdict cr) VerdictList
     /\ idx VerdictList v <= idx VerdictList (CaseResult.Verdict cr)).

Lemma runCase_verdict (rr : RunResult.t) (files : list string)
      (c : CaseSettings.t) (rr' : RunResult.t) (files' : list string)
      (cr : CaseResult.t) :
  rCase rr files c = Some (rr', files', cr) ->
  In (RunResult.Verdict rr) VerdictList
  /\ In (RunResult.Verdict rr') VerdictList
  /\ (RunResult.Verdict rr' = RunResult.Verdict rr
      \/ RunResult.Verdict rr' = CaseResult.Verdict cr)
  /\ idx VerdictList (RunResult.Verdict rr')
     <= idx VerdictList (RunResult.Verdict rr)
  /\ below (RunResult.Verdict rr') cr.
Proof.
  unfold runCase.
  destruct (execute _ _ _ _ _ _ _ _ _) as [[[m ind] fs]|]; [|discriminate].
  destruct (worseVerdict VerdictList (RunResult.Verdict rr)
                         (RunMetadata.Verdict m)) as [v|] eqn:Ew;
    [|discriminate].
  intros E. injection E as <- <- <-. simpl.
  pose proof (worseVerdict_In _ _ _ _ Ew) as Hv.
  apply worseVerdict_Some in Ew.
  destruct Ew as [Ha [Hb [Hor [La Lb]]]]. auto 10.
Qed.

Lemma runCases_verdict (cases : list CaseSettings.t) :
  forall rr files rr' files' crs,
    In (RunResult.Verdict rr) VerdictList ->
    rCases rr files cases = Some (rr', files', crs) ->
    In (RunResult.Verdict rr') VerdictList
    /\ idx VerdictList (RunResult.Verdict rr')
       <= idx VerdictList (RunResult.Verdict rr)
    /\ (RunResult.Verdict rr' = RunResult.Verdict rr
        \/ exists cr, In cr crs
                      /\ RunResult.Verdict rr' = CaseResult.Verdict cr)
    /\ Forall (below (RunResult.Verdict rr')) crs.
Proof.
  induction cases as [|c cases IH]; intros rr files rr' files' crs Hin;
    cbn [runCases].
  - intros E. injection E as <- <- <-. repeat split; auto; lia.
  - destruct (rCase rr files c) as [[[rr1 f1] cr]|] eqn:E1; [|discriminate].
    destruct (rCases rr1 f1 cases) as [[[rr2 f2] crs2]|] eqn:E2;
      [|discriminate].
    intros E. injection E as <- <- <-.
    apply runCase_verdict in E1.
    destruct E1 as [_ [Hv1 [Hor1 [Hle1 [Hcr Hb1]]]]].
    apply IH in E2; [|exact Hv1].
    destruct E2 as [Hv2 [Hle2 [Hor2 Hall]]].
    repeat split.
    + exact Hv2.
    + lia.
    + destruct Hor2 as [E2|[cr' [Hin' E2]]].
      * destruct Hor1 as [E1|E1]; [left; congruence|].
        right. exists cr. split; [now left | congruence].
      * right. exists cr'. split; [now right | exact E2].
    + constructor; [split; [exact Hcr | lia] | exact Hall].
Qed.

Lemma runGroups_verdict (groups : list GroupSettings.t) :
  forall rr files rr' files' grs,
    In (RunResult.Verdict rr) VerdictList ->
    rGroups rr files groups = Some (rr', files', grs) ->
    In (RunResult.Verdict rr') VerdictList
    /\ idx VerdictList (RunResult.Verdict rr')
       <= idx VerdictList (RunResult.Verdict rr)
    /\ (RunResult.Verdict rr' = RunResult.Verdict rr
        \/ exists gr cr, In gr grs /\ In cr (GroupResult.Cases gr)
                         /\ RunResult.Verdict rr' = CaseResult.Verdict cr)
    /\ Forall (fun gr => Forall (below (RunResult.Verdict rr'))
                                (GroupResult.Cases gr)) grs.
Proof.
  induction groups as [|g groups IH]; intros rr files rr' files' grs Hin;
    cbn [runGroups].
  - intros E. injection E as <- <- <-. repeat split; auto; lia.
  - destruct (rCases rr files (GroupSettings.Cases g))
      as [[[rr1 f1] crs]|] eqn:E1; [|discriminate].
    destruct (rGroups rr1 f1 groups) as [[[rr2 f2] grs2]|] eqn:E2;
      [|discriminate].
    intros E. injection E as <- <- <-.
    apply runCases_verdict in E1; [|exact Hin].
    destruct E1 as [Hv1 [Hle1 [Hor1 Hall1]]].
    apply IH in E2; [|exact Hv1].
    destruct E2 as [Hv2 [Hle2 [Hor2 Hall2]]].
    repeat split.
    + exact Hv2.
    + lia.
    + destruct Hor2 as [E2|[gr [cr [Hg [Hc E2]]]]].
      * destruct Hor1 as [E1|[cr [Hc E1]]]; [left; congruence|].
        right. eexists. exists cr.
        split; [now left | split; [exact Hc | congruence]].
      * right. exists gr, cr. split; [now right | auto].
    + constructor; [|exact Hall2]. simpl.
      eapply Forall_impl; [|exact Hall1].
      intros cr [Hc Hle]. split; [exact Hc | lia].
Qed.

End RunVerdict.

(** X23.  The verdict that the run loop leaves in the run result is the worst
    verdict met: it is OK or the verdict of one of the cases, and
    worseVerdict of it and OK, and of it and the verdict of any case,
    gives it back. *)
Theorem runLoop_verdict_is_worst
        (VerdictList : list string) (regularBinaryCount : Z)
        (overallWallTimeLimit : Float64.float64) (language : string)
        (outputOnlyFiles : list (string * outputonly.outputOnlyFile))
        (arrivals : string -> list Grade.intermediateRunResult)
        (factor : Rat.Rat) (groupWeight : GroupSettings.t -> Rat.Rat)
        (runResult : RunResult.t) (generatedFiles : list string)
        (groups : list GroupSettings.t)
        (runResult' : RunResult.t) (generatedFiles' : list string)
        (groupResults : list GroupResult.t) :
  In "OK" VerdictList ->
  GradeLoops.runLoop VerdictList regularBinaryCount overallWallTimeLimit
                     language outputOnlyFiles arrivals factor groupWeight
                     runResult generatedFiles groups
  = Some (runResult', generatedFiles', groupResults) ->
  let verdict := RunResult.Verdict runResult' in
  (verdict = "OK"
   \/ exists gr cr, In gr groupResults /\ In cr (GroupResult.Cases gr)
                    /\ verdict = CaseResult.Verdict cr)
  /\ runner.worseVerdict VerdictList verdict "OK" = Some verdict
  /\ forall gr cr,
       In gr groupResults -> In cr (GroupResult.Cases gr) ->
       runner.worseVerdict VerdictList verdict (CaseResult.Verdict cr)
       = Some verdict.
Proof.
  intros Hok Hrun. unfold GradeLoops.runLoop in Hrun.
  apply runGroups_verdict in Hrun; [|exact Hok]. simpl in Hrun.
  destruct Hrun as [Hv [Hle [Hor Hall]]]. cbv zeta.
  split; [exact Hor|]. split.
  - apply worseVerdict_absorbs; assumption.
  - intros gr cr Hg Hc. rewrite Forall_forall in Hall.
    pose proof (Hall gr Hg) as Hcases. rewrite Forall_forall in Hcases.
    destruct (Hcases cr Hc) as [Hin Hle'].
    apply worseVerdict_absorbs; assumption.
Qed.

Lemma runLoop_verdict_is_worst_witness :
  exists runResult' groupResults,
    (RunResult.Verdict runResult' = "OK"
     \/ exists gr cr, In gr groupResults /\ In cr (GroupResult.Cases gr)
                      /\ RunResult.Verdict runResult'
                         = CaseResult.Verdict cr)
    /\ runner.worseVerdict ["JE"; "RTE"; "TLE"; "WA"; "PA"; "AC"; "OK"]
                           (RunResult.Verdict runResult') "OK"
       = Some (RunResult.Verdict runResult')
    /\ forall gr cr,
         In gr groupResults -> In cr (GroupResult.Cases gr) ->
         runner.worseVerdict ["JE"; "RTE"; "TLE"; "WA"; "PA"; "AC"; "OK"]
                             (RunResult.Verdict runResult')
                             (CaseResult.Verdict cr)
         = Some (RunResult.Verdict runResult').
Proof.
  do 2 eexists.
  eapply (runLoop_verdict_is_worst
            ["JE"; "RTE"; "TLE"; "WA"; "PA"; "AC"; "OK"] 1 (Float64.ofZ 60)
            "cat" [("a.out", outputonly.Build_outputOnlyFile "1" false)]
            (fun _ => []) (Q2Qc (1 # 2)) (fun _ => Rat.one)
            (GradeLoops.NewRunResult "JE" Rat.one) []
            [GroupSettings.mk "g" [CaseSettings.mk "a" Rat.one;
                                   CaseSettings.mk "b" Rat.one]]).
  - vm_compute. tauto.
  - reflexivity.
Defined.

(** X24.  The validation loop changes the verdict of the run in one way only:
    the verdict it leaves is the one it found, or worseVerdict of that
    one and PA. *)
Theorem validateGroups_verdict
        (VerdictList : list string) (factor : Rat.Rat)
        (validatorName : string)
        (validated : string -> GradeLoops.validation) (maxScore : Rat.Rat)
        (verdict : string) (score : Rat.Rat) (files : list string)
        (groups : list GroupSettings.t) (groupResults : list GroupResult.t)
        (verdict' : string) (score' : Rat.Rat) (files' : list string)
        (groupResults' : list GroupResult.t) :
  GradeLoops.validateGroups VerdictList factor validatorName validated
                            maxScore (verdict, score, files)
                            groups groupResults
  = Some ((verdict', score', files'), groupResults') ->
  verdict' = verdict
  \/ runner.worseVerdict VerdictList verdict "PA" = Some verdict'.
Proof.
  assert (forall v v1 v2,
             (v1 = v \/ runner.worseVerdict VerdictList v "PA" = Some v1) ->
             (v2 = v1 \/ runner.worseVerdict VerdictList v1 "PA" = Some v2) ->
             v2 = v \/ runner.worseVerdict VerdictList v "PA" = Some v2)
    as Hstep.
  { intros v v1 v2 [->|H1] [->|H2]; auto.
    right. pose proof (worseVerdict_Some _ _ _ _ H1) as [Hv [Hpa [_ [_ Hle]]]].
    pose proof (worseVerdict_In _ _ _ _ H1) as Hv1.
    rewrite (worseVerdict_absorbs _ v1 "PA" Hv1 Hpa Hle) in H2.
    congruence. }
  assert (forall cases rs v s c f v' s' c' f' rs',
             GradeLoops.validateCases VerdictList factor validatorName
               validated maxScore (v, s, c, f) cases rs
             = Some ((v', s', c', f'), rs') ->
             v' = v \/ runner.worseVerdict VerdictList v "PA" = Some v')
    as Hcases.
  { induction cases as [|cd cases IH]; intros rs v s c f v' s' c' f' rs';
      cbn [GradeLoops.validateCases].
    - intros E. injection E as <- _ _ _ _. now left.
    - destruct rs as [|r rs]; [discriminate|].
      destruct (GradeLoops.validateCase _ _ _ _ _ _ _ _)
        as [[[[[v1 s1] c1] f1] r1]|] eqn:E1; [|discriminate].
      destruct (GradeLoops.validateCases _ _ _ _ _ (v1, s1, c1, f1) _ _)
        as [[[[[v2 s2] c2] f2] rs2]|] eqn:E2; [|discriminate].
      intros E. injection E as <- _ _ _ _.
      apply (Hstep v v1 v2); [|exact (IH _ _ _ _ _ _ _ _ _ _ E2)].
      apply validateCase_cases in E1. cbv zeta in E1.
      destruct E1 as [fs [[_ [E _]] | [[_ [_ [E _]]] | [_ [_ [_ [_ H]]]]]]].
      + injection E as -> _ _ _. now left.
      + injection E as -> _ _ _. now left.
      + destruct H as [[_ [E _]] | [[_ [[x [Hw E]] _]] | [_ [_ [[x [Hw E]] _]]]]];
          injection E as -> _ _ _; auto. }
  revert groupResults verdict score files verdict' score' files'
         groupResults'.
  induction groups as [|g groups IH]; intros grs v s f v' s' f' grs';
    cbn [GradeLoops.validateGroups].
  - intros E. injection E as <- _ _ _. now left.
  - destruct grs as [|gr grs]; [discriminate|].
    destruct (GradeLoops.validateGroup _ _ _ _ _ _ _ _)
      as [[[[v1 s1] f1] g1]|] eqn:E1; [|discriminate].
    destruct (GradeLoops.validateGroups _ _ _ _ _ (v1, s1, f1) _ _)
      as [[[[v2 s2] f2] gs2]|] eqn:E2; [|discriminate].
    intros E. injection E as <- _ _ _.
    apply (Hstep v v1 v2); [|exact (IH _ _ _ _ _ _ _ _ E2)].
    unfold GradeLoops.validateGroup in E1.
    destruct (GradeLoops.validateCases _ _ _ _ _ _ _ _)
      as [[[[[v3 s3] c3] f3] rs3]|] eqn:E3; [|discriminate].
    apply Hcases in E3.
    destruct c3; injection E1 as <- _ _ _; exact E3.
Qed.

Lemma validateGroups_verdict_witness :
  exists verdict',
    verdict' = "OK"
    \/ runner.worseVerdict ["JE"; "RTE"; "TLE"; "WA"; "PA"; "AC"; "OK"]
                           "OK" "PA" = Some verdict'.
Proof.
  eexists.
  eapply (validateGroups_verdict
            ["JE"; "RTE"; "TLE"; "WA"; "PA"; "AC"; "OK"] (Q2Qc (1 # 2))
            "token"
            (fun name =>
               GradeLoops.Build_validation
                 (RunMetadata.ofVerdict "OK") true
                 (if String.eqb name "a" then Rat.one else Q2Qc (1 # 2)))
            Rat.one "OK" Rat.zero []
            [GroupSettings.mk "g" [CaseSettings.mk "a" Rat.one];
             GroupSettings.mk "h" [CaseSettings.mk "b" Rat.one]]
            [GroupResult.mk "g" Rat.zero Rat.zero (Q2Qc (1 # 2))
               [CaseResult.mk "a" "OK" Rat.zero Rat.zero (Q2Qc (1 # 2))
                              (RunMetadata.ofVerdict "OK") []];
             GroupResult.mk "h" Rat.zero Rat.zero (Q2Qc (1 # 2))
               [CaseResult.mk "b" "OK" Rat.zero Rat.zero (Q2Qc (1 # 2))
                              (RunMetadata.ofVerdict "OK") []]]).
  reflexivity.
Defined.
